(** * Atomo: a shallow embedding of the nano-style editor

    The development follows [atomo.py].  Where the annotated copy
    [atomo_commentato.py] differs in what it computes, the differing function
    is embedded a second time in [Module Commentato].

    Python values are modelled as follows.
    - [int] is [Z]; list and string indices keep Python's meaning, negative
      indices included.
    - [str] is the list of its code points; a line of the buffer, a file
      name and a status message are all [str].
    - An exception that nothing catches ([IndexError] from an index,
      [ValueError] and [curses.error] from the terminal) and a read of the
      keyboard that never returns are outcomes of the [result] monad; a
      [try] is a [match] on the outcome.
    - The terminal and the file system are the explicit [world].  The file
      system encoding is UTF-8 and curses is built for wide characters, as
      on the platforms the [curses] module supports. *)

From Stdlib Require Import ZArith Ascii String DecimalString.
From stdpp Require Import base option list gmap.

Local Open Scope Z_scope.

(** ** Python strings and lists *)

(** A character is its code point, a string the list of its characters. *)
Abbreviation char := N (only parsing).
Abbreviation str := (list N) (only parsing).

(** A string literal of the source, as a list of code points. *)
Definition lit (s : string) : str := N_of_ascii <$> list_ascii_of_string s.
Arguments lit : simpl never.

(** [str(n)] for an integer. *)
Definition str_of_int (n : Z) : str := lit (NilZero.string_of_int (Z.to_int n)).

(** [len(l)] *)
Definition len {A} (l : list A) : Z := Z.of_nat (length l).
Arguments len : simpl never.

(** Truth value of a string, of a list and of an optional string. *)
Definition truthy {A} (l : list A) : bool :=
  match l with [] => false | _ => true end.

Definition truthy_opt {A} (o : option (list A)) : bool :=
  match o with Some l => truthy l | None => false end.

(** Outcome of a piece of code that can raise [IndexError], [ValueError]
    or [curses.error], or wait for input that never arrives. *)
Inductive result (A : Type) : Type :=
  | Ok (a : A)
  | IndexError
  | ValueError
  | CursesError
  | Blocked.
Arguments Ok {A} a.
Arguments IndexError {A}.
Arguments ValueError {A}.
Arguments CursesError {A}.
Arguments Blocked {A}.

#[global] Instance result_ret : MRet result := fun A a => Ok a.
#[global] Instance result_bind : MBind result := fun A B f m =>
  match m with
  | Ok a => f a
  | IndexError => IndexError
  | ValueError => ValueError
  | CursesError => CursesError
  | Blocked => Blocked
  end.

(** Position of index [i] in a sequence of length [n], for item access:
    [0 <= i < n] counts from the front, [-n <= i < 0] from the back. *)
Definition item_pos (n i : Z) : option nat :=
  if (0 <=? i) && (i <? n) then Some (Z.to_nat i)
  else if (- n <=? i) && (i <? 0) then Some (Z.to_nat (i + n))
  else None.

(** [l[i]] *)
Definition getitem {A} (l : list A) (i : Z) : result A :=
  match item_pos (len l) i with
  | Some k => match l !! k with Some x => Ok x | None => IndexError end
  | None => IndexError
  end.

(** [l[i] = v] *)
Definition setitem {A} (l : list A) (i : Z) (v : A) : result (list A) :=
  match item_pos (len l) i with
  | Some k => Ok (<[k := v]> l)
  | None => IndexError
  end.

(** [l.pop(i)]: the removed item and the shortened list. *)
Definition pop {A} (l : list A) (i : Z) : result (A * list A) :=
  match item_pos (len l) i with
  | Some k => match l !! k with
              | Some x => Ok (x, delete k l)
              | None => IndexError
              end
  | None => IndexError
  end.

(** A slice bound: negative bounds count from the back, and every bound is
    clipped to [0, n]. *)
Definition clip (n i : Z) : nat :=
  Z.to_nat (if i <? 0 then Z.max 0 (i + n) else Z.min i n).

(** [l[a:]] and [l[:b]] *)
Definition slice_from {A} (l : list A) (a : Z) : list A := drop (clip (len l) a) l.
Definition slice_to {A} (l : list A) (b : Z) : list A := take (clip (len l) b) l.

(** [l[a:b]]: empty when the upper bound is not above the lower one. *)
Definition slice {A} (l : list A) (a b : Z) : list A :=
  let i := clip (len l) a in
  let j := clip (len l) b in
  take (j - i) (drop i l).

(** [l.insert(i, x)]: the position is clipped like a slice bound. *)
Definition list_insert {A} (l : list A) (i : Z) (x : A) : list A :=
  let k := clip (len l) i in take k l ++ x :: drop k l.

(** [range(a, b)] *)
Definition range (a b : Z) : list Z := seqZ a (b - a).

(** [s.startswith(q)] *)
Fixpoint startswith (s q : str) : bool :=
  match q, s with
  | [], _ => true
  | _ :: _, [] => false
  | c :: q', d :: s' => (c =? d)%N && startswith s' q'
  end.

(** Index of the leftmost occurrence of [q] in [s], if any. *)
Fixpoint find_pos (s q : str) : option nat :=
  if startswith s q then Some 0%nat
  else match s with
       | [] => None
       | _ :: s' => S <$> find_pos s' q
       end.

(** [s.find(q)]: the lowest index at which [q] occurs in [s], or [-1]. *)
Definition find (s q : str) : Z :=
  match find_pos s q with
  | Some i => Z.of_nat i
  | None => -1
  end.

(** [sep.join(items)] *)
Definition join (sep : str) (items : list str) : str :=
  match items with
  | [] => []
  | x :: rest => x ++ concat ((fun y => sep ++ y) <$> rest)
  end.

(** The characters at which [str.splitlines] breaks a line: LF, VT, FF, CR,
    FS, GS, RS, NEL, LINE SEPARATOR and PARAGRAPH SEPARATOR. *)
Definition LF : char := 10%N.
Definition CR : char := 13%N.

Definition is_linebreak (c : char) : bool :=
  bool_decide (c ∈ [10; 11; 12; 13; 28; 29; 30; 133; 8232; 8233]%N).

(** [splitlines] with the line read so far in [cur]; [after_cr] says that
    the previous character was a CR, so that a LF now belongs to the same
    line end. *)
Fixpoint splitlines_go (cur : str) (after_cr : bool) (s : str) : list str :=
  match s with
  | [] => if truthy cur then [cur] else []
  | c :: s' =>
      if after_cr && (c =? LF)%N then splitlines_go cur false s'
      else if is_linebreak c then cur :: splitlines_go [] (c =? CR)%N s'
      else splitlines_go (cur ++ [c]) false s'
  end.

(** [s.splitlines()] *)
Definition splitlines (s : str) : list str := splitlines_go [] false s.

(** What a text-mode file opened for reading does to line ends: CR LF and
    a lone CR are both read as LF. *)
Fixpoint universal_newlines (after_cr : bool) (s : str) : str :=
  match s with
  | [] => []
  | c :: s' =>
      if after_cr && (c =? LF)%N then universal_newlines false s'
      else if (c =? CR)%N then LF :: universal_newlines true s'
      else c :: universal_newlines false s'
  end.

(** The characters [str.strip] removes: those for which [isspace] holds. *)
Definition is_space (c : char) : bool :=
  bool_decide (c ∈ [9; 10; 11; 12; 13; 28; 29; 30; 31; 32; 133; 160; 5760;
                    8192; 8193; 8194; 8195; 8196; 8197; 8198; 8199; 8200;
                    8201; 8202; 8232; 8233; 8239; 8287; 12288]%N).

Fixpoint lstrip (s : str) : str :=
  match s with
  | c :: s' => if is_space c then lstrip s' else s
  | [] => []
  end.

(** [s.strip()] *)
Definition strip (s : str) : str := reverse (lstrip (reverse (lstrip s))).

(** [" " * n]: empty when [n] is not positive. *)
Definition spaces (n : Z) : str := replicate (Z.to_nat n) 32%N.

(** [s if s else d] for an optional string. *)
Definition or_else (o : option str) (d : str) : str :=
  match o with
  | Some s => if truthy s then s else d
  | None => d
  end.

(** The string contains U+0000. *)
Definition has_nul (s : str) : bool := bool_decide (0%N ∈ s).

(** ** Encoding as UTF-8 *)

(** UTF-8 refuses the surrogates, U+D800 to U+DFFF.  In a path, those from
    U+DC80 to U+DCFF stand for the bytes of a file name that is not UTF-8
    and are accepted. *)
Definition is_surrogate (c : char) : bool := (55296 <=? c)%N && (c <=? 57343)%N.
Definition is_escape (c : char) : bool := (56448 <=? c)%N && (c <=? 56575)%N.

Definition hex_digit (d : N) : char :=
  if (d <? 10)%N then (48 + d)%N else (87 + d)%N.

(** A surrogate as the text of an exception shows it: a backslash, [u] and
    four hexadecimal digits. *)
Definition escaped (c : char) : str :=
  lit "\u" ++ [hex_digit (c / 4096 mod 16); hex_digit (c / 256 mod 16);
               hex_digit (c / 16 mod 16); hex_digit (c mod 16)].

(** The number of surrogates at the start of [s]. *)
Fixpoint surrogate_run (s : str) : nat :=
  match s with
  | c :: rest => if is_surrogate c then S (surrogate_run rest) else O
  | [] => O
  end.

(** ** The editor and its surroundings *)

(** [message_type] takes the three values "info", "error" and "success". *)
Inductive message_kind : Type := info | error | success.

(** The attributes of [AtomoEditor] that the commands read and write. *)
Record editor : Type := Editor {
  filename : option str;
  lines : list str;
  cursor_y : Z;
  cursor_x : Z;
  offset_y : Z;
  offset_x : Z;
  modified : bool;
  message : str;
  message_type : message_kind
}.

Definition set_filename (v : option str) (e : editor) : editor :=
  Editor v (lines e) (cursor_y e) (cursor_x e) (offset_y e) (offset_x e)
         (modified e) (message e) (message_type e).
Definition set_lines (v : list str) (e : editor) : editor :=
  Editor (filename e) v (cursor_y e) (cursor_x e) (offset_y e) (offset_x e)
         (modified e) (message e) (message_type e).
Definition set_cursor_y (v : Z) (e : editor) : editor :=
  Editor (filename e) (lines e) v (cursor_x e) (offset_y e) (offset_x e)
         (modified e) (message e) (message_type e).
Definition set_cursor_x (v : Z) (e : editor) : editor :=
  Editor (filename e) (lines e) (cursor_y e) v (offset_y e) (offset_x e)
         (modified e) (message e) (message_type e).
Definition set_offset_y (v : Z) (e : editor) : editor :=
  Editor (filename e) (lines e) (cursor_y e) (cursor_x e) v (offset_x e)
         (modified e) (message e) (message_type e).
Definition set_offset_x (v : Z) (e : editor) : editor :=
  Editor (filename e) (lines e) (cursor_y e) (cursor_x e) (offset_y e) v
         (modified e) (message e) (message_type e).
Definition set_modified (v : bool) (e : editor) : editor :=
  Editor (filename e) (lines e) (cursor_y e) (cursor_x e) (offset_y e)
         (offset_x e) v (message e) (message_type e).
Definition set_message (v : str) (e : editor) : editor :=
  Editor (filename e) (lines e) (cursor_y e) (cursor_x e) (offset_y e)
         (offset_x e) (modified e) v (message_type e).
Definition set_message_type (v : message_kind) (e : editor) : editor :=
  Editor (filename e) (lines e) (cursor_y e) (cursor_x e) (offset_y e)
         (offset_x e) (modified e) (message e) v.

(** What the program sees of the outside.
    - [files]: the text of every existing path, as [open(..., 'r',
      encoding='utf-8').read()] would decode it before line ends are
      translated.  The line separator of the platform is LF (curses is a
      POSIX module), so text is stored as it is written.  A path that
      [open] refuses before the operating system is asked ([path_error]
      below) is never one that exists.
    - [read_error], [write_error]: the paths for which opening or reading,
      respectively opening for writing, raises in the operating system,
      with the text of the exception.  A device that fails in the middle
      of a write is not part of the model.
    - [keys]: the key codes the next calls of [getch] return.
    - [typed]: what the next calls of [getstr] deliver, decoded; a line
      that fails to decode, or that curses fails to read, counts as the
      empty string, as in the source.
    - [max_y], [max_x]: the answer of [getmaxyx]; the terminal is not
      resized while the editor runs.  It has colours and a cursor that can
      be shown, so that the set-up in [__init__] raises nothing. *)
Record world : Type := World {
  files : gmap str str;
  read_error : gmap str str;
  write_error : gmap str str;
  keys : list Z;
  typed : list str;
  max_y : Z;
  max_x : Z
}.

Definition set_files (v : gmap str str) (w : world) : world :=
  World v (read_error w) (write_error w) (keys w) (typed w) (max_y w) (max_x w).
Definition set_keys (v : list Z) (w : world) : world :=
  World (files w) (read_error w) (write_error w) v (typed w) (max_y w) (max_x w).
Definition set_typed (v : list str) (w : world) : world :=
  World (files w) (read_error w) (write_error w) (keys w) v (max_y w) (max_x w).

(** [stdscr.getch()] *)
Definition getch (w : world) : result (Z * world) :=
  match keys w with
  | k :: ks => Ok (k, set_keys ks w)
  | [] => Blocked
  end.

(** [stdscr.getstr(...).decode('utf-8')] inside its [try] *)
Definition getstr (w : world) : result (str * world) :=
  match typed w with
  | s :: ss => Ok (s, set_typed ss w)
  | [] => Blocked
  end.

(** The key codes of curses that [run] names. *)
Definition KEY_DOWN : Z := 258.
Definition KEY_UP : Z := 259.
Definition KEY_LEFT : Z := 260.
Definition KEY_RIGHT : Z := 261.
Definition KEY_HOME : Z := 262.
Definition KEY_BACKSPACE : Z := 263.
Definition KEY_DC : Z := 330.
Definition KEY_NPAGE : Z := 338.
Definition KEY_PPAGE : Z := 339.
Definition KEY_ENTER : Z := 343.
Definition KEY_END : Z := 360.

(** [chr(key)] for a key code that is a code point. *)
Definition chr (key : Z) : str := [Z.to_N key].

(** [ord] of the letters [confirm_exit] compares with. *)
Definition ord_y : Z := 121.
Definition ord_Y : Z := 89.
Definition ord_n : Z := 110.
Definition ord_N : Z := 78.
Definition ord_c : Z := 99.
Definition ord_C : Z := 67.

(** ** Loading and saving *)

(** [load_file] *)
Definition load_file (fname : str) (e : editor) (w : world) : bool * editor :=
  match files w !! fname with
  | Some content =>
      match read_error w !! fname with
      | Some err =>
          (false,
           set_lines [[]]
             (set_message_type error
                (set_message (lit "Error reading " ++ fname ++ lit ": " ++ err) e)))
      | None =>
          let ls := splitlines (universal_newlines false content) in
          let ls := if truthy ls then ls else [[]] in
          (true,
           set_modified false
             (set_filename (Some fname)
                (set_message_type success
                   (set_message (lit "Read " ++ str_of_int (len ls)
                                   ++ lit " lines from " ++ fname)
                      (set_lines ls e)))))
      end
  | None =>
      (true,
       set_modified false
         (set_filename (Some fname)
            (set_message_type info
               (set_message (lit "New File: " ++ fname) (set_lines [[]] e)))))
  end.

(** The text of the [UnicodeEncodeError] that encoding [s] raises, if it
    does: the first character that is refused is reported, together with the
    surrogates that follow it if there are any.  [pos] is the index of the
    first character of [s] in the whole text, [refused] says which
    characters cannot be encoded. *)
Fixpoint encode_error_from (refused : char -> bool) (pos : Z) (s : str)
  : option str :=
  match s with
  | [] => None
  | c :: rest =>
      if refused c then
        let last := pos + Z.of_nat (surrogate_run rest) in
        Some (lit "'utf-8' codec can't encode "
              ++ (if last =? pos
                  then lit "character '" ++ escaped c ++ lit "' in position "
                       ++ str_of_int pos
                  else lit "characters in position " ++ str_of_int pos
                       ++ lit "-" ++ str_of_int last)
              ++ lit ": surrogates not allowed")
      else encode_error_from refused (pos + 1) rest
  end.

(** What [f.write(s)] raises for a file opened with [encoding='utf-8']. *)
Definition encode_error (s : str) : option str :=
  encode_error_from is_surrogate 0 s.

(** What [open] raises for a path before the operating system is asked:
    the path is encoded first, then checked for a zero byte. *)
Definition path_error (fn : str) : option str :=
  match encode_error_from (fun c => is_surrogate c && negb (is_escape c)) 0 fn with
  | Some err => Some err
  | None => if has_nul fn then Some (lit "embedded null byte") else None
  end.

(** The second [write] of [save_file]: a final newline if the last line has
    content. *)
Definition final_newline (ls : list str) : result str :=
  if truthy ls then
    l ← getitem ls (-1);
    mret (if truthy l then [LF] else [])
  else mret [].

(** The [try] block of [save_file], for the file name [fn] and the state
    [e] in which that name is already stored: the outcome, the state and
    the world.  [open] refuses the path or the operating system does, and
    nothing is written; or the first [write] cannot encode the text, and
    the file, already opened, is left empty; or the text is written, and
    a final newline after it. *)
Definition write_file (fn : str) (e : editor) (w : world) : bool * editor * world :=
  let failed (err : str) :=
    set_message_type error
      (set_message (lit "Error writing " ++ fn ++ lit ": " ++ err) e) in
  match path_error fn with
  | Some err => (false, failed err, w)
  | None =>
      match write_error w !! fn with
      | Some err => (false, failed err, w)
      | None =>
          match encode_error (join [LF] (lines e)) with
          | Some err => (false, failed err, set_files (<[fn := []]> (files w)) w)
          | None =>
              match final_newline (lines e) with
              | Ok tail =>
                  (true,
                   set_message_type success
                     (set_message (lit "Wrote " ++ str_of_int (len (lines e))
                                     ++ lit " lines to " ++ fn)
                        (set_modified false e)),
                   set_files (<[fn := join [LF] (lines e) ++ tail]> (files w)) w)
              | _ =>
                  (false, failed (lit "list index out of range"),
                   set_files (<[fn := join [LF] (lines e)]> (files w)) w)
              end
          end
      end
  end.

(** [save_file] *)
Definition save_file (fname : option str) (e : editor) (w : world)
  : bool * editor * world :=
  let e := if truthy_opt fname then set_filename fname e else e in
  match filename e with
  | Some fn => if truthy fn then write_file fn e w else (false, e, w)
  | None => (false, e, w)
  end.

(** [AtomoEditor.__init__] *)
Definition init (fname : option str) (w : world) : editor :=
  let e := Editor fname [] 0 0 0 0 false [] info in
  match fname with
  | Some fn => if truthy fn then snd (load_file fn e w) else set_lines [[]] e
  | None => set_lines [[]] e
  end.

(** ** Cursor, viewport and line editing *)

(** [get_dimensions]: the screen without the four rows of the bars. *)
Definition get_dimensions (w : world) : Z * Z := (max_y w - 4, max_x w).

(** [adjust_scroll] *)
Definition adjust_scroll (w : world) (e : editor) : editor :=
  let '(height, width) := get_dimensions w in
  let e :=
    if cursor_y e <? offset_y e then set_offset_y (cursor_y e) e
    else if offset_y e + height <=? cursor_y e
         then set_offset_y (cursor_y e - height + 1) e
         else e in
  if cursor_x e <? offset_x e then set_offset_x (cursor_x e) e
  else if offset_x e + width <=? cursor_x e
       then set_offset_x (cursor_x e - width + 1) e
       else e.

(** [move_cursor] *)
Definition move_cursor (dy dx : Z) (w : world) (e : editor) : result editor :=
  let e := set_message [] e in
  let e := set_cursor_y (Z.max 0 (Z.min (len (lines e) - 1) (cursor_y e + dy))) e in
  current_line ← getitem (lines e) (cursor_y e);
  let e := set_cursor_x (Z.max 0 (Z.min (len current_line) (cursor_x e + dx))) e in
  mret (adjust_scroll w e).

(** [insert_char] *)
Definition insert_char (text : str) (w : world) (e : editor) : result editor :=
  line ← getitem (lines e) (cursor_y e);
  ls ← setitem (lines e) (cursor_y e)
       (slice_to line (cursor_x e) ++ text ++ slice_from line (cursor_x e));
  let e := set_lines ls e in
  let e := set_cursor_x (cursor_x e + 1) e in
  let e := set_modified true e in
  let e := set_message [] e in
  mret (adjust_scroll w e).

(** [delete_char] *)
Definition delete_char (e : editor) : result editor :=
  line ← getitem (lines e) (cursor_y e);
  e ← (if cursor_x e <? len line then
         ls ← setitem (lines e) (cursor_y e)
              (slice_to line (cursor_x e) ++ slice_from line (cursor_x e + 1));
         mret (set_modified true (set_lines ls e))
       else if cursor_y e <? len (lines e) - 1 then
         next ← getitem (lines e) (cursor_y e + 1);
         ls ← setitem (lines e) (cursor_y e) (line ++ next);
         '(_, ls) ← pop ls (cursor_y e + 1);
         mret (set_modified true (set_lines ls e))
       else mret e);
  mret (set_message [] e).

(** [backspace] *)
Definition backspace (w : world) (e : editor) : result editor :=
  e ← (if 0 <? cursor_x e then
         line ← getitem (lines e) (cursor_y e);
         ls ← setitem (lines e) (cursor_y e)
              (slice_to line (cursor_x e - 1) ++ slice_from line (cursor_x e));
         mret (set_modified true (set_cursor_x (cursor_x e - 1) (set_lines ls e)))
       else if 0 <? cursor_y e then
         prev ← getitem (lines e) (cursor_y e - 1);
         let prev_line_len := len prev in
         cur ← getitem (lines e) (cursor_y e);
         ls ← setitem (lines e) (cursor_y e - 1) (prev ++ cur);
         '(_, ls) ← pop ls (cursor_y e);
         mret (set_modified true
                 (set_cursor_x prev_line_len
                    (set_cursor_y (cursor_y e - 1) (set_lines ls e))))
       else mret e);
  mret (adjust_scroll w (set_message [] e)).

(** [insert_newline] *)
Definition insert_newline (w : world) (e : editor) : result editor :=
  line ← getitem (lines e) (cursor_y e);
  ls ← setitem (lines e) (cursor_y e) (slice_to line (cursor_x e));
  let ls := list_insert ls (cursor_y e + 1) (slice_from line (cursor_x e)) in
  let e := set_lines ls e in
  let e := set_cursor_y (cursor_y e + 1) e in
  let e := set_cursor_x 0 e in
  let e := set_modified true e in
  let e := set_message [] e in
  mret (adjust_scroll w e).

(** ** Drawing *)

(** One call of [addstr] at a position of the window: the row, the column
    and the text passed.  How the terminal lays the characters out is not
    part of the model. *)
Record drawn : Type := Drawn {
  at_row : Z;
  at_col : Z;
  shown : str
}.

(** The position is one of the window. *)
Definition in_window (w : world) (y x : Z) : bool :=
  (0 <=? y) && (y <? max_y w) && (0 <=? x) && (x <? max_x w).

(** [stdscr.addstr(y, x, text)]: the text is converted first, which raises
    [ValueError] on U+0000; then curses moves to the position and raises
    [curses.error] if it is not one of the window.  The error curses
    reports when it has written up to the corner of the window is not
    modelled: the only caller ignores it, and the text it passes ends
    before the last column. *)
Definition addstr (w : world) (y x : Z) (text : str) : result drawn :=
  if has_nul text then ValueError
  else if in_window w y x then mret (Drawn y x text)
  else CursesError.

(** [stdscr.move(y, x)] *)
Definition move (w : world) (y x : Z) : result (Z * Z) :=
  if in_window w y x then mret (y, x) else CursesError.

(** [safe_addstr]: the calls of [addstr] that were carried out, none or
    one.  An error of curses is caught and ignored; a [ValueError] is
    not. *)
Definition safe_addstr (w : world) (y x : Z) (text : str) : result (list drawn) :=
  if (max_y w <=? y) || (max_x w <=? x) then mret []
  else
    let max_len := max_x w - x - 1 in
    if max_len <=? 0 then mret []
    else
      match addstr w y x (slice_to text max_len) with
      | CursesError => mret []
      | r => d ← r; mret [d]
      end.

(** The two calls with which the bars, the message and the prompts are
    drawn: the row is blanked up to its last column but one, then the text
    is written from its first column. *)
Definition draw_row (w : world) (y : Z) (text : str) : result (list drawn) :=
  a ← safe_addstr w y 0 (spaces (max_x w - 1));
  b ← safe_addstr w y 0 text;
  mret (a ++ b).

(** A [for] loop whose body draws: what the turns drew, unless one of them
    raises. *)
Fixpoint for_each {A} (body : A -> result (list drawn)) (items : list A)
  : result (list drawn) :=
  match items with
  | [] => mret []
  | x :: rest => a ← body x; b ← for_each body rest; mret (a ++ b)
  end.

(** [draw_title_bar] *)
Definition draw_title_bar (w : world) (e : editor) : result (list drawn) :=
  let title := lit "  GNU nano clone - Atomo" in
  let filename_display := or_else (filename e) (lit "[New Buffer]") in
  let mod_indicator := if modified e then lit " *" else [] in
  a ← draw_row w 0 title;
  let filename_str := lit " File: " ++ filename_display ++ mod_indicator ++ lit " " in
  b ← (if len filename_str <? max_x w - len title then
         let x_pos := (max_x w - len filename_str) `div` 2 in
         safe_addstr w 0 x_pos filename_str
       else mret []);
  mret (a ++ b).

(** [draw_status_bar] *)
Definition draw_status_bar (w : world) (e : editor) : result (list drawn) :=
  let status_left :=
    lit " Line " ++ str_of_int (cursor_y e + 1) ++ lit "/"
    ++ str_of_int (len (lines e)) ++ lit "  Col " ++ str_of_int (cursor_x e + 1)
    ++ lit " " in
  draw_row w (max_y w - 2) status_left.

(** The shortcuts of the help bar, each followed by three spaces. *)
Definition shortcuts : list (str * str) :=
  [(lit "^X", lit "Exit"); (lit "^O", lit "Save"); (lit "^W", lit "Where Is");
   (lit "^K", lit "Cut"); (lit "^U", lit "Paste"); (lit "^G", lit "Help")].

(** [draw_help_bar] *)
Definition draw_help_bar (w : world) : result (list drawn) :=
  let help_text :=
    foldl (fun acc '(key, desc) => acc ++ key ++ lit " " ++ desc ++ lit "   ")
          (lit "  ") shortcuts in
  draw_row w (max_y w - 1) help_text.

(** [draw_message] *)
Definition draw_message (w : world) (e : editor) : result (list drawn) :=
  if truthy (message e) then draw_row w (max_y w - 3) (lit " " ++ message e)
  else mret [].

(** The body of the loop of [draw_buffer] for one row of the screen. *)
Definition draw_buffer_row (w : world) (e : editor) (screen_y : Z)
  : result (list drawn) :=
  let '(_, width) := get_dimensions w in
  let buffer_y := screen_y + offset_y e in
  a ← safe_addstr w (screen_y + 1) 0 (spaces width);
  b ← (if buffer_y <? len (lines e) then
         line ← getitem (lines e) buffer_y;
         let visible_line := slice line (offset_x e) (offset_x e + width) in
         safe_addstr w (screen_y + 1) 0 visible_line
       else mret []);
  mret (a ++ b).

(** [draw_buffer] *)
Definition draw_buffer (w : world) (e : editor) : result (list drawn) :=
  let '(height, _) := get_dimensions w in
  for_each (draw_buffer_row w e) (range 0 height).

(** The end of [draw]: the terminal cursor is moved to the cursor of the
    editor if that is on the screen, below the title bar. *)
Definition draw_cursor (w : world) (e : editor) : result (option (Z * Z)) :=
  let screen_y := cursor_y e - offset_y e + 1 in
  let screen_x := cursor_x e - offset_x e in
  let '(height, width) := get_dimensions w in
  if (0 <=? screen_y) && (screen_y <? height + 1)
     && (0 <=? screen_x) && (screen_x <? width)
  then p ← move w screen_y screen_x; mret (Some p)
  else mret None.

(** What one call of [draw] puts on the cleared screen, and where it
    leaves the terminal cursor if it moves it. *)
Record frame : Type := Frame {
  cells : list drawn;
  cursor_at : option (Z * Z)
}.

(** [draw] *)
Definition draw (w : world) (e : editor) : result frame :=
  title ← draw_title_bar w e;
  buffer ← draw_buffer w e;
  msg ← draw_message w e;
  status ← draw_status_bar w e;
  help ← draw_help_bar w;
  cursor ← draw_cursor w e;
  mret (Frame (title ++ buffer ++ msg ++ status ++ help) cursor).

(** The functions of [atomo_commentato.py] that differ from [atomo.py] in
    what they compute. *)
Module Commentato.

(** [insert_char]: the column advances by the length of the text, and
    the message is left alone. *)
Definition insert_char (text : str) (w : world) (e : editor) : result editor :=
  line ← getitem (lines e) (cursor_y e);
  ls ← setitem (lines e) (cursor_y e)
       (slice_to line (cursor_x e) ++ text ++ slice_from line (cursor_x e));
  let e := set_lines ls e in
  let e := set_cursor_x (cursor_x e + len text) e in
  let e := set_modified true e in
  mret (adjust_scroll w e).

(** [move_cursor]: the same clamping, and the message is left alone. *)
Definition move_cursor (dy dx : Z) (w : world) (e : editor) : result editor :=
  let new_y := cursor_y e + dy in
  let new_y := Z.max 0 (Z.min new_y (len (lines e) - 1)) in
  let e := set_cursor_y new_y e in
  let new_x := cursor_x e + dx in
  line ← getitem (lines e) (cursor_y e);
  let new_x := Z.max 0 (Z.min new_x (len line)) in
  let e := set_cursor_x new_x e in
  mret (adjust_scroll w e).

(** [delete_char]: the next line is popped before it is appended, and the
    message is left alone. *)
Definition delete_char (e : editor) : result editor :=
  line ← getitem (lines e) (cursor_y e);
  if cursor_x e <? len line then
    ls ← setitem (lines e) (cursor_y e)
         (slice_to line (cursor_x e) ++ slice_from line (cursor_x e + 1));
    mret (set_modified true (set_lines ls e))
  else if cursor_y e <? len (lines e) - 1 then
    '(next_line, ls) ← pop (lines e) (cursor_y e + 1);
    cur ← getitem ls (cursor_y e);
    ls ← setitem ls (cursor_y e) (cur ++ next_line);
    mret (set_modified true (set_lines ls e))
  else mret e.

(** [backspace]: the current line is popped before it is appended to the
    previous one; the viewport follows only when something was deleted, and
    the message is left alone. *)
Definition backspace (w : world) (e : editor) : result editor :=
  if 0 <? cursor_x e then
    line ← getitem (lines e) (cursor_y e);
    ls ← setitem (lines e) (cursor_y e)
         (slice_to line (cursor_x e - 1) ++ slice_from line (cursor_x e));
    let e := set_lines ls e in
    let e := set_cursor_x (cursor_x e - 1) e in
    let e := set_modified true e in
    mret (adjust_scroll w e)
  else if 0 <? cursor_y e then
    current_line ← getitem (lines e) (cursor_y e);
    '(_, ls) ← pop (lines e) (cursor_y e);
    let e := set_lines ls e in
    let e := set_cursor_y (cursor_y e - 1) e in
    prev ← getitem (lines e) (cursor_y e);
    let e := set_cursor_x (len prev) e in
    prev ← getitem (lines e) (cursor_y e);
    ls ← setitem (lines e) (cursor_y e) (prev ++ current_line);
    let e := set_lines ls e in
    let e := set_modified true e in
    mret (adjust_scroll w e)
  else mret e.

(** The loop of [prompt_input] over the keys still to come, with the text
    entered so far: every turn shows the prompt and the text, then reads a
    key.  Enter confirms, ESC cancels, Backspace removes the last
    character, a printable key is appended, every other key is ignored. *)
Fixpoint prompt_input_loop (prompt : str) (ks : list Z) (input_str : str)
    (w : world) : result (option str * world) :=
  match ks with
  | [] => _ ← draw_row w (max_y w - 3) (prompt ++ input_str); Blocked
  | key :: ks' =>
      _ ← draw_row w (max_y w - 3) (prompt ++ input_str);
      let w := set_keys ks' w in
      if bool_decide (key ∈ [KEY_ENTER; 10; 13]) then mret (Some input_str, w)
      else if key =? 27 then mret (None, w)
      else if bool_decide (key ∈ [KEY_BACKSPACE; 127; 8]) then
        prompt_input_loop prompt ks' (slice_to input_str (-1)) w
      else if (32 <=? key) && (key <=? 126) then
        prompt_input_loop prompt ks' (input_str ++ chr key) w
      else prompt_input_loop prompt ks' input_str w
  end.

(** [prompt_input] *)
Definition prompt_input (prompt : str) (w : world) : result (option str * world) :=
  prompt_input_loop prompt (keys w) [] w.

(** [prompt_save_filename]: the current file name without asking, if there
    is one. *)
Definition prompt_save_filename (e : editor) (w : world)
  : result (option str * world) :=
  let prompt := lit "File Name to Write: " in
  if truthy_opt (filename e) then mret (filename e, w)
  else
    '(fname, w) ← prompt_input prompt w;
    mret (if truthy_opt fname then fname else None, w).

(** [prompt_search] *)
Definition prompt_search (w : world) : result (option str * world) :=
  prompt_input (lit "Search: ") w.

End Commentato.

(** ** Prompts and search *)

(** The [try] block of the two prompts: the cursor is moved behind the
    prompt and a line is read there.  When curses refuses the position,
    nothing is read and the input is the empty string. *)
Definition read_line (w : world) (prompt : str) : result (str * world) :=
  match move w (max_y w - 3) (Z.min (len prompt) (max_x w - 2)) with
  | Ok _ => getstr w
  | _ => mret ([], w)
  end.

(** [prompt_save_filename] *)
Definition prompt_save_filename (e : editor) (w : world)
  : result (option str * world) :=
  let prompt := lit "File Name to Write: " ++ or_else (filename e) [] in
  _ ← draw_row w (max_y w - 3) prompt;
  '(input_str, w) ← read_line w prompt;
  if truthy (strip input_str) then mret (Some (strip input_str), w)
  else mret (filename e, w).

(** [prompt_search] *)
Definition prompt_search (w : world) : result (option str * world) :=
  let prompt := lit "Search: " in
  _ ← draw_row w (max_y w - 3) prompt;
  '(input_str, w) ← read_line w prompt;
  mret (if truthy (strip input_str) then Some (strip input_str) else None, w).

(** The body shared by the two [for] loops of [search]: the first row of
    [ys] in which [query] occurs, with the column of its leftmost
    occurrence. *)
Fixpoint search_rows (ls : list str) (query : str) (ys : list Z)
  : result (option (Z * Z)) :=
  match ys with
  | [] => mret None
  | y :: ys' =>
      line ← getitem ls y;
      let pos := find line query in
      if negb (pos =? -1) then mret (Some (y, pos))
      else search_rows ls query ys'
  end.

(** [search] *)
Definition search (query : str) (w : world) (e : editor) : result editor :=
  if negb (truthy query) then mret e
  else
    let start_y := cursor_y e in
    let start_x := cursor_x e + 1 in
    line ← getitem (lines e) start_y;
    let pos := find (slice_from line start_x) query in
    if negb (pos =? -1) then
      mret (adjust_scroll w
              (set_message_type success
                 (set_message (lit "Found '" ++ query ++ lit "'")
                    (set_cursor_x (start_x + pos) e))))
    else
      hit ← search_rows (lines e) query (range (start_y + 1) (len (lines e)));
      match hit with
      | Some (y, pos) =>
          mret (adjust_scroll w
                  (set_message_type success
                     (set_message (lit "Found '" ++ query ++ lit "'")
                        (set_cursor_x pos (set_cursor_y y e)))))
      | None =>
          hit ← search_rows (lines e) query (range 0 start_y);
          match hit with
          | Some (y, pos) =>
              mret (adjust_scroll w
                      (set_message_type success
                         (set_message (lit "Found '" ++ query ++ lit "' (wrapped)")
                            (set_cursor_x pos (set_cursor_y y e)))))
          | None =>
              mret (set_message_type error
                      (set_message (lit "'" ++ query ++ lit "' not found") e))
          end
      end.

(** The lines of the help screen. *)
Definition help_text : list str :=
  [lit "Atomo Help - A nano clone";
   lit "";
   lit "Main commands:";
   lit "  Ctrl+X  Exit (prompts to save if modified)";
   lit "  Ctrl+O  Save file (Write Out)";
   lit "  Ctrl+W  Search (Where Is)";
   lit "  Ctrl+K  Cut line";
   lit "  Ctrl+U  Paste line";
   lit "  Ctrl+G  Show this help";
   lit "";
   lit "Navigation:";
   lit "  Arrow Keys  Move cursor";
   lit "  Home/Ctrl+A Beginning of line";
   lit "  End/Ctrl+E  End of line";
   lit "  Page Up/Down Scroll page";
   lit "";
   lit "Editing:";
   lit "  Enter      Insert new line";
   lit "  Backspace  Delete character before cursor";
   lit "  Delete     Delete character at cursor";
   lit "";
   lit "Press any key to continue..."].

(** [enumerate(l)] *)
Definition enumerate {A} (l : list A) : list (Z * A) :=
  zip (seqZ 0 (len l)) l.

(** [show_help]: the help screen is drawn and waits for one key. *)
Definition show_help (w : world) : result world :=
  _ ← for_each (fun '(i, line) =>
                  if i <? max_y w - 1 then safe_addstr w i 2 line else mret [])
               (enumerate help_text);
  '(_, w) ← getch w;
  mret w.

(** ** Leaving the editor *)

(** The [while True] loop of [confirm_exit], over the keys still to come:
    every key other than y, n, c and ESC is read and ignored. *)
Fixpoint confirm_exit_loop (ks : list Z) (e : editor) (w : world)
  : result (bool * editor * world) :=
  match ks with
  | [] => Blocked
  | key :: ks' =>
      let w := set_keys ks' w in
      if bool_decide (key ∈ [ord_y; ord_Y]) then
        '(fname, w) ← prompt_save_filename e w;
        if truthy_opt fname then mret (save_file fname e w)
        else mret (false, e, w)
      else if bool_decide (key ∈ [ord_n; ord_N]) then mret (true, e, w)
      else if bool_decide (key ∈ [ord_c; ord_C; 27]) then mret (false, e, w)
      else confirm_exit_loop ks' e w
  end.

(** [confirm_exit]: whether the editor may stop. *)
Definition confirm_exit (e : editor) (w : world) : result (bool * editor * world) :=
  if negb (modified e) then mret (true, e, w)
  else
    _ ← draw_row w (max_y w - 3) (lit "Save modified buffer? (Y/N/C for cancel) ");
    confirm_exit_loop (keys w) e w.

(** ** The command loop *)

(** The state of [run]: the editor, the local [cut_buffer] and the world. *)
Record session : Type := Session {
  ed : editor;
  cut_buffer : str;
  env : world
}.

(** The Ctrl+K branch of [run]. *)
Definition cut_line (s : session) : result session :=
  let e := ed s in
  if truthy (lines e) then
    cut ← getitem (lines e) (cursor_y e);
    '(_, ls) ← pop (lines e) (cursor_y e);
    let ls := if negb (truthy ls) then [[]] else ls in
    let e := set_lines ls e in
    let e := if len (lines e) <=? cursor_y e
             then set_cursor_y (len (lines e) - 1) e else e in
    let e := set_cursor_x 0 e in
    let e := set_modified true e in
    let e := set_message (lit "Cut line") e in
    let e := set_message_type info e in
    mret (Session e cut (env s))
  else mret s.

(** The Ctrl+U branch of [run]. *)
Definition paste_line (s : session) : session :=
  let e := ed s in
  if truthy (cut_buffer s) then
    let e := set_lines (list_insert (lines e) (cursor_y e) (cut_buffer s)) e in
    let e := set_modified true e in
    let e := set_message (lit "Pasted line") e in
    let e := set_message_type info e in
    Session e (cut_buffer s) (env s)
  else s.

(** One turn of the loop of [run] after [getch] has delivered [key]: the
    new state, and whether the loop is left. *)
Definition dispatch (key : Z) (s : session) : result (bool * session) :=
  let e := ed s in
  let w := env s in
  let continue_with (r : result editor) : result (bool * session) :=
    e' ← r; mret (false, Session e' (cut_buffer s) w) in
  if key =? 24 then
    '(leave, e', w') ← confirm_exit e w;
    mret (leave, Session e' (cut_buffer s) w')
  else if key =? 15 then
    '(fname, w') ← prompt_save_filename e w;
    if truthy_opt fname then
      let '(_, e', w'') := save_file fname e w' in
      mret (false, Session e' (cut_buffer s) w'')
    else mret (false, Session e (cut_buffer s) w')
  else if key =? 23 then
    '(query, w') ← prompt_search w;
    match query with
    | Some q =>
        if truthy q then
          e' ← search q w' e; mret (false, Session e' (cut_buffer s) w')
        else mret (false, Session e (cut_buffer s) w')
    | None => mret (false, Session e (cut_buffer s) w')
    end
  else if key =? 11 then
    s' ← cut_line s; mret (false, s')
  else if key =? 21 then
    mret (false, paste_line s)
  else if key =? 7 then
    w' ← show_help w; mret (false, Session e (cut_buffer s) w')
  else if key =? 1 then
    continue_with (mret (adjust_scroll w (set_cursor_x 0 e)))
  else if key =? 5 then
    continue_with (line ← getitem (lines e) (cursor_y e);
                   mret (adjust_scroll w (set_cursor_x (len line) e)))
  else if key =? KEY_UP then continue_with (move_cursor (-1) 0 w e)
  else if key =? KEY_DOWN then continue_with (move_cursor 1 0 w e)
  else if key =? KEY_LEFT then
    if 0 <? cursor_x e then continue_with (move_cursor 0 (-1) w e)
    else if 0 <? cursor_y e then
      let e := set_cursor_y (cursor_y e - 1) e in
      continue_with (line ← getitem (lines e) (cursor_y e);
                     mret (adjust_scroll w (set_cursor_x (len line) e)))
    else mret (false, s)
  else if key =? KEY_RIGHT then
    continue_with
      (line ← getitem (lines e) (cursor_y e);
       if cursor_x e <? len line then move_cursor 0 1 w e
       else if cursor_y e <? len (lines e) - 1 then
         mret (adjust_scroll w (set_cursor_x 0 (set_cursor_y (cursor_y e + 1) e)))
       else mret e)
  else if key =? KEY_HOME then
    continue_with (mret (adjust_scroll w (set_cursor_x 0 e)))
  else if key =? KEY_END then
    continue_with (line ← getitem (lines e) (cursor_y e);
                   mret (adjust_scroll w (set_cursor_x (len line) e)))
  else if key =? KEY_PPAGE then
    let '(height, _) := get_dimensions w in
    continue_with (move_cursor (- height) 0 w e)
  else if key =? KEY_NPAGE then
    let '(height, _) := get_dimensions w in
    continue_with (move_cursor height 0 w e)
  else if bool_decide (key ∈ [KEY_ENTER; 10; 13]) then
    continue_with (insert_newline w e)
  else if bool_decide (key ∈ [KEY_BACKSPACE; 127; 8]) then
    continue_with (backspace w e)
  else if key =? KEY_DC then continue_with (delete_char e)
  else if key =? 9 then continue_with (insert_char (lit "    ") w e)
  else if (32 <=? key) && (key <=? 126) then continue_with (insert_char (chr key) w e)
  else mret (false, s).

(** [run]: every turn draws the screen, reads a key and handles it.
    [fuel] bounds the number of keys read; since every turn reads at least
    one key, more fuel than there are keys is never used up. *)
Fixpoint run_loop (fuel : nat) (s : session) : result session :=
  match fuel with
  | O => Blocked
  | S fuel' =>
      _ ← draw (env s) (ed s);
      '(key, w) ← getch (env s);
      r ← dispatch key (Session (ed s) (cut_buffer s) w);
      match r with
      | (true, s') => mret s'
      | (false, s') => run_loop fuel' s'
      end
  end.

Definition run (e : editor) (w : world) : result session :=
  run_loop (S (length (keys w))) (Session e [] w).

(** [main]: build the editor, then run it. *)
Definition main (fname : option str) (w : world) : result session :=
  run (init fname w) w.

(** The states the loop of [run] passes through when started by [main]:
    the state before a key is read, whether or not the screen can be
    drawn in it. *)
Inductive reachable : session -> Prop :=
  | reach_start (fname : option str) (w : world) :
      reachable (Session (init fname w) [] w)
  | reach_key (s s' : session) (key : Z) (w : world) :
      reachable s ->
      getch (env s) = Ok (key, w) ->
      dispatch key (Session (ed s) (cut_buffer s) w) = Ok (false, s') ->
      reachable s'.

(** ** Vocabulary of the properties *)

(** [q] occurs in [s] at column [i]. *)
Definition occurs_at (q s : str) (i : Z) : Prop :=
  exists pre post, s = pre ++ q ++ post /\ len pre = i.

(** [q] does not occur in [s] at column [a] or later. *)
Definition absent_from (q s : str) (a : Z) : Prop :=
  forall j, a <= j -> ~ occurs_at q s j.

(** [c] is the first column at or after [a] at which [q] occurs in [s]. *)
Definition leftmost_from (q s : str) (a c : Z) : Prop :=
  a <= c /\ occurs_at q s c /\ forall j, a <= j < c -> ~ occurs_at q s j.

(** [q] occurs nowhere in row [r] of [ls]. *)
Definition row_absent (q : str) (ls : list str) (r : Z) : Prop :=
  forall l, getitem ls r = Ok l -> absent_from q l 0.

(** The messages of [search]. *)
Definition msg_found (q : str) : str := lit "Found '" ++ q ++ lit "'".
Definition msg_wrapped (q : str) : str := lit "Found '" ++ q ++ lit "' (wrapped)".
Definition msg_not_found (q : str) : str := lit "'" ++ q ++ lit "' not found".

(** The editor after a search that found nothing: only the message and its
    kind differ from [e]. *)
Definition not_found_state (q : str) (e : editor) : editor :=
  set_message_type error (set_message (msg_not_found q) e).

(** What [search] for [q] may do to an editor [e] whose cursor is on [line]:
    the four outcomes, in the order in which the rows are examined. *)
Definition search_outcome (q : str) (e : editor) (line : str) (e' : editor) : Prop :=
  lines e' = lines e /\
  ( (** found on the origin row, after the cursor *)
    (exists c,
        leftmost_from q line (cursor_x e + 1) c /\
        cursor_y e' = cursor_y e /\ cursor_x e' = c /\
        message e' = msg_found q)
    \/
    (** found below the origin row *)
    (absent_from q line (cursor_x e + 1) /\
     exists r l c,
        cursor_y e < r < len (lines e) /\
        (forall r', cursor_y e < r' < r -> row_absent q (lines e) r') /\
        getitem (lines e) r = Ok l /\ leftmost_from q l 0 c /\
        cursor_y e' = r /\ cursor_x e' = c /\
        message e' = msg_found q)
    \/
    (** found above the origin row, after wrapping *)
    (absent_from q line (cursor_x e + 1) /\
     (forall r', cursor_y e < r' < len (lines e) -> row_absent q (lines e) r') /\
     exists r l c,
        0 <= r < cursor_y e /\
        (forall r', 0 <= r' < r -> row_absent q (lines e) r') /\
        getitem (lines e) r = Ok l /\ leftmost_from q l 0 c /\
        cursor_y e' = r /\ cursor_x e' = c /\
        message e' = msg_wrapped q)
    \/
    (** not found: the origin row is not examined again *)
    (absent_from q line (cursor_x e + 1) /\
     (forall r', 0 <= r' < len (lines e) -> r' <> cursor_y e ->
                 row_absent q (lines e) r') /\
     e' = not_found_state q e) ).

(** The buffer of scenario C, with the cursor at its start. *)
Definition foo_bar_foo : editor :=
  Editor None [lit "foo"; lit "bar"; lit "foo"] 0 0 0 0 false [] info.

(** A terminal of 24 rows and 80 columns, with no files and no input. *)
Definition quiet_world : world := World ∅ ∅ ∅ [] [] 24 80.

(** A two-line buffer with the cursor in the middle of its first line. *)
Definition hello_world : editor :=
  Editor None [lit "hello"; lit "world"] 0 2 0 0 false [] info.

(** The cursor invariant of the specification: at least one line, the row
    inside the buffer, the column inside the line or just after it. *)
Definition cursor_ok (e : editor) : Prop :=
  1 <= len (lines e) /\
  0 <= cursor_y e <= len (lines e) - 1 /\
  exists line, getitem (lines e) (cursor_y e) = Ok line /\
               0 <= cursor_x e <= len line.

(** [n] turns of the loop of [run], none of which leaves it: in each the
    screen is drawn, a key is read and its command returns. *)
Fixpoint turns (n : nat) (s : session) : option session :=
  match n with
  | O => Some s
  | S n' =>
      match draw (env s) (ed s), getch (env s) with
      | Ok _, Ok (key, w) =>
          match dispatch key (Session (ed s) (cut_buffer s) w) with
          | Ok (false, s') => turns n' s'
          | _ => None
          end
      | _, _ => None
      end
  end.

(** The editor started without a file name, and the keys still to come. *)
Definition fresh (ks : list Z) : session :=
  let w := World ∅ ∅ ∅ ks [] 24 80 in Session (init None w) [] w.

(** The key codes of a text typed at the keyboard. *)
Definition typing (s : string) : list Z := Z.of_N <$> lit s.

(** Following the specification of [save]: the lines with one line
    terminator between each pair of neighbours. *)
Fixpoint joined_lines (ls : list str) : str :=
  match ls with
  | [] => []
  | [l] => l
  | l :: rest => l ++ LF :: joined_lines rest
  end.

(** No character of [l] ends a line. *)
Definition no_linebreak (l : str) : Prop :=
  Forall (fun c => is_linebreak c = false) l.

(** Every character of [l] can be written as UTF-8: none is a surrogate. *)
Definition encodable (l : str) : Prop :=
  Forall (fun c => is_surrogate c = false) l.

(** The outcome is a value: nothing was raised and no input was missing. *)
Definition succeeds {A} (r : result A) : bool :=
  match r with Ok _ => true | _ => false end.

(** The outcome of drawing: a value, or the [ValueError] of a text that
    holds U+0000. *)
Definition shows {A} (r : result A) : Prop :=
  r = ValueError \/ exists a, r = Ok a.

(** Nothing the screen shows of the editor holds U+0000: not the file
    name, not the message, not a line. *)
Definition presentable (e : editor) : Prop :=
  has_nul (or_else (filename e) []) = false /\
  has_nul (message e) = false /\
  Forall (fun l => has_nul l = false) (lines e).



(** The file name [prompt_save_filename] returns when [t] is typed. *)
Definition prompted_name (t : str) (e : editor) : option str :=
  if truthy (strip t) then Some (strip t) else filename e.

(** A modified one-line buffer without a file name. *)
Definition unsaved : editor :=
  Editor None [lit "draft"] 0 5 0 0 true [] info.


(** The part of the cursor invariant that every command keeps: the row is
    inside the buffer and the column is not negative.  With [strict] the
    column is also bounded by the length of its line; [cursor_ok] is
    [positioned true]. *)
Definition positioned (strict : bool) (e : editor) : Prop :=
  0 <= cursor_y e /\ 0 <= cursor_x e /\
  exists line, getitem (lines e) (cursor_y e) = Ok line /\
               (strict = true -> cursor_x e <= len line).

(** The state reached by typing [ab], cutting the line, typing [abc] and
    pasting: the cursor column is past the end of its line. *)
Definition pasted : session :=
  Session (Editor None [lit "ab"; lit "abc"] 0 3 0 0 true (lit "Pasted line") info)
          (lit "ab") (World ∅ ∅ ∅ [] [] 24 80).

(** An outcome that is not an [IndexError] and whose editor, if there is
    one, is positioned. *)
Definition keeps {A} (b : bool) (editor_of : A -> editor) (r : result A) : Prop :=
  match r with
  | Ok a => positioned b (editor_of a)
  | IndexError => False
  | _ => True
  end.

(** What a command may do to the vertical offset of the viewport: leave it,
    set it to the cursor row, or increase it. *)
Definition scrolled (e e' : editor) : Prop :=
  offset_y e' = offset_y e \/ offset_y e' = cursor_y e' \/ offset_y e < offset_y e'.

(** What one turn of the loop may do: it leaves the loop only on Ctrl+X
    (24); it changes the lines only with the modified flag set afterwards;
    it only consumes keys; and it writes no file unless the key is Ctrl+X
    or Ctrl+O (15). *)
Definition dispatch_effects (key : Z) (s : session) (leave : bool) (s' : session)
  : Prop :=
  (leave = true -> key = 24) /\
  (lines (ed s') = lines (ed s) \/ modified (ed s') = true) /\
  suffix (keys (env s')) (keys (env s)) /\
  (key <> 24 -> key <> 15 -> files (env s') = files (env s)).

(** The buffer as one text: the lines with a line feed between
    neighbours, as [save_file] joins them. *)
Definition buffer_text (e : editor) : str := join [LF] (lines e).

(** The text of whole rows, each closed by a line feed. *)
Definition rows_text (rows : list str) : str :=
  concat ((fun l => l ++ [LF]) <$> rows).

(** The position of the cursor in [buffer_text]: the rows above it, each
    with its line feed, and the columns before it. *)
Definition cursor_offset (e : editor) : Z :=
  len (rows_text (slice_to (lines e) (cursor_y e))) + cursor_x e.

(** The key code is that of a printable character. *)
Definition printable (key : Z) : Prop := 32 <= key <= 126.

(** The characters typed with the keys [ks]. *)
Definition chars_of (ks : list Z) : str := Z.to_N <$> ks.

(** No line of the buffer and no line in the clipboard contains a
    line-break character. *)
Definition clean (s : session) : Prop :=
  Forall no_linebreak (lines (ed s)) /\ no_linebreak (cut_buffer s).
(** * Properties *)

(** ** Indexing and slicing *)

Section PyList.
Context {A : Type}.
Implicit Types (l : list A) (x v : A).

Lemma len_nonneg l : 0 <= len l.
Proof. unfold len. lia. Qed.

Lemma len_app l1 l2 : len (l1 ++ l2) = len l1 + len l2.
Proof. unfold len. rewrite length_app. lia. Qed.

Lemma len_cons x l : len (x :: l) = len l + 1.
Proof. unfold len. simpl. lia. Qed.

Lemma item_pos_front (n i : Z) :
  0 <= i < n -> item_pos n i = Some (Z.to_nat i).
Proof.
  intros [H0 Hn]. unfold item_pos.
  destruct (Z.leb_spec 0 i); [|lia]. destruct (Z.ltb_spec i n); [|lia]. done.
Qed.

Lemma item_pos_front_inv (n i : Z) (k : nat) :
  0 <= i -> item_pos n i = Some k -> k = Z.to_nat i /\ i < n.
Proof.
  intros H0. unfold item_pos.
  destruct (Z.leb_spec 0 i); [|lia].
  destruct (Z.ltb_spec i n); simpl.
  - intros [= <-]. done.
  - destruct (Z.ltb_spec i 0); [lia|]. rewrite andb_false_r. done.
Qed.

Lemma getitem_middle l1 x l2 : getitem (l1 ++ x :: l2) (len l1) = Ok x.
Proof.
  unfold getitem. rewrite item_pos_front.
  - unfold len. rewrite Nat2Z.id, list_lookup_middle; done.
  - rewrite len_app, len_cons. pose proof (len_nonneg l1). pose proof (len_nonneg l2). lia.
Qed.

Lemma setitem_middle l1 x l2 v :
  setitem (l1 ++ x :: l2) (len l1) v = Ok (l1 ++ v :: l2).
Proof.
  unfold setitem. rewrite item_pos_front.
  - unfold len. rewrite Nat2Z.id, insert_app_r_alt, Nat.sub_diag; done.
  - rewrite len_app, len_cons. pose proof (len_nonneg l1). pose proof (len_nonneg l2). lia.
Qed.

Lemma pop_middle l1 x l2 : pop (l1 ++ x :: l2) (len l1) = Ok (x, l1 ++ l2).
Proof.
  unfold pop. rewrite item_pos_front.
  - unfold len. rewrite Nat2Z.id, list_lookup_middle, delete_middle; done.
  - rewrite len_app, len_cons. pose proof (len_nonneg l1). pose proof (len_nonneg l2). lia.
Qed.

(** A successful access at a non-negative index splits the list there. *)
Lemma getitem_split l (i : Z) x :
  0 <= i -> getitem l i = Ok x ->
  exists l1 l2, l = l1 ++ x :: l2 /\ len l1 = i.
Proof.
  intros H0. unfold getitem.
  destruct (item_pos (len l) i) as [k|] eqn:Hk; [|done].
  apply item_pos_front_inv in Hk as [-> Hlt]; [|done].
  destruct (l !! Z.to_nat i) as [y|] eqn:Hy; [|done].
  intros [= ->].
  exists (take (Z.to_nat i) l), (drop (S (Z.to_nat i)) l). split.
  - symmetry. by apply take_drop_middle.
  - unfold len in *. rewrite length_take. lia.
Qed.

Lemma getitem_lt l (i : Z) x : 0 <= i -> getitem l i = Ok x -> i < len l.
Proof.
  intros H0 Hx. destruct (getitem_split _ _ _ H0 Hx) as (l1 & l2 & -> & <-).
  rewrite len_app, len_cons. pose proof (len_nonneg l2). lia.
Qed.

Lemma getitem_in_range l (i : Z) :
  0 <= i < len l -> exists x, getitem l i = Ok x.
Proof.
  intros Hi. unfold getitem. rewrite item_pos_front by done.
  destruct (lookup_lt_is_Some_2 l (Z.to_nat i)) as [x ->]; [unfold len in Hi; lia|].
  by exists x.
Qed.

Lemma clip_in (n i : Z) : 0 <= i <= n -> clip n i = Z.to_nat i.
Proof.
  intros [H0 Hn]. unfold clip. destruct (Z.ltb_spec i 0); [lia|].
  by rewrite Z.min_l.
Qed.

Lemma clip_over (n i : Z) : 0 <= n <= i -> clip n i = Z.to_nat n.
Proof.
  intros [H0 Hn]. unfold clip. destruct (Z.ltb_spec i 0); [lia|].
  by rewrite Z.min_r.
Qed.

(** [l[:c] + l[c:]] is [l], whatever [c] is. *)
Lemma slice_to_from l (c : Z) : slice_to l c ++ slice_from l c = l.
Proof. unfold slice_to, slice_from. apply take_drop. Qed.

Lemma len_slice_to l (c : Z) : 0 <= c <= len l -> len (slice_to l c) = c.
Proof.
  intros Hc. unfold slice_to. rewrite clip_in by done.
  unfold len in *. rewrite length_take. lia.
Qed.

Lemma list_insert_middle l1 l2 x :
  list_insert (l1 ++ l2) (len l1) x = l1 ++ x :: l2.
Proof.
  unfold list_insert. rewrite clip_in.
  - unfold len. rewrite Nat2Z.id, take_app_length, drop_app_length. done.
  - rewrite len_app. pose proof (len_nonneg l1). pose proof (len_nonneg l2). lia.
Qed.

End PyList.

(** ** The viewport only moves the offsets *)

Lemma adjust_scroll_frame (w : world) (e : editor) :
  filename (adjust_scroll w e) = filename e /\
  lines (adjust_scroll w e) = lines e /\
  cursor_y (adjust_scroll w e) = cursor_y e /\
  cursor_x (adjust_scroll w e) = cursor_x e /\
  modified (adjust_scroll w e) = modified e /\
  message (adjust_scroll w e) = message e /\
  message_type (adjust_scroll w e) = message_type e.
Proof.
  unfold adjust_scroll, get_dimensions.
  repeat match goal with |- context [if ?b then _ else _] => destruct b end;
    simpl; done.
Qed.

Lemma adjust_scroll_lines w e : lines (adjust_scroll w e) = lines e.
Proof. apply adjust_scroll_frame. Qed.
Lemma adjust_scroll_cursor_y w e : cursor_y (adjust_scroll w e) = cursor_y e.
Proof. apply adjust_scroll_frame. Qed.
Lemma adjust_scroll_cursor_x w e : cursor_x (adjust_scroll w e) = cursor_x e.
Proof. apply adjust_scroll_frame. Qed.
Lemma adjust_scroll_modified w e : modified (adjust_scroll w e) = modified e.
Proof. apply adjust_scroll_frame. Qed.
Lemma adjust_scroll_message w e : message (adjust_scroll w e) = message e.
Proof. apply adjust_scroll_frame. Qed.

(** ** Enter followed by Backspace *)

(** C7: with the cursor at a valid position [(row, col)], [insert_newline]
    succeeds, adds one line and puts the cursor at [(row + 1, 0)];
    [backspace] from there succeeds, gives back the original lines and puts
    the cursor back at [(row, col)]. *)
Theorem split_then_backspace (w : world) (e : editor) (line : str) :
  0 <= cursor_y e ->
  getitem (lines e) (cursor_y e) = Ok line ->
  0 <= cursor_x e <= len line ->
  exists e1 e2,
    insert_newline w e = Ok e1 /\
    cursor_y e1 = cursor_y e + 1 /\ cursor_x e1 = 0 /\
    len (lines e1) = len (lines e) + 1 /\
    getitem (lines e1) (cursor_y e) = Ok (slice_to line (cursor_x e)) /\
    getitem (lines e1) (cursor_y e + 1) = Ok (slice_from line (cursor_x e)) /\
    backspace w e1 = Ok e2 /\
    lines e2 = lines e /\
    cursor_y e2 = cursor_y e /\ cursor_x e2 = cursor_x e.
Proof.
  intros Hy Hline Hx.
  destruct (getitem_split _ _ _ Hy Hline) as (l1 & l2 & Hl & Hlen).
  destruct e as [fn ls cy cx oy ox md msg mt]; simpl in *. subst ls cy.
  set (a := slice_to line cx). set (b := slice_from line cx).
  assert (Hab : a ++ b = line) by apply slice_to_from.
  assert (Ha : len a = cx) by (by apply len_slice_to).
  assert (Hl1 : len (l1 ++ [a]) = len l1 + 1) by (rewrite len_app; done).
  assert (Hins : list_insert (l1 ++ a :: l2) (len l1 + 1) b = l1 ++ a :: b :: l2).
  { replace (l1 ++ a :: l2) with ((l1 ++ [a]) ++ l2) by (by rewrite <- app_assoc).
    rewrite <- Hl1, list_insert_middle, <- app_assoc. done. }
  eexists _, _. split.
  { unfold insert_newline; simpl. rewrite Hline; simpl.
    rewrite setitem_middle; simpl. fold a b. rewrite Hins. reflexivity. }
  rewrite adjust_scroll_cursor_y, adjust_scroll_cursor_x, adjust_scroll_lines; simpl.
  split; [done|]. split; [done|].
  split; [rewrite !len_app, !len_cons; lia|].
  split; [apply getitem_middle|].
  split.
  { replace (l1 ++ a :: b :: l2) with ((l1 ++ [a]) ++ b :: l2) by (by rewrite <- app_assoc).
    rewrite <- Hl1. apply getitem_middle. }
  split.
  { unfold backspace.
    rewrite adjust_scroll_cursor_y, adjust_scroll_cursor_x, adjust_scroll_lines; simpl.
    pose proof (len_nonneg l1).
    destruct (Z.ltb_spec 0 (len l1 + 1)); [|lia].
    replace (len l1 + 1 - 1) with (len l1) by lia.
    rewrite getitem_middle; simpl.
    replace (l1 ++ a :: b :: l2) with ((l1 ++ [a]) ++ b :: l2) at 1 by (by rewrite <- app_assoc).
    rewrite <- Hl1, getitem_middle; simpl.
    rewrite setitem_middle; simpl.
    replace (l1 ++ (a ++ b) :: b :: l2) with ((l1 ++ [a ++ b]) ++ b :: l2) by (by rewrite <- app_assoc).
    replace (len (l1 ++ [a])) with (len (l1 ++ [a ++ b])) by (rewrite !len_app; done).
    rewrite pop_middle; simpl. reflexivity. }
  rewrite adjust_scroll_cursor_y, adjust_scroll_cursor_x, adjust_scroll_lines; simpl.
  rewrite <- app_assoc, Hab. simpl. split; [done|]. split; [lia|done].
Qed.

Lemma split_then_backspace_witness :
  exists e1 e2,
    insert_newline quiet_world hello_world = Ok e1 /\
    cursor_y e1 = cursor_y hello_world + 1 /\ cursor_x e1 = 0 /\
    len (lines e1) = len (lines hello_world) + 1 /\
    getitem (lines e1) (cursor_y hello_world)
    = Ok (slice_to (lit "hello") (cursor_x hello_world)) /\
    getitem (lines e1) (cursor_y hello_world + 1)
    = Ok (slice_from (lit "hello") (cursor_x hello_world)) /\
    backspace quiet_world e1 = Ok e2 /\
    lines e2 = lines hello_world /\
    cursor_y e2 = cursor_y hello_world /\ cursor_x e2 = cursor_x hello_world.
Proof.
  apply (split_then_backspace quiet_world hello_world (lit "hello")).
  - by vm_compute.
  - reflexivity.
  - split; by vm_compute.
Defined.

(** ** Substring search *)

Lemma startswith_spec (s q : str) :
  startswith s q = true <-> exists post, s = q ++ post.
Proof.
  revert s. induction q as [|c q IH]; intros s; simpl.
  - split; [intros _; by exists s | intros _; by destruct s].
  - destruct s as [|d s]; simpl.
    + split; [done | intros [post [=]]].
    + rewrite andb_true_iff, N.eqb_eq, IH. split.
      * intros [-> [post ->]]. by exists post.
      * intros [post [= -> ->]]. split; [done | by exists post].
Qed.

Lemma occurs_at_nonneg (q s : str) (i : Z) : occurs_at q s i -> 0 <= i.
Proof. intros (pre & post & _ & <-). apply len_nonneg. Qed.

Lemma occurs_at_0 (q s : str) : occurs_at q s 0 <-> startswith s q = true.
Proof.
  rewrite startswith_spec. split.
  - intros (pre & post & -> & Hlen). destruct pre; [by exists post|].
    rewrite len_cons in Hlen. pose proof (len_nonneg pre). lia.
  - intros [post ->]. by exists [], post.
Qed.

Lemma occurs_at_cons (q : str) (c : N) (s : str) (i : Z) :
  0 <= i -> occurs_at q (c :: s) (i + 1) <-> occurs_at q s i.
Proof.
  intros Hi. split.
  - intros (pre & post & Heq & Hlen). destruct pre as [|d pre].
    + unfold len in Hlen; simpl in Hlen. lia.
    + injection Heq as -> ->. rewrite len_cons in Hlen.
      exists pre, post. split; [done | lia].
  - intros (pre & post & -> & <-). exists (c :: pre), post.
    split; [done | by rewrite len_cons].
Qed.

Lemma find_pos_unfold (s q : str) :
  find_pos s q =
  if startswith s q then Some 0%nat
  else match s with [] => None | _ :: s' => S <$> find_pos s' q end.
Proof. by destruct s. Qed.

Lemma find_pos_spec (s q : str) :
  match find_pos s q with
  | Some i => leftmost_from q s 0 (Z.of_nat i)
  | None => absent_from q s 0
  end.
Proof.
  induction s as [|c s IH]; rewrite find_pos_unfold.
  - destruct (startswith [] q) eqn:Hsw.
    + split; [done|]. split; [by apply occurs_at_0 | intros j; lia].
    + intros j Hj Hocc. destruct Hocc as (pre & post & Heq & Hlen).
      destruct pre; [|done]. apply not_true_iff_false in Hsw. apply Hsw.
      apply occurs_at_0. by exists [], post.
  - destruct (startswith (c :: s) q) eqn:Hsw.
    + split; [done|]. split; [by apply occurs_at_0 | intros j; lia].
    + apply not_true_iff_false in Hsw. rewrite <- occurs_at_0 in Hsw.
      destruct (find_pos s q) as [i|]; simpl.
      * destruct IH as (_ & Hocc & Hmin). split; [lia|]. split.
        -- rewrite Nat2Z.inj_succ. unfold Z.succ.
           apply occurs_at_cons; [lia | done].
        -- intros j Hj Hj'. destruct (decide (j = 0)) as [->|]; [done|].
           replace j with ((j - 1) + 1) in Hj' by lia.
           apply occurs_at_cons in Hj'; [|lia]. apply (Hmin (j - 1)); [lia | done].
      * intros j Hj Hj'. destruct (decide (j = 0)) as [->|]; [done|].
        replace j with ((j - 1) + 1) in Hj' by lia.
        apply occurs_at_cons in Hj'; [|lia]. apply (IH (j - 1)); [lia | done].
Qed.

Lemma find_found (s q : str) :
  find s q <> -1 -> leftmost_from q s 0 (find s q).
Proof.
  unfold find. pose proof (find_pos_spec s q) as H.
  destruct (find_pos s q); [done | by intros []].
Qed.

Lemma find_absent (s q : str) : find s q = -1 -> absent_from q s 0.
Proof.
  unfold find. pose proof (find_pos_spec s q) as H.
  destruct (find_pos s q); [lia | done].
Qed.

Lemma find_absent_inv (s q : str) : absent_from q s 0 -> find s q = -1.
Proof.
  intros Habs. destruct (decide (find s q = -1)) as [|Hne]; [done|].
  apply find_found in Hne as (H0 & Hocc & _). by apply Habs in Hocc.
Qed.

(** An occurrence in [line] at or after [a] is an occurrence in [line[a:]]. *)
Lemma occurs_at_slice_from (q line : str) (a j : Z) :
  0 <= a <= j -> occurs_at q line j -> occurs_at q (slice_from line a) (j - a).
Proof.
  intros Ha (pre & post & -> & Hlen). unfold slice_from.
  rewrite clip_in.
  2:{ rewrite len_app. pose proof (len_nonneg (q ++ post)). lia. }
  exists (drop (Z.to_nat a) pre), post. split.
  - rewrite drop_app_le; [done | unfold len in Hlen; lia].
  - unfold len in *. rewrite length_drop. lia.
Qed.

(** An occurrence in [line[a:]] is an occurrence in [line], [a] columns on. *)
Lemma occurs_at_slice_from_inv (q line : str) (a i : Z) :
  truthy q = true -> 0 <= a ->
  occurs_at q (slice_from line a) i -> occurs_at q line (a + i).
Proof.
  intros Hq Ha (pre & post & Heq & Hlen). unfold slice_from in Heq.
  destruct (Z.le_gt_cases a (len line)) as [Hle|Hgt].
  - rewrite clip_in in Heq by done.
    exists (take (Z.to_nat a) line ++ pre), post. split.
    + rewrite <- app_assoc, <- Heq, take_drop. done.
    + rewrite len_app. unfold len in *. rewrite length_take. lia.
  - rewrite clip_over in Heq by (pose proof (len_nonneg line); lia).
    rewrite drop_ge in Heq by (unfold len; lia).
    destruct pre; [|done]. destruct q; done.
Qed.

Lemma absent_slice_from (q line : str) (a : Z) :
  0 <= a -> absent_from q (slice_from line a) 0 -> absent_from q line a.
Proof.
  intros Ha Habs j Hj Hocc. apply (Habs (j - a)); [lia|].
  by apply occurs_at_slice_from.
Qed.

Lemma absent_slice_from_inv (q line : str) (a : Z) :
  truthy q = true -> 0 <= a ->
  absent_from q line a -> absent_from q (slice_from line a) 0.
Proof.
  intros Hq Ha Habs j Hj Hocc. apply (Habs (a + j)); [lia|].
  by apply occurs_at_slice_from_inv.
Qed.

Lemma leftmost_slice_from (q line : str) (a p : Z) :
  truthy q = true -> 0 <= a ->
  leftmost_from q (slice_from line a) 0 p -> leftmost_from q line a (a + p).
Proof.
  intros Hq Ha (Hp & Hocc & Hmin). split; [lia|]. split.
  - by apply occurs_at_slice_from_inv.
  - intros j Hj Hj'. apply (Hmin (j - a)); [lia|].
    apply occurs_at_slice_from; [lia | done].
Qed.

(** The loops of [search] over a range of rows inside the buffer: they
    raise nothing, report the first row with an occurrence and its leftmost
    column, and report nothing only if no row of the range has one. *)
Lemma search_rows_spec (ls : list str) (q : str) (n : nat) (a : Z) :
  0 <= a -> a + Z.of_nat n <= len ls ->
  match search_rows ls q (seqZ a (Z.of_nat n)) with
  | Ok None => forall r, a <= r < a + Z.of_nat n -> row_absent q ls r
  | Ok (Some (y, pos)) =>
      a <= y < a + Z.of_nat n /\
      (forall r, a <= r < y -> row_absent q ls r) /\
      exists l, getitem ls y = Ok l /\ leftmost_from q l 0 pos
  | _ => False
  end.
Proof.
  revert a. induction n as [|n IH]; intros a Ha Hb.
  - simpl. intros r Hr. lia.
  - rewrite seqZ_cons by lia. simpl.
    destruct (getitem_in_range ls a) as [l Hl]; [lia|]. rewrite Hl; simpl.
    destruct (Z.eqb_spec (find l q) (-1)) as [Heq|Hne]; simpl.
    + replace (Z.pred (Z.of_nat (S n))) with (Z.of_nat n) by lia.
      specialize (IH (Z.succ a)).
      destruct (search_rows ls q (seqZ (Z.succ a) (Z.of_nat n))) as [[[y pos]|]| | | |].
      * destruct IH as (Hy & Hmin & Hfound); [lia..|]. split; [lia|]. split; [|done].
        intros r Hr. destruct (decide (r = a)) as [->|].
        -- intros l' Hl'. rewrite Hl in Hl'. injection Hl' as <-. by apply find_absent.
        -- apply Hmin. lia.
      * intros r Hr. destruct (decide (r = a)) as [->|].
        -- intros l' Hl'. rewrite Hl in Hl'. injection Hl' as <-. by apply find_absent.
        -- apply IH; lia.
      * apply IH; lia.
      * apply IH; lia.
      * apply IH; lia.
      * apply IH; lia.
    + split; [lia|]. split; [intros r; lia|]. exists l. split; [done|].
      by apply find_found.
Qed.

Lemma search_rows_range (ls : list str) (q : str) (a b : Z) :
  0 <= a -> b <= len ls ->
  match search_rows ls q (range a b) with
  | Ok None => forall r, a <= r < b -> row_absent q ls r
  | Ok (Some (y, pos)) =>
      a <= y < b /\
      (forall r, a <= r < y -> row_absent q ls r) /\
      exists l, getitem ls y = Ok l /\ leftmost_from q l 0 pos
  | _ => False
  end.
Proof.
  intros Ha Hb. unfold range.
  destruct (Z.le_gt_cases b a) as [Hle|Hgt].
  - rewrite seqZ_nil by lia. simpl. intros r Hr. lia.
  - pose proof (search_rows_spec ls q (Z.to_nat (b - a)) a Ha) as H.
    rewrite Z2Nat.id in H by lia.
    replace (a + (b - a)) with b in H by lia. by apply H.
Qed.

(** The four outcomes of [search], for a non-empty query and a cursor on a
    row of the buffer. *)
Lemma search_cases (w : world) (e : editor) (q line : str) :
  truthy q = true ->
  0 <= cursor_y e ->
  getitem (lines e) (cursor_y e) = Ok line ->
  0 <= cursor_x e ->
  exists e', search q w e = Ok e' /\ search_outcome q e line e'.
Proof.
  intros Hq Hy Hline Hx. unfold search. rewrite Hq, Hline; simpl.
  assert (Hlen : cursor_y e < len (lines e)).
  { destruct (getitem_split _ _ _ Hy Hline) as (l1 & l2 & -> & <-).
    rewrite len_app, len_cons. pose proof (len_nonneg l2). lia. }
  destruct (Z.eqb_spec (find (slice_from line (cursor_x e + 1)) q) (-1)) as [Habs|Hfound]; simpl.
  2:{ eexists. split; [reflexivity|]. split; [by rewrite adjust_scroll_lines|].
      left. eexists. rewrite adjust_scroll_cursor_y, adjust_scroll_cursor_x, adjust_scroll_message.
      simpl. split; [|done]. apply leftmost_slice_from; [done | lia |].
      by apply find_found. }
  apply find_absent, absent_slice_from in Habs; [|lia].
  pose proof (search_rows_range (lines e) q (cursor_y e + 1) (len (lines e))) as Hfwd.
  destruct (search_rows (lines e) q (range (cursor_y e + 1) (len (lines e))))
    as [[[y pos]|]| | | |]; simpl; try (exfalso; apply Hfwd; lia).
  { destruct Hfwd as (Hyr & Hmin & l & Hl & Hleft); [lia..|].
    eexists. split; [reflexivity|]. split; [by rewrite adjust_scroll_lines|].
    right; left. split; [done|]. exists y, l, pos.
    rewrite adjust_scroll_cursor_y, adjust_scroll_cursor_x, adjust_scroll_message. simpl.
    split; [lia|]. split; [intros r' Hr'; apply Hmin; lia|]. done. }
  pose proof (search_rows_range (lines e) q 0 (cursor_y e)) as Hwrap.
  destruct (search_rows (lines e) q (range 0 (cursor_y e)))
    as [[[y pos]|]| | | |]; simpl; try (exfalso; apply Hwrap; lia).
  { destruct Hwrap as (Hyr & Hmin & l & Hl & Hleft); [lia..|].
    eexists. split; [reflexivity|]. split; [by rewrite adjust_scroll_lines|].
    right; right; left. split; [done|]. split.
    { intros r' Hr'. apply Hfwd; lia. }
    exists y, l, pos.
    rewrite adjust_scroll_cursor_y, adjust_scroll_cursor_x, adjust_scroll_message. simpl.
    split; [lia|]. done. }
  eexists. split; [reflexivity|]. split; [done|].
  right; right; right. split; [done|]. split; [|done].
  intros r' Hr' Hne. destruct (Z.lt_total r' (cursor_y e)) as [Hlt|[Heq|Hgt]]; [|done|].
  - apply Hwrap; lia.
  - apply Hfwd; lia.
Qed.

(** When the query occurs neither after the cursor on its row nor on any
    other row, [search] only reports that. *)
Lemma search_not_found_eq (w : world) (e : editor) (q line : str) :
  truthy q = true ->
  0 <= cursor_y e ->
  getitem (lines e) (cursor_y e) = Ok line ->
  0 <= cursor_x e ->
  absent_from q line (cursor_x e + 1) ->
  (forall r, 0 <= r < len (lines e) -> r <> cursor_y e -> row_absent q (lines e) r) ->
  search q w e = Ok (not_found_state q e).
Proof.
  intros Hq Hy Hline Hx Habs Hrows.
  pose proof (getitem_lt _ _ _ Hy Hline) as Hlen.
  destruct (search_cases w e q line Hq Hy Hline Hx) as (e' & -> & _ & Hcase).
  destruct Hcase as [(c & (Hc & Hocc & _) & _)
                    |[(_ & r & l & c & Hr & _ & Hl & (_ & Hocc & _) & _)
                    |[(_ & _ & r & l & c & Hr & _ & Hl & (_ & Hocc & _) & _)
                    |(_ & _ & ->)]]].
  - by apply Habs in Hocc.
  - exfalso. assert (Hin : 0 <= r < len (lines e)) by lia.
    assert (Hne : r <> cursor_y e) by lia.
    apply (Hrows r Hin Hne l Hl c); [by eapply occurs_at_nonneg | done].
  - exfalso. assert (Hin : 0 <= r < len (lines e)) by lia.
    assert (Hne : r <> cursor_y e) by lia.
    apply (Hrows r Hin Hne l Hl c); [by eapply occurs_at_nonneg | done].
  - done.
Qed.

(** C3: for a non-empty query and a cursor on a row of the buffer, [search]
    looks on the origin row from the column after the cursor, then at the
    rows below in order, then at the rows above in order and reports such a
    hit as wrapped, and never looks at the origin row again.  So a query
    whose only occurrence is on the origin row at or before the cursor is
    not found; and in the buffer [foo, bar, foo] with the cursor at (0, 0),
    the search for [foo] ends at (2, 0) as a plain find. *)
Theorem search_order :
  (forall (w : world) (e : editor) (q line : str),
      truthy q = true ->
      0 <= cursor_y e ->
      getitem (lines e) (cursor_y e) = Ok line ->
      0 <= cursor_x e ->
      exists e', search q w e = Ok e' /\ search_outcome q e line e') /\
  (forall (w : world) (e : editor) (q line : str) (c0 : Z),
      truthy q = true ->
      0 <= cursor_y e ->
      getitem (lines e) (cursor_y e) = Ok line ->
      0 <= cursor_x e ->
      occurs_at q line c0 -> c0 <= cursor_x e ->
      (forall c, occurs_at q line c -> c = c0) ->
      (forall r, 0 <= r < len (lines e) -> r <> cursor_y e ->
                 row_absent q (lines e) r) ->
      search q w e = Ok (not_found_state q e)) /\
  (forall w : world,
      exists e', search (lit "foo") w foo_bar_foo = Ok e' /\
                 cursor_y e' = 2 /\ cursor_x e' = 0 /\
                 message e' = msg_found (lit "foo") /\
                 message e' <> msg_wrapped (lit "foo")).
Proof.
  split; [|split].
  - intros w e q line. apply search_cases.
  - intros w e q line c0 Hq Hy Hline Hx Hocc Hc0 Honly Hrows.
    apply (search_not_found_eq w e q line); try done.
    intros j Hj Hocc'. apply Honly in Hocc'. lia.
  - intros w. eexists. split; [reflexivity|].
    rewrite adjust_scroll_cursor_y, adjust_scroll_cursor_x, adjust_scroll_message.
    split; [done|]. split; [done|]. split; [done|]. by vm_compute.
Qed.

Lemma search_order_witness :
  exists e', search (lit "l") quiet_world hello_world = Ok e' /\
             search_outcome (lit "l") hello_world (lit "hello") e'.
Proof.
  apply (proj1 search_order quiet_world hello_world (lit "l") (lit "hello")).
  - reflexivity.
  - by vm_compute.
  - reflexivity.
  - by vm_compute.
Defined.

(** C9: a search for a non-empty query that occurs neither after the cursor
    on its row nor on any other row leaves the lines, the cursor, the scroll
    offsets, the modified flag and the file name as they are, and sets the
    message to the not-found text, of kind error. *)
Theorem search_not_found_frame (w : world) (e : editor) (q line : str) :
  truthy q = true ->
  0 <= cursor_y e ->
  getitem (lines e) (cursor_y e) = Ok line ->
  0 <= cursor_x e ->
  absent_from q line (cursor_x e + 1) ->
  (forall r, 0 <= r < len (lines e) -> r <> cursor_y e -> row_absent q (lines e) r) ->
  exists e',
    search q w e = Ok e' /\
    lines e' = lines e /\
    cursor_y e' = cursor_y e /\ cursor_x e' = cursor_x e /\
    offset_y e' = offset_y e /\ offset_x e' = offset_x e /\
    modified e' = modified e /\ filename e' = filename e /\
    message e' = msg_not_found q /\ message_type e' = error.
Proof.
  intros Hq Hy Hline Hx Habs Hrows. exists (not_found_state q e).
  split; [by apply (search_not_found_eq w e q line)|]. by repeat split.
Qed.

Lemma search_not_found_frame_witness :
  exists e',
    search (lit "zz") quiet_world hello_world = Ok e' /\
    lines e' = lines hello_world /\
    cursor_y e' = cursor_y hello_world /\ cursor_x e' = cursor_x hello_world /\
    offset_y e' = offset_y hello_world /\ offset_x e' = offset_x hello_world /\
    modified e' = modified hello_world /\ filename e' = filename hello_world /\
    message e' = msg_not_found (lit "zz") /\ message_type e' = error.
Proof.
  apply (search_not_found_frame quiet_world hello_world (lit "zz") (lit "hello")).
  - reflexivity.
  - by vm_compute.
  - reflexivity.
  - by vm_compute.
  - intros j Hj Hocc.
    apply (find_absent (lit "hello") (lit "zz") eq_refl j); [|done].
    by eapply occurs_at_nonneg.
  - intros r Hr Hne l Hl. change (len (lines hello_world)) with 2 in Hr.
    change (cursor_y hello_world) with 0 in Hne.
    assert (r = 1) as -> by lia. injection Hl as <-.
    apply find_absent. reflexivity.
Defined.

(** ** States of the command loop *)

Lemma reachable_turns (n : nat) (s s' : session) :
  reachable s -> turns n s = Some s' -> reachable s'.
Proof.
  revert s. induction n as [|n IH]; intros s Hs; simpl.
  - by intros [= <-].
  - destruct (draw (env s) (ed s)); [|done..].
    destruct (getch (env s)) as [[key w]| | | |] eqn:Hkey; [|done..].
    destruct (dispatch key (Session (ed s) (cut_buffer s) w))
      as [[[] s1]| | | |] eqn:Hd; [done| |done..].
    apply IH. by eapply reach_key.
Qed.

(** C1: the cursor invariant does not hold in every reachable state.  Type
    [ab], cut the line, type [abc], paste: the buffer is [ab, abc] and the
    cursor is at row 0, column 3, past the end of the pasted line [ab]. *)
Theorem paste_breaks_cursor_invariant :
  exists s,
    turns 7 (fresh (typing "ab" ++ [11] ++ typing "abc" ++ [21])) = Some s /\
    reachable s /\
    lines (ed s) = [lit "ab"; lit "abc"] /\
    cursor_y (ed s) = 0 /\ cursor_x (ed s) = 3 /\
    ~ cursor_ok (ed s).
Proof.
  set (ks := typing "ab" ++ [11] ++ typing "abc" ++ [21]).
  eexists. split; [vm_compute; reflexivity|]. split.
  - apply (reachable_turns 7 (fresh ks)).
    + exact (reach_start None (World ∅ ∅ ∅ ks [] 24 80)).
    + vm_compute. reflexivity.
  - simpl. split; [by vm_compute|]. split; [done|]. split; [done|].
    intros (_ & _ & line & Hline & Hx). vm_compute in Hline.
    injection Hline as <-. vm_compute in Hx. destruct Hx as [_ Hx]. by apply Hx.
Qed.

(** ** Inserting text *)

(** [insert_char] of [atomo.py], with the cursor at a valid position:
    the text is spliced in at the column, the modified flag is set, the
    message is cleared, and the column advances by one. *)
Lemma insert_char_spec (text : str) (w : world) (e : editor) (line : str) :
  0 <= cursor_y e ->
  getitem (lines e) (cursor_y e) = Ok line ->
  exists e',
    insert_char text w e = Ok e' /\
    setitem (lines e) (cursor_y e)
      (slice_to line (cursor_x e) ++ text ++ slice_from line (cursor_x e))
    = Ok (lines e') /\
    modified e' = true /\ message e' = [] /\
    cursor_y e' = cursor_y e /\ cursor_x e' = cursor_x e + 1.
Proof.
  intros Hy Hline. unfold insert_char. rewrite Hline; simpl.
  destruct (getitem_split _ _ _ Hy Hline) as (l1 & l2 & Hl & Hlen).
  rewrite Hl, <- Hlen, setitem_middle; simpl.
  eexists. split; [reflexivity|].
  rewrite adjust_scroll_lines, adjust_scroll_modified, adjust_scroll_message,
    adjust_scroll_cursor_y, adjust_scroll_cursor_x. simpl.
  by rewrite Hlen.
Qed.

(** [insert_char] of [atomo_commentato.py]: the same splice, and the column
    advances by the length of the text. *)
Lemma commentato_insert_char_spec (text : str) (w : world) (e : editor) (line : str) :
  0 <= cursor_y e ->
  getitem (lines e) (cursor_y e) = Ok line ->
  exists e',
    Commentato.insert_char text w e = Ok e' /\
    setitem (lines e) (cursor_y e)
      (slice_to line (cursor_x e) ++ text ++ slice_from line (cursor_x e))
    = Ok (lines e') /\
    modified e' = true /\
    cursor_y e' = cursor_y e /\ cursor_x e' = cursor_x e + len text.
Proof.
  intros Hy Hline. unfold Commentato.insert_char. rewrite Hline; simpl.
  destruct (getitem_split _ _ _ Hy Hline) as (l1 & l2 & Hl & Hlen).
  rewrite Hl, <- Hlen, setitem_middle; simpl.
  eexists. split; [reflexivity|].
  rewrite adjust_scroll_lines, adjust_scroll_modified,
    adjust_scroll_cursor_y, adjust_scroll_cursor_x. simpl.
  by rewrite Hlen.
Qed.

(** C2: in [atomo.py] the column does not advance by the length of the
    inserted text.  The Tab key in the empty buffer inserts four spaces at
    column 0 and sets the modified flag, but leaves the cursor at column 1,
    not 4. *)
Theorem tab_advances_one_column (w : world) :
  exists e',
    dispatch 9 (Session (init None w) [] w) = Ok (false, Session e' [] w) /\
    lines e' = [lit "    "] /\
    modified e' = true /\
    cursor_x e' = 1 /\
    cursor_x e' <> cursor_x (init None w) + len (lit "    ").
Proof.
  eexists. split; [reflexivity|].
  rewrite adjust_scroll_lines, adjust_scroll_modified, adjust_scroll_cursor_x.
  by vm_compute.
Qed.

(** ** Status message *)

(** C4: not every cursor motion clears the status message.  The Home key
    and Ctrl+A put the cursor at column 0 and leave the message as it was;
    after cutting a line and pressing Home the message still reads
    [Cut line]. *)
Theorem home_keeps_message :
  (forall (w : world) (e : editor) (cut : str),
      exists e',
        dispatch KEY_HOME (Session e cut w) = Ok (false, Session e' cut w) /\
        cursor_x e' = 0 /\ message e' = message e) /\
  (forall (w : world) (e : editor) (cut : str),
      exists e',
        dispatch 1 (Session e cut w) = Ok (false, Session e' cut w) /\
        cursor_x e' = 0 /\ message e' = message e) /\
  (exists s,
      turns 2 (fresh [11; KEY_HOME]) = Some s /\
      message (ed s) = lit "Cut line").
Proof.
  split; [|split].
  - intros w e cut. eexists. split; [reflexivity|].
    by rewrite adjust_scroll_cursor_x, adjust_scroll_message.
  - intros w e cut. eexists. split; [reflexivity|].
    by rewrite adjust_scroll_cursor_x, adjust_scroll_message.
  - eexists. split; [vm_compute; reflexivity|]. reflexivity.
Qed.

(** ** Saving *)

(** C10: [save_file] called without a file name, for a buffer that has
    none, returns [False] and changes neither the editor (message, modified
    flag, lines and cursor included) nor the world, so nothing is written. *)
Theorem save_without_filename (fname : option str) (e : editor) (w : world) :
  truthy_opt fname = false ->
  truthy_opt (filename e) = false ->
  save_file fname e w = (false, e, w).
Proof.
  intros Harg Hname. unfold save_file. rewrite Harg.
  destruct (filename e) as [[|c fn]|]; done.
Qed.

Lemma save_without_filename_witness :
  save_file None hello_world quiet_world = (false, hello_world, quiet_world).
Proof.
  apply (save_without_filename None hello_world quiet_world); reflexivity.
Defined.

Lemma getitem_last {A} (l : list A) (x : A) :
  last l = Some x -> getitem l (-1) = Ok x.
Proof.
  intros Hlast. rewrite last_lookup in Hlast.
  assert (Hlen : (0 < length l)%nat) by (destruct l; [done | simpl; lia]).
  unfold getitem, item_pos. simpl.
  destruct (Z.leb_spec (- len l) (-1)) as [_|Hbad]; [|unfold len in Hbad; lia].
  simpl. replace (Z.to_nat (-1 + len l)) with (pred (length l)) by (unfold len; lia).
  by rewrite Hlast.
Qed.

Lemma final_newline_last (ls : list str) (final : str) :
  last ls = Some final ->
  final_newline ls = Ok (if truthy final then [LF] else []).
Proof.
  intros Hlast. unfold final_newline.
  destruct ls as [|l ls]; [done|]. simpl truthy. cbv iota.
  rewrite (getitem_last _ _ Hlast). done.
Qed.

Lemma final_newline_total (ls : list str) : exists t, final_newline ls = Ok t.
Proof.
  destruct (last ls) as [final|] eqn:Hlast.
  - eexists. by apply final_newline_last.
  - apply last_None in Hlast. subst ls. by exists [].
Qed.

Lemma join_joined_lines (ls : list str) : join [LF] ls = joined_lines ls.
Proof.
  destruct ls as [|l ls]; [done|]. revert l.
  induction ls as [|l' ls IH]; intros l; simpl.
  - by rewrite app_nil_r.
  - f_equal. f_equal. apply (IH l').
Qed.

(** *** What can be written *)

Lemma encode_error_from_none (refused : N -> bool) (pos : Z) (s : str) :
  encode_error_from refused pos s = None <-> Forall (fun c => refused c = false) s.
Proof.
  revert pos. induction s as [|c s IH]; intros pos; simpl.
  - split; [constructor | done].
  - destruct (refused c) eqn:Hc.
    + split; [done|]. intros H. apply Forall_cons in H as [H _]. congruence.
    + rewrite IH. split; [by constructor|]. by intros [_ H]%Forall_cons.
Qed.

Lemma Forall_join (P : N -> Prop) (ls : list str) :
  P LF -> Forall P (join [LF] ls) <-> Forall (Forall P) ls.
Proof.
  intros HLF. destruct ls as [|l ls]; simpl; [split; constructor|].
  rewrite Forall_app, Forall_concat, Forall_fmap, Forall_cons.
  apply and_iff_compat_l. apply Forall_iff. intros l'. simpl.
  rewrite Forall_cons. tauto.
Qed.

(** The text of the buffer can be encoded exactly when every line can. *)
Lemma encode_error_lines (ls : list str) :
  encode_error (join [LF] ls) = None <-> Forall encodable ls.
Proof.
  unfold encode_error. rewrite encode_error_from_none.
  by apply (Forall_join (fun c => is_surrogate c = false)).
Qed.

(** The outcome of the [try] block of [save_file]: it succeeds exactly when
    the path is accepted, the operating system lets it be written and the
    text can be encoded, and then the text and its final newline are in the
    file; a failure leaves the file alone, or empty when it was the text
    that could not be encoded, and changes only the message. *)
Lemma write_file_spec (fn : str) (e : editor) (w : world) :
  exists ok e' w' tail,
    write_file fn e w = (ok, e', w') /\
    final_newline (lines e) = Ok tail /\
    (ok = true <->
       path_error fn = None /\ write_error w !! fn = None /\
       Forall encodable (lines e)) /\
    (ok = true ->
       e' = set_message_type success
              (set_message (lit "Wrote " ++ str_of_int (len (lines e))
                              ++ lit " lines to " ++ fn)
                 (set_modified false e)) /\
       w' = set_files (<[fn := join [LF] (lines e) ++ tail]> (files w)) w) /\
    (ok = false ->
       (exists err, e' = set_message_type error
                           (set_message (lit "Error writing " ++ fn ++ lit ": " ++ err) e)) /\
       (w' = w \/
        path_error fn = None /\ write_error w !! fn = None /\
        w' = set_files (<[fn := []]> (files w)) w)).
Proof.
  destruct (final_newline_total (lines e)) as [tail Htail].
  unfold write_file. rewrite Htail.
  pose proof (encode_error_lines (lines e)) as Henc.
  destruct (path_error fn) as [err|] eqn:Hpath.
  { eexists _, _, _, tail. split; [reflexivity|]. split; [done|].
    split; [split; [done | by intros (? & _)]|]. split; [done|].
    intros _. split; [by eexists | by left]. }
  destruct (write_error w !! fn) as [err|] eqn:Hw.
  { eexists _, _, _, tail. split; [reflexivity|]. split; [done|].
    split; [split; [done | by intros (_ & ? & _)]|]. split; [done|].
    intros _. split; [by eexists | by left]. }
  destruct (encode_error (join [LF] (lines e))) as [err|] eqn:He.
  { eexists _, _, _, tail. split; [reflexivity|]. split; [done|].
    split.
    { split; [done|]. intros (_ & _ & Hl). apply Henc in Hl. done. }
    split; [done|]. intros _. split; [by eexists | by right]. }
  eexists _, _, _, tail. split; [reflexivity|]. split; [done|].
  split; [split; [intros _; by rewrite <- Henc | done]|]. done.
Qed.

(** [save_file] under a proper name stores the name and runs the [try]
    block. *)
Lemma save_file_named (fn : str) (e : editor) (w : world) :
  truthy fn = true ->
  save_file (Some fn) e w = write_file fn (set_filename (Some fn) e) w.
Proof.
  intros Hfn. unfold save_file. simpl truthy_opt. rewrite Hfn.
  cbn [filename set_filename]. by rewrite Hfn.
Qed.

(** C8: for a buffer of at least one line, a save that succeeds has
    written the lines with one terminator between each pair, followed by
    one more terminator exactly when the final line is not empty.  The save
    succeeds exactly when the path is accepted, the operating system lets it
    be written and every line can be encoded; a save that fails leaves the
    file as it was, or empty when it was the text that could not be
    encoded.  No other file is touched. *)
Theorem save_writes_joined_lines (e : editor) (w : world) (fn : str) :
  truthy fn = true ->
  lines e <> [] ->
  exists final ok e' w',
    last (lines e) = Some final /\
    save_file (Some fn) e w = (ok, e', w') /\
    (ok = true <->
       path_error fn = None /\ write_error w !! fn = None /\
       Forall encodable (lines e)) /\
    (ok = true ->
       files w' !! fn =
         Some (joined_lines (lines e) ++ (if truthy final then [LF] else []))) /\
    (ok = false ->
       files w' !! fn = files w !! fn \/
       path_error fn = None /\ write_error w !! fn = None /\
       files w' !! fn = Some []) /\
    (forall other, other <> fn -> files w' !! other = files w !! other).
Proof.
  intros Hfn Hne.
  destruct (last (lines e)) as [final|] eqn:Hlast.
  2:{ apply last_None in Hlast. done. }
  rewrite (save_file_named fn e w Hfn).
  destruct (write_file_spec fn (set_filename (Some fn) e) w)
    as (ok & e' & w' & tail & Hsave & Htail & Hok & Hyes & Hno).
  simpl in Htail, Hok, Hyes.
  rewrite (final_newline_last _ _ Hlast) in Htail. injection Htail as <-.
  exists final, ok, e', w'. split; [done|]. split; [done|]. split; [done|].
  destruct ok.
  - destruct (Hyes eq_refl) as [_ ->]. simpl. split.
    + intros _. by rewrite lookup_insert_eq, join_joined_lines.
    + split; [done|]. intros other Hother. by rewrite lookup_insert_ne.
  - destruct (Hno eq_refl) as [_ [->|(Hp & Hw & ->)]]; simpl.
    + split; [done|]. split; [by left | done].
    + split; [done|]. split.
      * intros _. right. by rewrite lookup_insert_eq.
      * intros other Hother. by rewrite lookup_insert_ne.
Qed.

Lemma save_writes_joined_lines_witness :
  exists final ok e' w',
    last (lines hello_world) = Some final /\
    save_file (Some (lit "out.txt")) hello_world quiet_world = (ok, e', w') /\
    (ok = true <->
       path_error (lit "out.txt") = None /\
       write_error quiet_world !! lit "out.txt" = None /\
       Forall encodable (lines hello_world)) /\
    (ok = true ->
       files w' !! lit "out.txt" =
         Some (joined_lines (lines hello_world)
                 ++ (if truthy final then [LF] else []))) /\
    (ok = false ->
       files w' !! lit "out.txt" = files quiet_world !! lit "out.txt" \/
       path_error (lit "out.txt") = None /\
       write_error quiet_world !! lit "out.txt" = None /\
       files w' !! lit "out.txt" = Some []) /\
    (forall other, other <> lit "out.txt" ->
                   files w' !! other = files quiet_world !! other).
Proof.
  apply (save_writes_joined_lines hello_world quiet_world (lit "out.txt")).
  - reflexivity.
  - by vm_compute.
Defined.

(** ** Saving, then loading *)

Lemma no_linebreak_not_cr (l : str) :
  no_linebreak l -> Forall (fun c => (c =? CR)%N = false) l.
Proof.
  intros Hl. eapply Forall_impl; [exact Hl|]. intros c Hc. simpl in Hc.
  destruct (N.eqb_spec c CR) as [->|]; [by vm_compute in Hc | done].
Qed.

(** Text without a CR is read as it is. *)
Lemma universal_newlines_id (t : str) :
  Forall (fun c => (c =? CR)%N = false) t -> universal_newlines false t = t.
Proof.
  induction 1 as [|c t Hc _ IH]; simpl; [done|]. by rewrite Hc, IH.
Qed.

(** A line without line breaks, closed by LF, is the next line that
    [splitlines] delivers. *)
Lemma splitlines_go_line (cur l rest : str) :
  no_linebreak l ->
  splitlines_go cur false (l ++ LF :: rest)
  = (cur ++ l) :: splitlines_go [] false rest.
Proof.
  intros Hl. revert cur. induction Hl as [|c l Hc _ IH]; intros cur; simpl.
  - by rewrite app_nil_r.
  - rewrite Hc, IH, <- app_assoc. done.
Qed.

Lemma joined_lines_cons (l l' : str) (rest : list str) :
  joined_lines (l :: l' :: rest) = l ++ LF :: joined_lines (l' :: rest).
Proof. done. Qed.

(** The text written for lines without line breaks, closed by LF, splits
    into these lines again. *)
Lemma splitlines_joined_lines (ls : list str) :
  ls <> [] -> Forall no_linebreak ls ->
  splitlines (joined_lines ls ++ [LF]) = ls.
Proof.
  intros Hne Hls. unfold splitlines.
  induction Hls as [|l ls Hl Hls IH]; [done|].
  destruct ls as [|l' rest].
  - simpl joined_lines. by rewrite splitlines_go_line.
  - rewrite joined_lines_cons, <- app_assoc. simpl app at 2.
    rewrite splitlines_go_line by done. simpl app at 1.
    f_equal. by apply IH.
Qed.

Lemma joined_lines_not_cr (ls : list str) :
  Forall no_linebreak ls ->
  Forall (fun c => (c =? CR)%N = false) (joined_lines ls).
Proof.
  induction 1 as [|l ls Hl Hls IH]; [constructor|].
  destruct ls as [|l' rest].
  - by apply no_linebreak_not_cr.
  - rewrite joined_lines_cons. apply Forall_app. split.
    + by apply no_linebreak_not_cr.
    + by constructor.
Qed.

(** A load of an existing, readable path succeeds and stores the lines of
    its text, or one empty line if there are none. *)
Lemma load_file_ok (fn : str) (e0 : editor) (w : world) (content : str) :
  files w !! fn = Some content ->
  read_error w !! fn = None ->
  exists e2,
    load_file fn e0 w = (true, e2) /\
    lines e2 = (if truthy (splitlines (universal_newlines false content))
                then splitlines (universal_newlines false content)
                else [[]]).
Proof.
  intros Hfile Hread. unfold load_file. rewrite Hfile, Hread.
  eexists. split; reflexivity.
Qed.

(** C6: for lines without line-break characters whose final line is not
    empty, or for the single empty line: when the save to a path succeeds,
    a load of that path, if it can be read, yields the same lines in the
    same order.  The save succeeds exactly when the path is accepted, the
    operating system lets it be written and every line can be encoded. *)
Theorem save_then_load (e e0 : editor) (w : world) (fn : str) :
  truthy fn = true ->
  read_error w !! fn = None ->
  Forall no_linebreak (lines e) ->
  (lines e = [[]] \/ exists final, last (lines e) = Some final /\ truthy final = true) ->
  exists ok e1 w1,
    save_file (Some fn) e w = (ok, e1, w1) /\
    (ok = true <->
       path_error fn = None /\ write_error w !! fn = None /\
       Forall encodable (lines e)) /\
    (ok = true ->
       exists e2, load_file fn e0 w1 = (true, e2) /\ lines e2 = lines e).
Proof.
  intros Hfn Hr Hls Hshape.
  assert (exists final, last (lines e) = Some final /\
            splitlines (universal_newlines false
                          (joined_lines (lines e)
                             ++ (if truthy final then [LF] else [])))
            = (if truthy final then lines e else []) /\
            (truthy final = false -> lines e = [[]]))
    as (final & Hlast & Hsplit & Hempty).
  { destruct Hshape as [Heq|(final & Hlast & Hfinal)].
    - exists []. rewrite Heq. done.
    - exists final. split; [done|]. rewrite Hfinal. split; [|done].
      rewrite universal_newlines_id.
      + apply splitlines_joined_lines; [|done]. by intros Heq; rewrite Heq in Hlast.
      + apply Forall_app. split; [by apply joined_lines_not_cr | by repeat constructor]. }
  rewrite (save_file_named fn e w Hfn).
  destruct (write_file_spec fn (set_filename (Some fn) e) w)
    as (ok & e1 & w1 & tail & Hsave & Htail & Hok & Hyes & _).
  simpl in Htail, Hok, Hyes.
  rewrite (final_newline_last _ _ Hlast) in Htail. injection Htail as <-.
  exists ok, e1, w1. split; [done|]. split; [done|].
  intros ->. destruct (Hyes eq_refl) as [_ ->].
  rewrite join_joined_lines.
  destruct (load_file_ok fn e0
              (set_files (<[fn := joined_lines (lines e)
                                  ++ (if truthy final then [LF] else [])]> (files w)) w)
              (joined_lines (lines e) ++ (if truthy final then [LF] else [])))
    as (e2 & Hload & Hlines).
  { simpl. by rewrite lookup_insert_eq. }
  { done. }
  exists e2. split; [done|]. rewrite Hlines, Hsplit.
  destruct (truthy final) eqn:Hfinal.
  - by destruct (lines e).
  - by rewrite Hempty.
Qed.

Lemma save_then_load_witness :
  exists ok e1 w1,
    save_file (Some (lit "out.txt")) hello_world quiet_world = (ok, e1, w1) /\
    (ok = true <->
       path_error (lit "out.txt") = None /\
       write_error quiet_world !! lit "out.txt" = None /\
       Forall encodable (lines hello_world)) /\
    (ok = true ->
       exists e2, load_file (lit "out.txt") foo_bar_foo w1 = (true, e2) /\
                  lines e2 = lines hello_world).
Proof.
  apply (save_then_load hello_world foo_bar_foo quiet_world (lit "out.txt")).
  - reflexivity.
  - reflexivity.
  - repeat constructor.
  - right. exists (lit "world"). split; reflexivity.
Defined.

(** ** What drawing can raise *)

Lemma has_nul_false (s : str) : has_nul s = false <-> 0%N ∉ s.
Proof. unfold has_nul. apply bool_decide_eq_false. Qed.

Lemma has_nul_app (a b : str) :
  has_nul a = false -> has_nul b = false -> has_nul (a ++ b) = false.
Proof. rewrite !has_nul_false, elem_of_app. tauto. Qed.

Lemma has_nul_subseteq (a b : str) : a ⊆ b -> has_nul b = false -> has_nul a = false.
Proof. rewrite !has_nul_false. intros Hsub Hb Ha. by apply Hb, Hsub. Qed.

Lemma has_nul_slice_to (s : str) (n : Z) :
  has_nul s = false -> has_nul (slice_to s n) = false.
Proof. apply has_nul_subseteq, subseteq_take. Qed.

Lemma has_nul_slice (s : str) (a b : Z) :
  has_nul s = false -> has_nul (slice s a b) = false.
Proof.
  intros Hs. unfold slice.
  eapply has_nul_subseteq; [apply subseteq_take|].
  eapply has_nul_subseteq; [apply subseteq_drop|done].
Qed.

Lemma has_nul_spaces (n : Z) : has_nul (spaces n) = false.
Proof. apply has_nul_false. by intros [? _]%elem_of_replicate. Qed.

Lemma in_window_spec (w : world) (y x : Z) :
  in_window w y x = true <-> 0 <= y < max_y w /\ 0 <= x < max_x w.
Proof. unfold in_window. rewrite !andb_true_iff, !Z.leb_le, !Z.ltb_lt. lia. Qed.

(** [safe_addstr] raises nothing for a text without U+0000. *)
Lemma safe_addstr_ok (w : world) (y x : Z) (t : str) :
  has_nul t = false -> exists ds, safe_addstr w y x t = Ok ds.
Proof.
  intros Ht. unfold safe_addstr.
  destruct (_ || _); [by eexists|]. destruct (_ <=? 0); [by eexists|].
  unfold addstr. rewrite (has_nul_slice_to _ _ Ht).
  destruct (in_window w y x); by eexists.
Qed.

Lemma draw_row_ok (w : world) (y : Z) (t : str) :
  has_nul t = false -> exists ds, draw_row w y t = Ok ds.
Proof.
  intros Ht. unfold draw_row.
  destruct (safe_addstr_ok w y 0 (spaces (max_x w - 1)) (has_nul_spaces _)) as [a ->].
  destruct (safe_addstr_ok w y 0 t Ht) as [b ->]. by eexists.
Qed.

(** Whatever the text, [safe_addstr] returns or raises [ValueError]. *)
Lemma safe_addstr_outcome (w : world) (y x : Z) (t : str) :
  shows (safe_addstr w y x t).
Proof.
  unfold safe_addstr, addstr.
  destruct (_ || _); [by right; eexists|]. destruct (_ <=? 0); [by right; eexists|].
  destruct (has_nul _); [by left|]. destruct (in_window w y x); by right; eexists.
Qed.

Lemma draw_row_outcome (w : world) (y : Z) (t : str) : shows (draw_row w y t).
Proof.
  unfold draw_row.
  destruct (safe_addstr_ok w y 0 (spaces (max_x w - 1)) (has_nul_spaces _)) as [a ->].
  destruct (safe_addstr_outcome w y 0 t) as [->|[b ->]]; [by left | by right; eexists].
Qed.

(** ** The prompts *)

(** The [try] block of a prompt reads one typed line, or nothing at all. *)
Lemma read_line_world (w : world) (prompt t : str) (w' : world) :
  read_line w prompt = Ok (t, w') ->
  w' = w \/ exists ts, typed w = t :: ts /\ w' = set_typed ts w.
Proof.
  unfold read_line, getstr. destruct (move w _ _); try (intros [= <- <-]; by left).
  destruct (typed w) as [|t' ts]; [done|]. intros [= <- <-]. right. by exists ts.
Qed.

Lemma read_line_outcome (w : world) (prompt : str) :
  read_line w prompt = Blocked \/ exists r, read_line w prompt = Ok r.
Proof.
  unfold read_line, getstr. destruct (move w _ _); try (by right; eexists).
  destruct (typed w); [by left | by right; eexists].
Qed.

Lemma prompt_save_filename_world (e : editor) (w : world) (name : option str) (w' : world) :
  prompt_save_filename e w = Ok (name, w') ->
  w' = w \/ exists t ts, typed w = t :: ts /\ w' = set_typed ts w.
Proof.
  unfold prompt_save_filename.
  destruct (draw_row w _ _); try done. cbn [mbind result_bind].
  destruct (read_line w _) as [[t w1]| | | |] eqn:Hread; try done.
  cbn [mbind result_bind]. apply read_line_world in Hread.
  assert (w1 = w' -> w' = w \/ exists t ts, typed w = t :: ts /\ w' = set_typed ts w).
  { intros <-. destruct Hread as [->|(ts & Ht & ->)]; [by left|]. right. by exists t, ts. }
  destruct (truthy (strip t)); intros [= _ Hw]; auto.
Qed.

Lemma prompt_search_world (w : world) (q : option str) (w' : world) :
  prompt_search w = Ok (q, w') ->
  (w' = w \/ exists t ts, typed w = t :: ts /\ w' = set_typed ts w) /\
  forall query, q = Some query -> truthy query = true.
Proof.
  unfold prompt_search.
  destruct (draw_row w _ _); try done. cbn [mbind result_bind].
  destruct (read_line w _) as [[t w1]| | | |] eqn:Hread; try done.
  cbn [mbind result_bind mret result_ret]. apply read_line_world in Hread.
  intros [= Hq <-]. split.
  - destruct Hread as [->|(ts & Ht & ->)]; [by left|]. right. by exists t, ts.
  - intros query ->. by destruct (truthy (strip t)) eqn:Ht; simplify_eq.
Qed.

(** The prompts raise no [IndexError]. *)
Lemma prompt_save_filename_outcome (e : editor) (w : world) :
  prompt_save_filename e w <> IndexError.
Proof.
  unfold prompt_save_filename.
  destruct (draw_row_outcome w (max_y w - 3)
              (lit "File Name to Write: " ++ or_else (filename e) [])) as [->|[ds ->]];
    [done|]. cbn [mbind result_bind].
  destruct (read_line_outcome w (lit "File Name to Write: " ++ or_else (filename e) []))
    as [->|[[t w1] ->]]; [done|].
  cbn [mbind result_bind]. by destruct (truthy (strip t)).
Qed.

Lemma prompt_search_outcome (w : world) : prompt_search w <> IndexError.
Proof.
  unfold prompt_search.
  destruct (draw_row_outcome w (max_y w - 3) (lit "Search: ")) as [->|[ds ->]];
    [done|]. cbn [mbind result_bind].
  by destruct (read_line_outcome w (lit "Search: ")) as [->|[[t w1] ->]].
Qed.

(** [for_each] over texts without U+0000, drawn with [safe_addstr]. *)
Lemma for_each_ok {A} (body : A -> result (list drawn)) (items : list A) :
  Forall (fun x => exists ds, body x = Ok ds) items ->
  exists ds, for_each body items = Ok ds.
Proof.
  induction 1 as [|x items [a Ha] _ [b IH]]; simpl; [by eexists|].
  rewrite Ha, IH. by eexists.
Qed.

(** The help screen can always be drawn: [show_help] reads one key. *)
Lemma show_help_reads (w : world) :
  show_help w = ('(_, w') ← getch w; mret w').
Proof.
  unfold show_help.
  destruct (for_each_ok
              (fun '(i, line) =>
                 if i <? max_y w - 1 then safe_addstr w i 2 line else mret [])
              (enumerate help_text)) as [ds ->]; [|done].
  apply Forall_forall. intros [i line] Hin.
  destruct (i <? max_y w - 1); [|by eexists].
  apply safe_addstr_ok. apply elem_of_zip_r in Hin.
  revert line Hin. apply Forall_forall. by vm_compute; repeat constructor.
Qed.

(** ** Leaving the editor *)

(** On a terminal with room for the prompt, whose text can be shown,
    [prompt_save_filename] reads one line and returns the name typed, or the
    current name when nothing but white space is typed. *)
Lemma prompt_save_filename_typed (e : editor) (w : world) (t : str) (ts : list str) :
  3 <= max_y w -> 2 <= max_x w ->
  has_nul (or_else (filename e) []) = false ->
  typed w = t :: ts ->
  prompt_save_filename e w = Ok (prompted_name t e, set_typed ts w).
Proof.
  intros Hy Hx Hname Htyped. unfold prompt_save_filename.
  destruct (draw_row_ok w (max_y w - 3)
              (lit "File Name to Write: " ++ or_else (filename e) []))
    as [ds ->]; [by apply has_nul_app|].
  cbn [mbind result_bind]. unfold read_line, move, in_window.
  pose proof (len_nonneg (lit "File Name to Write: " ++ or_else (filename e) [])).
  destruct (Z.leb_spec 0 (max_y w - 3)); [|lia].
  destruct (Z.ltb_spec (max_y w - 3) (max_y w)); [|lia].
  destruct (Z.leb_spec 0 (Z.min (len (lit "File Name to Write: "
                                        ++ or_else (filename e) [])) (max_x w - 2))); [|lia].
  destruct (Z.ltb_spec (Z.min (len (lit "File Name to Write: "
                                      ++ or_else (filename e) [])) (max_x w - 2)) (max_x w));
    [|lia].
  cbn [andb mret result_ret]. unfold getstr. rewrite Htyped.
  cbn [mbind result_bind]. unfold prompted_name.
  by destruct (truthy (strip t)).
Qed.


(** One turn of the loop of [run] when the screen can be drawn and a key
    is waiting. *)
Lemma run_loop_turn (n : nat) (s : session) (key : Z) (rest : list Z) :
  succeeds (draw (env s) (ed s)) = true ->
  keys (env s) = key :: rest ->
  run_loop (S n) s =
    (r ← dispatch key (Session (ed s) (cut_buffer s) (set_keys rest (env s)));
     match r with
     | (true, s') => mret s'
     | (false, s') => run_loop n s'
     end).
Proof.
  intros Hdraw Hkeys. cbn [run_loop].
  destruct (draw (env s) (ed s)); try done.
  cbn [mbind result_bind]. unfold getch. by rewrite Hkeys.
Qed.

Lemma dispatch_exit_unmodified (e : editor) (cut : str) (w : world) :
  modified e = false ->
  dispatch 24 (Session e cut w) = Ok (true, Session e cut w).
Proof.
  intros Hmod. unfold dispatch. simpl. unfold confirm_exit. by rewrite Hmod.
Qed.







(** ** What the commands keep of the cursor invariant *)

Lemma cursor_ok_positioned (e : editor) : cursor_ok e <-> positioned true e.
Proof.
  split.
  - intros (_ & Hy & line & Hline & Hx). split; [lia|]. split; [lia|].
    exists line. split; [done|]. intros _. lia.
  - intros (Hy & Hx & line & Hline & Hstrict).
    pose proof (getitem_lt _ _ _ Hy Hline). split; [lia|]. split; [lia|].
    exists line. split; [done|]. split; [done | by apply Hstrict].
Qed.

Lemma positioned_weaken (b : bool) (e : editor) :
  positioned true e -> positioned b e.
Proof.
  intros (Hy & Hx & line & Hline & Hstrict). split; [done|]. split; [done|].
  exists line. split; [done|]. intros _. by apply Hstrict.
Qed.

Lemma positioned_adjust_scroll (b : bool) (w : world) (e : editor) :
  positioned b e -> positioned b (adjust_scroll w e).
Proof.
  unfold positioned.
  by rewrite adjust_scroll_cursor_y, adjust_scroll_cursor_x, adjust_scroll_lines.
Qed.

(** A position given by a split of the lines at the cursor row. *)
Lemma positioned_at (b : bool) (e : editor) (l1 : list str) (line : str) (l2 : list str) :
  lines e = l1 ++ line :: l2 ->
  cursor_y e = len l1 ->
  0 <= cursor_x e ->
  (b = true -> cursor_x e <= len line) ->
  positioned b e.
Proof.
  intros Hl Hy Hx Hstrict. split; [rewrite Hy; apply len_nonneg|]. split; [done|].
  exists line. split; [|done]. rewrite Hl, Hy. apply getitem_middle.
Qed.

Lemma positioned_split (b : bool) (e : editor) :
  positioned b e ->
  exists l1 line l2,
    lines e = l1 ++ line :: l2 /\ cursor_y e = len l1 /\
    0 <= cursor_x e /\ (b = true -> cursor_x e <= len line).
Proof.
  intros (Hy & Hx & line & Hline & Hstrict).
  destruct (getitem_split _ _ _ Hy Hline) as (l1 & l2 & Hl & Hlen).
  by exists l1, line, l2.
Qed.

Lemma len_slices {A} (l : list A) (c : Z) :
  len (slice_to l c) + len (slice_from l c) = len l.
Proof. rewrite <- len_app. by rewrite slice_to_from. Qed.

Lemma len_slice_from {A} (l : list A) (c : Z) :
  0 <= c <= len l -> len (slice_from l c) = len l - c.
Proof.
  intros Hc. pose proof (len_slices l c). rewrite len_slice_to in H by done. lia.
Qed.

Lemma truthy_len {A} (l : list A) : truthy l = true -> 1 <= len l.
Proof.
  destruct l; [done|]. intros _. rewrite len_cons. pose proof (len_nonneg l). lia.
Qed.

(** Opens a hypothesis [positioned b e] into a split of the lines of [e] at
    the cursor row and replaces [e] by its fields. *)
Tactic Notation "open_position" hyp(H) constr(e) "as"
    ident(l1) ident(line) ident(l2) ident(Hx) ident(Hstrict) :=
  let Hl := fresh "Hl" in
  let Hy := fresh "Hy" in
  destruct (positioned_split _ _ H) as (l1 & line & l2 & Hl & Hy & Hx & Hstrict);
  destruct e as [fn ls cy cx oy ox md msg mt];
  simpl in Hl, Hy, Hx, Hstrict; subst ls cy; clear H.

Lemma insert_char_positioned (b : bool) (text : str) (w : world) (e : editor) :
  truthy text = true ->
  positioned b e ->
  exists e', insert_char text w e = Ok e' /\ positioned b e'.
Proof.
  intros Htext H. open_position H e as l1 line l2 Hx Hstrict.
  unfold insert_char; simpl.
  rewrite getitem_middle; simpl. rewrite setitem_middle; simpl.
  eexists. split; [reflexivity|]. apply positioned_adjust_scroll.
  eapply positioned_at; simpl; [reflexivity | reflexivity | lia |].
  intros Hb. specialize (Hstrict Hb). rewrite !len_app.
  pose proof (len_slices line cx). pose proof (truthy_len _ Htext). lia.
Qed.

Lemma app_middle_cons {A} (l1 : list A) (a b : A) (l2 : list A) :
  l1 ++ a :: b :: l2 = (l1 ++ [a]) ++ b :: l2.
Proof. by rewrite <- app_assoc. Qed.

Lemma len_snoc {A} (l : list A) (a : A) : len (l ++ [a]) = len l + 1.
Proof. by rewrite len_app. Qed.

Lemma insert_newline_positioned (b : bool) (w : world) (e : editor) :
  positioned b e ->
  exists e', insert_newline w e = Ok e' /\ positioned b e'.
Proof.
  intros H. open_position H e as l1 line l2 Hx Hstrict.
  unfold insert_newline; simpl.
  rewrite getitem_middle; simpl. rewrite setitem_middle; simpl.
  eexists. split; [reflexivity|]. apply positioned_adjust_scroll.
  eapply (positioned_at _ _ (l1 ++ [slice_to line cx]) (slice_from line cx) l2); simpl.
  - rewrite <- (len_snoc l1 (slice_to line cx)).
    replace (l1 ++ slice_to line cx :: l2) with ((l1 ++ [slice_to line cx]) ++ l2)
      by (by rewrite <- app_assoc).
    by rewrite list_insert_middle.
  - by rewrite len_snoc.
  - done.
  - intros _. apply len_nonneg.
Qed.

Lemma backspace_positioned (b : bool) (w : world) (e : editor) :
  positioned b e ->
  exists e', backspace w e = Ok e' /\ positioned b e'.
Proof.
  intros H. open_position H e as l1 line l2 Hx Hstrict.
  unfold backspace; simpl.
  destruct (Z.ltb_spec 0 cx) as [Hpos|Hzero].
  - rewrite getitem_middle; simpl. rewrite setitem_middle; simpl.
    eexists. split; [reflexivity|]. apply positioned_adjust_scroll.
    eapply positioned_at; simpl; [reflexivity | reflexivity | lia |].
    intros Hb. specialize (Hstrict Hb). rewrite len_app.
    rewrite len_slice_to, len_slice_from by lia. lia.
  - destruct (Z.ltb_spec 0 (len l1)) as [Hrow|Htop].
    + destruct l1 as [|prev l0 _] using rev_ind; [done|].
      rewrite len_snoc.
      replace (len l0 + 1 - 1) with (len l0) by lia.
      rewrite <- app_assoc. simpl.
      rewrite getitem_middle; simpl.
      rewrite (app_middle_cons l0 prev line l2), <- (len_snoc l0 prev), getitem_middle; simpl.
      rewrite <- app_assoc. simpl. rewrite setitem_middle; simpl.
      rewrite (app_middle_cons l0 (prev ++ line) line l2).
      rewrite (len_snoc l0 prev), <- (len_snoc l0 (prev ++ line)), pop_middle; simpl.
      eexists. split; [reflexivity|]. apply positioned_adjust_scroll.
      eapply (positioned_at _ _ l0 (prev ++ line) l2); simpl.
      * by rewrite <- app_assoc.
      * rewrite ?len_snoc. lia.
      * apply len_nonneg.
      * intros _. rewrite len_app. pose proof (len_nonneg line). lia.
    + simpl. eexists. split; [reflexivity|]. apply positioned_adjust_scroll.
      by eapply positioned_at.
Qed.

Lemma delete_char_positioned (b : bool) (e : editor) :
  positioned b e ->
  exists e', delete_char e = Ok e' /\ positioned b e'.
Proof.
  intros H. open_position H e as l1 line l2 Hx Hstrict.
  unfold delete_char; simpl. rewrite getitem_middle; simpl.
  destruct (Z.ltb_spec cx (len line)) as [Hin|Hend].
  - rewrite setitem_middle; simpl.
    eexists. split; [reflexivity|].
    eapply positioned_at; simpl; [reflexivity | reflexivity | lia |].
    intros _. rewrite len_app. rewrite len_slice_to, len_slice_from by lia. lia.
  - rewrite len_app, len_cons.
    destruct (Z.ltb_spec (len l1) (len l1 + (len l2 + 1) - 1)) as [Hnext|Hlast].
    + destruct l2 as [|next l3]; [unfold len in Hnext; simpl in Hnext; lia|].
      rewrite (app_middle_cons l1 line next l3), <- (len_snoc l1 line), getitem_middle; simpl.
      rewrite <- app_assoc. simpl. rewrite setitem_middle; simpl.
      rewrite (app_middle_cons l1 (line ++ next) next l3).
      rewrite (len_snoc l1 line), <- (len_snoc l1 (line ++ next)), pop_middle; simpl.
      eexists. split; [reflexivity|].
      eapply (positioned_at _ _ l1 (line ++ next) l3); simpl.
      * by rewrite <- app_assoc.
      * done.
      * done.
      * intros Hb. specialize (Hstrict Hb). rewrite len_app.
        pose proof (len_nonneg next). lia.
    + simpl. eexists. split; [reflexivity|]. by eapply positioned_at.
Qed.

Lemma move_cursor_positioned (b : bool) (dy dx : Z) (w : world) (e : editor) :
  positioned b e ->
  exists e', move_cursor dy dx w e = Ok e' /\ positioned b e'.
Proof.
  intros (Hy & Hx & line & Hline & _).
  pose proof (getitem_lt _ _ _ Hy Hline) as Hlen.
  unfold move_cursor; simpl.
  set (y := Z.max 0 (Z.min (len (lines e) - 1) (cursor_y e + dy))).
  destruct (getitem_in_range (lines e) y) as [line' Hline']; [lia|].
  rewrite Hline'; simpl.
  eexists. split; [reflexivity|].
  apply positioned_adjust_scroll, positioned_weaken.
  pose proof (len_nonneg line').
  split; simpl; [lia|]. split; [lia|]. exists line'. split; [done|]. lia.
Qed.

Lemma cut_line_positioned (b : bool) (s : session) :
  positioned b (ed s) ->
  exists s', cut_line s = Ok s' /\ positioned b (ed s').
Proof.
  destruct s as [e cut w]. simpl. intros H.
  open_position H e as l1 line l2 Hx Hstrict.
  unfold cut_line; simpl.
  assert (Htruthy : truthy (l1 ++ line :: l2) = true) by (by destruct l1).
  rewrite Htruthy, getitem_middle; simpl. rewrite pop_middle; simpl.
  eexists. split; [reflexivity|]. simpl. apply positioned_weaken.
  destruct l2 as [|next l3].
  - rewrite app_nil_r. destruct l1 as [|prev l0 _] using rev_ind; simpl.
    + by apply (positioned_at _ _ [] [] []).
    + assert (Hne : truthy (l0 ++ [prev]) = true) by (by destruct l0).
      rewrite Hne. simpl. destruct (Z.leb_spec (len (l0 ++ [prev])) (len (l0 ++ [prev]))); [|lia].
      simpl. apply (positioned_at _ _ l0 prev []); simpl; try done.
      * rewrite len_snoc. lia.
      * intros _. apply len_nonneg.
  - assert (Hne : truthy (l1 ++ next :: l3) = true) by (by destruct l1).
    rewrite Hne. simpl.
    destruct (Z.leb_spec (len (l1 ++ next :: l3)) (len l1)) as [Hbad|_].
    + rewrite len_app, len_cons in Hbad. pose proof (len_nonneg l3). lia.
    + simpl. apply (positioned_at _ _ l1 next l3); simpl; try done.
      intros _. apply len_nonneg.
Qed.

(** Paste keeps the row inside the buffer; the column is left where it was,
    whatever the length of the pasted line. *)
Lemma paste_line_positioned (s : session) :
  positioned false (ed s) -> positioned false (ed (paste_line s)).
Proof.
  destruct s as [e cut w]. simpl. intros H.
  unfold paste_line; simpl. destruct (truthy cut); [|done]. simpl.
  open_position H e as l1 line l2 Hx Hstrict. simpl.
  rewrite list_insert_middle.
  by apply (positioned_at _ _ l1 cut (line :: l2)).
Qed.

Lemma occurs_at_le (q l : str) (c : Z) : occurs_at q l c -> 0 <= c <= len l.
Proof.
  intros (pre & post & -> & <-). rewrite len_app.
  pose proof (len_nonneg pre). pose proof (len_nonneg (q ++ post)). lia.
Qed.

Lemma search_positioned (b : bool) (q : str) (w : world) (e : editor) :
  truthy q = true ->
  positioned b e ->
  exists e', search q w e = Ok e' /\ positioned b e'.
Proof.
  intros Hq H. destruct H as (Hy & Hx & line & Hline & Hstrict).
  destruct (search_cases w e q line Hq Hy Hline Hx) as (e' & Hsearch & Hlines & Hcase).
  exists e'. split; [done|].
  destruct Hcase as [(c & (Hc & Hocc & _) & Hy' & Hx' & _)
                    |[(_ & r & l & c & Hr & _ & Hl & (_ & Hocc & _) & Hy' & Hx' & _)
                    |[(_ & _ & r & l & c & Hr & _ & Hl & (_ & Hocc & _) & Hy' & Hx' & _)
                    |(_ & _ & ->)]]].
  - apply positioned_weaken. apply occurs_at_le in Hocc.
    split; [lia|]. split; [lia|]. exists line.
    rewrite Hlines, Hy', Hx'. split; [done|]. lia.
  - apply positioned_weaken. apply occurs_at_le in Hocc.
    split; [lia|]. split; [lia|]. exists l.
    rewrite Hlines, Hy', Hx'. split; [done|]. lia.
  - apply positioned_weaken. apply occurs_at_le in Hocc.
    split; [lia|]. split; [lia|]. exists l.
    rewrite Hlines, Hy', Hx'. split; [done|]. lia.
  - split; [done|]. split; [done|]. by exists line.
Qed.

(** [save_file] touches neither the lines nor the cursor. *)
Lemma save_file_frame (fname : option str) (e : editor) (w : world) :
  lines (save_file fname e w).1.2 = lines e /\
  cursor_y (save_file fname e w).1.2 = cursor_y e /\
  cursor_x (save_file fname e w).1.2 = cursor_x e.
Proof.
  unfold save_file, write_file.
  destruct (truthy_opt fname); simpl;
    repeat match goal with
           | |- context [match ?x with _ => _ end] => destruct x; simpl
           end; done.
Qed.

Lemma save_file_positioned (b : bool) (fname : option str) (e : editor) (w : world) :
  positioned b e -> positioned b (save_file fname e w).1.2.
Proof.
  unfold positioned.
  destruct (save_file_frame fname e w) as (-> & -> & ->). done.
Qed.

Lemma keeps_ok {A} (b : bool) (f : A -> editor) (r : result A) :
  (exists a, r = Ok a /\ positioned b (f a)) -> keeps b f r.
Proof. by intros (a & -> & H). Qed.

Lemma confirm_exit_loop_positioned (b : bool) (ks : list Z) (e : editor) (w : world) :
  positioned b e ->
  keeps b (fun r => r.1.2) (confirm_exit_loop ks e w).
Proof.
  intros H. revert w. induction ks as [|key ks IH]; intros w; simpl; [done|].
  repeat case_bool_decide; simpl; try done.
  pose proof (prompt_save_filename_outcome e (set_keys ks w)) as Hprompt.
  destruct (prompt_save_filename e (set_keys ks w)) as [[fname w']| | | |];
    simpl; try done.
  destruct (truthy_opt fname); simpl; [|done]. by apply save_file_positioned.
Qed.

Lemma confirm_exit_positioned (b : bool) (e : editor) (w : world) :
  positioned b e ->
  keeps b (fun r => r.1.2) (confirm_exit e w).
Proof.
  intros H. unfold confirm_exit. destruct (modified e); simpl; [|done].
  destruct (draw_row_outcome w (max_y w - 3)
              (lit "Save modified buffer? (Y/N/C for cancel) ")) as [->|[ds ->]];
    [done|].
  by apply confirm_exit_loop_positioned.
Qed.

Lemma home_positioned (b : bool) (w : world) (e : editor) :
  positioned b e -> positioned b (adjust_scroll w (set_cursor_x 0 e)).
Proof.
  intros (Hy & Hx & line & Hline & _).
  apply positioned_adjust_scroll. split; [done|]. split; [done|].
  exists line. split; [done|]. intros _. apply len_nonneg.
Qed.

Lemma end_positioned (b : bool) (w : world) (e : editor) :
  positioned false e ->
  exists e',
    (line ← getitem (lines e) (cursor_y e);
     mret (adjust_scroll w (set_cursor_x (len line) e))) = Ok e' /\
    positioned b e'.
Proof.
  intros (Hy & Hx & line & Hline & _). rewrite Hline. simpl.
  eexists. split; [reflexivity|].
  apply positioned_adjust_scroll. split; [done|]. split; [apply len_nonneg|].
  exists line. split; [done|]. simpl. lia.
Qed.

Lemma positioned_false (b : bool) (e : editor) : positioned b e -> positioned false e.
Proof.
  intros (Hy & Hx & line & Hline & _). split; [done|]. split; [done|].
  by exists line.
Qed.

(** Every command keeps the row inside the buffer and the column
    non-negative and raises no [IndexError]; every command but Ctrl+U (21)
    also keeps the column inside its line. *)
Lemma dispatch_positioned (b : bool) (key : Z) (s : session) :
  positioned b (ed s) ->
  (b = true -> key <> 21) ->
  keeps b (fun r => ed r.2) (dispatch key s).
Proof.
  destruct s as [e cut w]. simpl. intros H Hpaste. unfold dispatch. simpl.
  assert (Hcont : forall r : result editor,
             (exists e', r = Ok e' /\ positioned b e') ->
             keeps b (fun r => ed r.2)
               (e' ← r; mret (false, Session e' cut w))).
  { by intros r (e' & -> & He'). }
  destruct (Z.eqb_spec key 24) as [_|_].
  { pose proof (confirm_exit_positioned b e w H) as Hexit.
    by destruct (confirm_exit e w) as [[[leave e'] w']| | | |]. }
  destruct (Z.eqb_spec key 15) as [_|_].
  { pose proof (prompt_save_filename_outcome e w) as Hprompt.
    destruct (prompt_save_filename e w) as [[fname w']| | | |]; simpl; try done.
    destruct (truthy_opt fname); simpl; [|done].
    pose proof (save_file_positioned b fname e w' H) as Hsave.
    by destruct (save_file _ _ _) as [[ok e'] w'']. }
  destruct (Z.eqb_spec key 23) as [_|_].
  { pose proof (prompt_search_outcome w) as Hprompt.
    destruct (prompt_search w) as [[[q|] w']| | | |]; simpl; try done.
    destruct (truthy q) eqn:Hq; simpl; [|done].
    destruct (search_positioned b q w' e Hq H) as (e' & -> & He').
    done. }
  destruct (Z.eqb_spec key 11) as [_|_].
  { destruct (cut_line_positioned b (Session e cut w) H) as (s' & -> & Hs'). done. }
  destruct (Z.eqb_spec key 21) as [->|_].
  { simpl. destruct b; [by destruct Hpaste|].
    by apply (paste_line_positioned (Session e cut w)). }
  destruct (Z.eqb_spec key 7) as [_|_].
  { rewrite show_help_reads. unfold getch. by destruct (keys w). }
  destruct (Z.eqb_spec key 1) as [_|_].
  { simpl. by apply home_positioned. }
  destruct (Z.eqb_spec key 5) as [_|_].
  { apply Hcont. by eapply end_positioned, positioned_false. }
  destruct (Z.eqb_spec key KEY_UP) as [_|_].
  { apply Hcont. by apply move_cursor_positioned. }
  destruct (Z.eqb_spec key KEY_DOWN) as [_|_].
  { apply Hcont. by apply move_cursor_positioned. }
  destruct (Z.eqb_spec key KEY_LEFT) as [_|_].
  { destruct (Z.ltb_spec 0 (cursor_x e)).
    - apply Hcont. by apply move_cursor_positioned.
    - destruct (Z.ltb_spec 0 (cursor_y e)) as [Hrow|_]; [|done].
      apply Hcont. apply end_positioned.
      destruct H as (Hy & Hx & line & Hline & _).
      pose proof (getitem_lt _ _ _ Hy Hline).
      destruct (getitem_in_range (lines e) (cursor_y e - 1)) as [prev Hprev]; [lia|].
      split; simpl; [lia|]. split; [done|]. by exists prev. }
  destruct (Z.eqb_spec key KEY_RIGHT) as [_|_].
  { apply Hcont.
    destruct H as (Hy & Hx & line & Hline & Hstrict). rewrite Hline. simpl.
    destruct (Z.ltb_spec (cursor_x e) (len line)).
    - apply move_cursor_positioned. split; [done|]. split; [done|]. by exists line.
    - destruct (Z.ltb_spec (cursor_y e) (len (lines e) - 1)) as [Hnext|_].
      + eexists. split; [reflexivity|]. apply positioned_adjust_scroll.
        destruct (getitem_in_range (lines e) (cursor_y e + 1)) as [next Hnext']; [lia|].
        split; simpl; [lia|]. split; [done|]. exists next. split; [done|].
        intros _. apply len_nonneg.
      + eexists. split; [reflexivity|]. split; [done|]. split; [done|]. by exists line. }
  destruct (Z.eqb_spec key KEY_HOME) as [_|_].
  { simpl. by apply home_positioned. }
  destruct (Z.eqb_spec key KEY_END) as [_|_].
  { apply Hcont. by eapply end_positioned, positioned_false. }
  destruct (Z.eqb_spec key KEY_PPAGE) as [_|_].
  { apply Hcont. by apply move_cursor_positioned. }
  destruct (Z.eqb_spec key KEY_NPAGE) as [_|_].
  { apply Hcont. by apply move_cursor_positioned. }
  case_bool_decide.
  { apply Hcont. by apply insert_newline_positioned. }
  case_bool_decide.
  { apply Hcont. by apply backspace_positioned. }
  destruct (Z.eqb_spec key KEY_DC) as [_|_].
  { apply Hcont. by apply delete_char_positioned. }
  destruct (Z.eqb_spec key 9) as [_|_].
  { apply Hcont. by apply insert_char_positioned. }
  destruct ((32 <=? key) && (key <=? 126)); [|done].
  apply Hcont. by apply insert_char_positioned.
Qed.

(** ** The viewport never starts above the buffer *)

Lemma adjust_scroll_scrolled (w : world) (e0 e : editor) :
  offset_y e = offset_y e0 -> scrolled e0 (adjust_scroll w e).
Proof.
  intros Heq. unfold scrolled, adjust_scroll, get_dimensions.
  destruct (Z.ltb_spec (cursor_y e) (offset_y e));
    [|destruct (Z.leb_spec (offset_y e + (max_y w - 4)) (cursor_y e))]; simpl;
    (destruct (Z.ltb_spec (cursor_x e) (offset_x e));
     [|destruct (Z.leb_spec (offset_x e + max_x w) (cursor_x e))]); simpl; lia.
Qed.

(** Splits a command into the outcomes of its steps and shows that the
    offset was left alone or set by [adjust_scroll]. *)
Ltac scroll_cases :=
  unfold mbind, result_bind, mret, result_ret; cbv zeta;
  repeat case_match; simplify_eq; try done;
  repeat match goal with
         | |- Ok _ = Ok _ -> _ => intros [= <-]
         end;
  first [ by left | by apply adjust_scroll_scrolled ].

Lemma move_cursor_scrolled (dy dx : Z) (w : world) (e e' : editor) :
  move_cursor dy dx w e = Ok e' -> scrolled e e'.
Proof. unfold move_cursor. scroll_cases. Qed.

Lemma insert_char_scrolled (text : str) (w : world) (e e' : editor) :
  insert_char text w e = Ok e' -> scrolled e e'.
Proof. unfold insert_char. scroll_cases. Qed.

Lemma insert_newline_scrolled (w : world) (e e' : editor) :
  insert_newline w e = Ok e' -> scrolled e e'.
Proof. unfold insert_newline. scroll_cases. Qed.

Lemma backspace_scrolled (w : world) (e e' : editor) :
  backspace w e = Ok e' -> scrolled e e'.
Proof. unfold backspace. scroll_cases. Qed.

Lemma delete_char_scrolled (e e' : editor) :
  delete_char e = Ok e' -> scrolled e e'.
Proof. unfold delete_char. scroll_cases. Qed.

Lemma search_scrolled (q : str) (w : world) (e e' : editor) :
  search q w e = Ok e' -> scrolled e e'.
Proof. unfold search. scroll_cases. Qed.

Lemma cut_line_scrolled (s s' : session) :
  cut_line s = Ok s' -> scrolled (ed s) (ed s').
Proof. unfold cut_line. scroll_cases. Qed.

Lemma save_file_offsets (fname : option str) (e : editor) (w : world) :
  offset_y (save_file fname e w).1.2 = offset_y e /\
  offset_x (save_file fname e w).1.2 = offset_x e.
Proof.
  unfold save_file, write_file.
  destruct (truthy_opt fname); simpl;
    repeat match goal with
           | |- context [match ?x with _ => _ end] => destruct x; simpl
           end; done.
Qed.

Lemma confirm_exit_loop_scrolled (ks : list Z) (e : editor) (w : world)
    (leave : bool) (e' : editor) (w' : world) :
  confirm_exit_loop ks e w = Ok (leave, e', w') -> scrolled e e'.
Proof.
  revert w. induction ks as [|key ks IH]; intros w; simpl; [done|].
  repeat case_bool_decide; try (intros [= <- <- <-]; by left); [|by apply IH].
  destruct (prompt_save_filename e (set_keys ks w)) as [[fname w1]| | | |];
    simpl; try done.
  destruct (truthy_opt fname); [|intros [= <- <- <-]; by left].
  intros [= Hsave]. left.
  pose proof (save_file_offsets fname e w1) as [Hy _]. by rewrite Hsave in Hy.
Qed.

(** Every command leaves the vertical offset alone, sets it to the cursor
    row or increases it. *)
Lemma dispatch_scrolled (key : Z) (s : session) (leave : bool) (s' : session) :
  dispatch key s = Ok (leave, s') -> scrolled (ed s) (ed s').
Proof.
  destruct s as [e cut w]. unfold dispatch. cbn [ed env cut_buffer].
  assert (Hcont : forall r : result editor,
             (forall e1, r = Ok e1 -> scrolled e e1) ->
             (e1 ← r; mret (false, Session e1 cut w)) = Ok (leave, s') ->
             scrolled e (ed s')).
  { intros r Hr. destruct r as [e1| | | |]; simpl; [|done..].
    intros [= <- <-]. by apply Hr. }
  destruct (Z.eqb_spec key 24) as [_|_].
  { unfold confirm_exit. destruct (modified e); simpl.
    - destruct (draw_row w _ _); simpl; try done.
      destruct (confirm_exit_loop (keys w) e w) as [[[b e1] w1]| | | |] eqn:Hloop;
        simpl; [|done..].
      intros [= <- <-]. by apply confirm_exit_loop_scrolled in Hloop.
    - intros [= <- <-]. by left. }
  destruct (Z.eqb_spec key 15) as [_|_].
  { destruct (prompt_save_filename e w) as [[fname w1]| | | |]; simpl; try done.
    destruct (truthy_opt fname); [|intros [= <- <-]; by left].
    pose proof (save_file_offsets fname e w1) as [Hy _].
    destruct (save_file fname e w1) as [[ok e1] w2]. intros [= <- <-]. by left. }
  destruct (Z.eqb_spec key 23) as [_|_].
  { destruct (prompt_search w) as [[[q|] w1]| | | |]; simpl; try done.
    - destruct (truthy q); [|intros [= <- <-]; by left].
      destruct (search q w1 e) as [e1| | | |] eqn:Hs; simpl; [|done..].
      intros [= <- <-]. by apply search_scrolled in Hs.
    - intros [= <- <-]. by left. }
  destruct (Z.eqb_spec key 11) as [_|_].
  { destruct (cut_line (Session e cut w)) as [s1| | | |] eqn:Hcut; simpl; [|done..].
    intros [= <- <-]. by apply cut_line_scrolled in Hcut. }
  destruct (Z.eqb_spec key 21) as [_|_].
  { simpl. intros [= <- <-]. unfold paste_line. simpl.
    destruct (truthy cut); by left. }
  destruct (Z.eqb_spec key 7) as [_|_].
  { destruct (show_help w); simpl; try done. intros [= <- <-]. by left. }
  destruct (Z.eqb_spec key 1) as [_|_].
  { simpl. intros [= <- <-]. by apply adjust_scroll_scrolled. }
  destruct (Z.eqb_spec key 5) as [_|_].
  { apply Hcont. intros e1. scroll_cases. }
  destruct (Z.eqb_spec key KEY_UP) as [_|_].
  { apply Hcont. intros e1. apply move_cursor_scrolled. }
  destruct (Z.eqb_spec key KEY_DOWN) as [_|_].
  { apply Hcont. intros e1. apply move_cursor_scrolled. }
  destruct (Z.eqb_spec key KEY_LEFT) as [_|_].
  { destruct (0 <? cursor_x e).
    - apply Hcont. intros e1. apply move_cursor_scrolled.
    - destruct (0 <? cursor_y e).
      + apply Hcont. intros e1. scroll_cases.
      + intros [= <- <-]. by left. }
  destruct (Z.eqb_spec key KEY_RIGHT) as [_|_].
  { apply Hcont. intros e1.
    destruct (getitem (lines e) (cursor_y e)) as [line| | | |]; simpl; [|done..].
    destruct (cursor_x e <? len line); [apply move_cursor_scrolled|].
    destruct (cursor_y e <? len (lines e) - 1).
    - intros [= <-]. by apply adjust_scroll_scrolled.
    - intros [= <-]. by left. }
  destruct (Z.eqb_spec key KEY_HOME) as [_|_].
  { simpl. intros [= <- <-]. by apply adjust_scroll_scrolled. }
  destruct (Z.eqb_spec key KEY_END) as [_|_].
  { apply Hcont. intros e1. scroll_cases. }
  destruct (Z.eqb_spec key KEY_PPAGE) as [_|_].
  { apply Hcont. intros e1. apply move_cursor_scrolled. }
  destruct (Z.eqb_spec key KEY_NPAGE) as [_|_].
  { apply Hcont. intros e1. apply move_cursor_scrolled. }
  case_bool_decide.
  { apply Hcont. intros e1. apply insert_newline_scrolled. }
  case_bool_decide.
  { apply Hcont. intros e1. apply backspace_scrolled. }
  destruct (Z.eqb_spec key KEY_DC) as [_|_].
  { apply Hcont. intros e1. apply delete_char_scrolled. }
  destruct (Z.eqb_spec key 9) as [_|_].
  { apply Hcont. intros e1. apply insert_char_scrolled. }
  destruct ((32 <=? key) && (key <=? 126)).
  { apply Hcont. intros e1. apply insert_char_scrolled. }
  intros [= <- <-]. by left.
Qed.

(** The editor starts at a valid position. *)
Lemma init_positioned (fname : option str) (w : world) :
  positioned true (init fname w).
Proof.
  assert (Hempty : forall e, cursor_y e = 0 -> cursor_x e = 0 ->
                             positioned true (set_lines [[]] e)).
  { intros e Hy Hx. apply (positioned_at _ _ [] [] []); simpl.
    - done.
    - by rewrite Hy.
    - lia.
    - intros _. rewrite Hx. apply len_nonneg. }
  assert (Hany : forall e ls, truthy ls = true -> cursor_y e = 0 -> cursor_x e = 0 ->
                              lines e = ls -> positioned true e).
  { intros e [|l ls] Hls Hy Hx Hl; [done|].
    apply (positioned_at _ _ [] l ls).
    - done.
    - by rewrite Hy.
    - lia.
    - intros _. rewrite Hx. apply len_nonneg. }
  unfold init. destruct fname as [fn|]; [|by apply Hempty].
  destruct (truthy fn); [|by apply Hempty].
  unfold load_file.
  destruct (files w !! fn) as [content|]; simpl.
  - destruct (read_error w !! fn); simpl.
    + by apply (Hany _ [[]]).
    + destruct (truthy (splitlines (universal_newlines false content))) eqn:Hls.
      * by eapply Hany.
      * by apply (Hany _ [[]]).
  - by apply (Hany _ [[]]).
Qed.

(** In every reachable state the buffer has a line, the cursor row is a row
    of the buffer and the column is not negative: the loop never stops with
    an [IndexError]. *)
Lemma reachable_positioned (s : session) :
  reachable s -> positioned false (ed s).
Proof.
  induction 1 as [fname w|s s' key w Hs IH Hkey Hd].
  - apply positioned_weaken, init_positioned.
  - pose proof (dispatch_positioned false key (Session (ed s) (cut_buffer s) w) IH) as Hk.
    rewrite Hd in Hk. by apply Hk.
Qed.

(** X3: every command other than Ctrl+U (21) keeps the whole cursor
    invariant: if it holds before the key is handled and the command
    returns, it holds afterwards. *)
Theorem dispatch_keeps_cursor_ok (key : Z) (s s' : session) (leave : bool) :
  key <> 21 ->
  cursor_ok (ed s) ->
  dispatch key s = Ok (leave, s') ->
  cursor_ok (ed s').
Proof.
  intros Hkey Hok Hd. apply cursor_ok_positioned.
  apply cursor_ok_positioned in Hok.
  pose proof (dispatch_positioned true key s Hok (fun _ => Hkey)) as Hk.
  by rewrite Hd in Hk.
Qed.

Lemma dispatch_keeps_cursor_ok_witness :
  exists s',
    dispatch 97 (Session hello_world [] quiet_world) = Ok (false, s') /\
    cursor_ok (ed s').
Proof.
  eexists. split; [reflexivity|].
  apply (dispatch_keeps_cursor_ok 97 (Session hello_world [] quiet_world) _ false).
  - by vm_compute.
  - split; [by vm_compute|]. split; [split; by vm_compute|].
    exists (lit "hello"). split; [reflexivity|]. split; by vm_compute.
  - reflexivity.
Defined.

(** * Further properties of the code *)

(** ** Properties of all items of a list *)

Section Content.
Context {A : Type} (P : A -> Prop).

Lemma getitem_Forall (l : list A) (i : Z) (x : A) :
  Forall P l -> getitem l i = Ok x -> P x.
Proof.
  intros Hl. unfold getitem. destruct (item_pos _ _) as [k|]; [|done].
  destruct (l !! k) as [y|] eqn:Hk; [|done]. intros [= <-].
  by eapply Forall_lookup_1.
Qed.

Lemma setitem_Forall (l l' : list A) (i : Z) (v : A) :
  Forall P l -> P v -> setitem l i v = Ok l' -> Forall P l'.
Proof.
  intros Hl Hv. unfold setitem. destruct (item_pos _ _) as [k|]; [|done].
  intros [= <-]. by apply Forall_insert.
Qed.

Lemma pop_Forall (l l' : list A) (i : Z) (x : A) :
  Forall P l -> pop l i = Ok (x, l') -> P x /\ Forall P l'.
Proof.
  intros Hl. unfold pop. destruct (item_pos _ _) as [k|]; [|done].
  destruct (l !! k) as [y|] eqn:Hk; [|done]. intros [= <- <-]. split.
  - by eapply Forall_lookup_1.
  - by apply Forall_delete.
Qed.

Lemma list_insert_Forall (l : list A) (i : Z) (x : A) :
  Forall P l -> P x -> Forall P (list_insert l i x).
Proof.
  intros Hl Hx. unfold list_insert. apply Forall_app. split.
  - by apply Forall_take.
  - constructor; [done|]. by apply Forall_drop.
Qed.

End Content.

(** ** What drawing can raise *)

Lemma shows_ret {A} (a : A) : shows (mret a : result A).
Proof. right. by exists a. Qed.

Lemma shows_bind {A B} (m : result A) (f : A -> result B) :
  shows m -> (forall a, m = Ok a -> shows (f a)) -> shows (m ≫= f).
Proof. intros [->|[a ->]] Hf; [by left | by apply Hf]. Qed.

Lemma for_each_shows {A} (body : A -> result (list drawn)) (items : list A) :
  Forall (fun x => shows (body x)) items -> shows (for_each body items).
Proof.
  induction 1 as [|x items Hx _ IH]; simpl; [apply shows_ret|].
  apply shows_bind; [done|]. intros a _.
  apply shows_bind; [done|]. intros b _. apply shows_ret.
Qed.

Lemma draw_title_bar_shows (w : world) (e : editor) : shows (draw_title_bar w e).
Proof.
  unfold draw_title_bar. cbv zeta.
  apply shows_bind; [apply draw_row_outcome|]. intros a _.
  apply shows_bind; [|intros b _; apply shows_ret].
  destruct (_ <? _); [apply safe_addstr_outcome | apply shows_ret].
Qed.

Lemma draw_message_shows (w : world) (e : editor) : shows (draw_message w e).
Proof.
  unfold draw_message. destruct (truthy (message e)); [apply draw_row_outcome | apply shows_ret].
Qed.

(** The rows of the buffer are read at indices that are not negative when
    the offset is not, so that no row of the screen raises [IndexError]. *)
Lemma draw_buffer_row_shows (w : world) (e : editor) (screen_y : Z) :
  0 <= screen_y + offset_y e -> shows (draw_buffer_row w e screen_y).
Proof.
  intros Hy. unfold draw_buffer_row, get_dimensions. cbv zeta.
  apply shows_bind; [apply safe_addstr_outcome|]. intros a _.
  apply shows_bind; [|intros b _; apply shows_ret].
  destruct (Z.ltb_spec (screen_y + offset_y e) (len (lines e))); [|apply shows_ret].
  destruct (getitem_in_range (lines e) (screen_y + offset_y e)) as [line ->]; [lia|].
  apply safe_addstr_outcome.
Qed.

Lemma draw_buffer_shows (w : world) (e : editor) :
  0 <= offset_y e -> shows (draw_buffer w e).
Proof.
  intros Hy. unfold draw_buffer, get_dimensions, range.
  apply for_each_shows, Forall_forall. intros y [Hy0 _]%elem_of_seqZ.
  apply draw_buffer_row_shows. lia.
Qed.

(** [draw] moves the terminal cursor only to positions of the window, so
    that curses never refuses the move. *)
Lemma draw_cursor_placed (w : world) (e : editor) :
  let y := cursor_y e - offset_y e + 1 in
  let x := cursor_x e - offset_x e in
  (0 <= y <= max_y w - 4 /\ 0 <= x < max_x w /\ draw_cursor w e = Ok (Some (y, x))) \/
  (~ (0 <= y <= max_y w - 4 /\ 0 <= x < max_x w) /\ draw_cursor w e = Ok None).
Proof.
  cbv zeta. unfold draw_cursor, get_dimensions, move, in_window.
  destruct (Z.leb_spec 0 (cursor_y e - offset_y e + 1)); simpl; [|right; split; [lia|done]].
  destruct (Z.ltb_spec (cursor_y e - offset_y e + 1) (max_y w - 4 + 1)); simpl;
    [|right; split; [lia|done]].
  destruct (Z.leb_spec 0 (cursor_x e - offset_x e)); simpl; [|right; split; [lia|done]].
  destruct (Z.ltb_spec (cursor_x e - offset_x e) (max_x w)); simpl;
    [|right; split; [lia|done]].
  destruct (Z.ltb_spec (cursor_y e - offset_y e + 1) (max_y w)); [|lia].
  left. simpl. split; [lia|]. split; [lia|done].
Qed.

Lemma draw_shows (w : world) (e : editor) : 0 <= offset_y e -> shows (draw w e).
Proof.
  intros Hy. unfold draw.
  apply shows_bind; [apply draw_title_bar_shows|]. intros title _.
  apply shows_bind; [by apply draw_buffer_shows|]. intros buffer _.
  apply shows_bind; [apply draw_message_shows|]. intros msg _.
  apply shows_bind; [apply draw_row_outcome|]. intros status _.
  apply shows_bind; [apply draw_row_outcome|]. intros help _.
  destruct (draw_cursor_placed w e) as [(_ & _ & ->)|(_ & ->)]; apply shows_ret.
Qed.

(** ** The command loop as a whole *)

Lemma pasted_reachable : reachable pasted.
Proof.
  apply (reachable_turns 7 (fresh (typing "ab" ++ [11] ++ typing "abc" ++ [21]))).
  - exact (reach_start None
             (World ∅ ∅ ∅ (typing "ab" ++ [11] ++ typing "abc" ++ [21]) [] 24 80)).
  - vm_compute. reflexivity.
Qed.

(** X1: in every state the loop of [run] reaches, the buffer has at least
    one line, the cursor row is a row of the buffer and the cursor column is
    not negative. *)
Theorem reachable_rows_valid (s : session) :
  reachable s ->
  1 <= len (lines (ed s)) /\
  0 <= cursor_y (ed s) <= len (lines (ed s)) - 1 /\
  0 <= cursor_x (ed s).
Proof.
  intros Hs. destruct (reachable_positioned s Hs) as (Hy & Hx & line & Hline & _).
  pose proof (getitem_lt _ _ _ Hy Hline). lia.
Qed.

Lemma reachable_rows_valid_witness :
  1 <= len (lines (ed pasted)) /\
  0 <= cursor_y (ed pasted) <= len (lines (ed pasted)) - 1 /\
  0 <= cursor_x (ed pasted).
Proof. apply (reachable_rows_valid pasted). exact pasted_reachable. Defined.

(** A turn of the loop keeps the cursor row inside the buffer and the
    offset of the viewport non-negative, so that neither a command nor the
    drawing of the screen reads a line that is not there. *)
Lemma run_loop_keeps (fuel : nat) (s : session) :
  positioned false (ed s) -> 0 <= offset_y (ed s) -> keeps false ed (run_loop fuel s).
Proof.
  revert s. induction fuel as [|fuel IH]; intros s Hs Ho; simpl; [done|].
  destruct (draw_shows (env s) (ed s) Ho) as [->|[fr ->]]; [done|].
  cbn [mbind result_bind].
  unfold getch. destruct (keys (env s)) as [|key ks]; simpl; [done|].
  pose proof (dispatch_positioned false key
                (Session (ed s) (cut_buffer s) (set_keys ks (env s))) Hs) as Hd.
  pose proof (dispatch_scrolled key
                (Session (ed s) (cut_buffer s) (set_keys ks (env s)))) as Hscroll.
  destruct (dispatch key _) as [[leave s']| | | |]; simpl in *; try done.
  - specialize (Hd ltac:(done)). specialize (Hscroll leave s' eq_refl).
    destruct leave; [done|]. apply IH; [done|].
    destruct Hd as (Hy & _). unfold scrolled in Hscroll. lia.
  - by apply Hd.
Qed.

(** X2: whatever the file named on the command line, the files, the keys
    pressed, the text typed at the prompts and the size of the terminal,
    [main] never ends with an uncaught [IndexError], neither in a command
    nor while the screen is drawn. *)
Theorem main_never_index_error (fname : option str) (w : world) :
  main fname w <> IndexError.
Proof.
  unfold main, run.
  pose proof (run_loop_keeps (S (length (keys w))) (Session (init fname w) [] w)) as H.
  intros Heq. rewrite Heq in H. apply H; cbn [ed].
  - apply positioned_weaken, init_positioned.
  - unfold init, load_file.
    repeat match goal with
           | |- context [match ?x with _ => _ end] => destruct x; simpl
           end; done.
Qed.

(** X4: the editor starts with the cursor at row 0, column 0, on a buffer
    of at least one line, with the cursor invariant holding and the buffer
    not modified, whether or not a file is named, exists or can be read. *)
Theorem init_cursor_ok (fname : option str) (w : world) :
  cursor_ok (init fname w) /\
  cursor_y (init fname w) = 0 /\ cursor_x (init fname w) = 0 /\
  modified (init fname w) = false.
Proof.
  split; [apply cursor_ok_positioned, init_positioned|].
  unfold init, load_file.
  repeat match goal with
         | |- context [match ?x with _ => _ end] => destruct x; simpl
         end; done.
Qed.

(** ** Cursor motion *)

Lemma getitem_nil {A} (i : Z) : getitem (@nil A) i = IndexError.
Proof. unfold getitem. destruct (item_pos _ _); [by rewrite lookup_nil | done]. Qed.

(** X5: on a buffer with at least one line, [move_cursor] succeeds and
    re-establishes the cursor invariant wherever the cursor was before; it
    leaves the lines alone and clears the message.  On an empty list of
    lines it raises [IndexError]. *)
Theorem move_cursor_clamps (dy dx : Z) (w : world) (e : editor) :
  (lines e <> [] ->
   exists e', move_cursor dy dx w e = Ok e' /\
              cursor_ok e' /\ lines e' = lines e /\ message e' = []) /\
  (lines e = [] -> move_cursor dy dx w e = IndexError).
Proof.
  split.
  - intros Hne.
    assert (Hlen : 1 <= len (lines e)).
    { destruct (lines e); [done|]. rewrite len_cons. pose proof (len_nonneg l0). lia. }
    unfold move_cursor. simpl.
    set (y := Z.max 0 (Z.min (len (lines e) - 1) (cursor_y e + dy))).
    destruct (getitem_in_range (lines e) y) as [line Hline]; [lia|].
    rewrite Hline. simpl. eexists. split; [reflexivity|].
    rewrite adjust_scroll_lines, adjust_scroll_message. simpl.
    split; [|done]. apply cursor_ok_positioned, positioned_adjust_scroll.
    pose proof (len_nonneg line).
    split; simpl; [lia|]. split; [lia|]. exists line. split; [done|]. lia.
  - intros Hempty. unfold move_cursor. simpl. rewrite Hempty.
    by rewrite getitem_nil.
Qed.

Lemma move_cursor_clamps_witness :
  exists e', move_cursor 0 0 (env pasted) (ed pasted) = Ok e' /\
             cursor_ok e' /\ lines e' = lines (ed pasted) /\ message e' = [].
Proof.
  apply (proj1 (move_cursor_clamps 0 0 (env pasted) (ed pasted))). by vm_compute.
Defined.

(** ** The viewport *)

Lemma adjust_scroll_in_view (w : world) (e : editor) :
  1 <= max_y w - 4 -> 1 <= max_x w ->
  offset_y (adjust_scroll w e) <= cursor_y e < offset_y (adjust_scroll w e) + (max_y w - 4) /\
  offset_x (adjust_scroll w e) <= cursor_x e < offset_x (adjust_scroll w e) + max_x w.
Proof.
  intros Hh Hw. unfold adjust_scroll, get_dimensions.
  destruct (Z.ltb_spec (cursor_y e) (offset_y e));
    [|destruct (Z.leb_spec (offset_y e + (max_y w - 4)) (cursor_y e))]; simpl;
    (destruct (Z.ltb_spec (cursor_x e) (offset_x e));
     [|destruct (Z.leb_spec (offset_x e + max_x w) (cursor_x e))]); simpl; lia.
Qed.

Lemma adjust_scroll_fixed (w : world) (e : editor) :
  offset_y e <= cursor_y e < offset_y e + (max_y w - 4) ->
  offset_x e <= cursor_x e < offset_x e + max_x w ->
  adjust_scroll w e = e.
Proof.
  intros Hy Hx. unfold adjust_scroll, get_dimensions.
  destruct (Z.ltb_spec (cursor_y e) (offset_y e)); [lia|].
  destruct (Z.leb_spec (offset_y e + (max_y w - 4)) (cursor_y e)); [lia|].
  destruct (Z.ltb_spec (cursor_x e) (offset_x e)); [lia|].
  destruct (Z.leb_spec (offset_x e + max_x w) (cursor_x e)); [lia|]. done.
Qed.

(** X6: on a terminal with at least one text row and one column, after
    [adjust_scroll] the cursor lies inside the window on both axes:
    offset <= cursor < offset + size.  The cursor itself is not moved. *)
Theorem adjust_scroll_shows_cursor (w : world) (e : editor) :
  1 <= max_y w - 4 -> 1 <= max_x w ->
  cursor_y (adjust_scroll w e) = cursor_y e /\
  cursor_x (adjust_scroll w e) = cursor_x e /\
  offset_y (adjust_scroll w e) <= cursor_y e
    < offset_y (adjust_scroll w e) + (max_y w - 4) /\
  offset_x (adjust_scroll w e) <= cursor_x e
    < offset_x (adjust_scroll w e) + max_x w.
Proof.
  intros Hh Hw. split; [apply adjust_scroll_cursor_y|].
  split; [apply adjust_scroll_cursor_x|]. by apply adjust_scroll_in_view.
Qed.

Lemma adjust_scroll_shows_cursor_witness :
  cursor_y (adjust_scroll quiet_world (ed pasted)) = cursor_y (ed pasted) /\
  cursor_x (adjust_scroll quiet_world (ed pasted)) = cursor_x (ed pasted) /\
  offset_y (adjust_scroll quiet_world (ed pasted)) <= cursor_y (ed pasted)
    < offset_y (adjust_scroll quiet_world (ed pasted)) + (max_y quiet_world - 4) /\
  offset_x (adjust_scroll quiet_world (ed pasted)) <= cursor_x (ed pasted)
    < offset_x (adjust_scroll quiet_world (ed pasted)) + max_x quiet_world.
Proof.
  apply (adjust_scroll_shows_cursor quiet_world (ed pasted)); by vm_compute.
Defined.

(** X7: [adjust_scroll] changes nothing when the cursor is already inside
    the window, and on a terminal with at least one text row and one column
    a second [adjust_scroll] changes nothing after the first. *)
Theorem adjust_scroll_stable (w : world) (e : editor) :
  (offset_y e <= cursor_y e < offset_y e + (max_y w - 4) ->
   offset_x e <= cursor_x e < offset_x e + max_x w ->
   adjust_scroll w e = e) /\
  (1 <= max_y w - 4 -> 1 <= max_x w ->
   adjust_scroll w (adjust_scroll w e) = adjust_scroll w e).
Proof.
  split; [apply adjust_scroll_fixed|].
  intros Hh Hw. destruct (adjust_scroll_in_view w e Hh Hw) as [Hy Hx].
  apply adjust_scroll_fixed.
  - by rewrite adjust_scroll_cursor_y.
  - by rewrite adjust_scroll_cursor_x.
Qed.

Lemma adjust_scroll_stable_witness :
  adjust_scroll quiet_world hello_world = hello_world /\
  adjust_scroll quiet_world (adjust_scroll quiet_world (ed pasted))
  = adjust_scroll quiet_world (ed pasted).
Proof.
  destruct (adjust_scroll_stable quiet_world hello_world) as [Hfixed _].
  destruct (adjust_scroll_stable quiet_world (ed pasted)) as [_ Htwice].
  split.
  - apply Hfixed; split; by vm_compute.
  - apply Htwice; by vm_compute.
Defined.

(** ** Drawing *)

Lemma has_nul_cons (c : N) (s : str) :
  c <> 0%N -> has_nul s = false -> has_nul (c :: s) = false.
Proof. rewrite !has_nul_false, elem_of_cons. intros Hc Hs [Heq|Hin]; by auto. Qed.

Lemma has_nul_digits (d : Decimal.uint) :
  has_nul (lit (NilEmpty.string_of_uint d)) = false.
Proof.
  induction d; [done|..]; by apply has_nul_cons.
Qed.

(** The decimal digits of a number hold no U+0000. *)
Lemma has_nul_str_of_int (n : Z) : has_nul (str_of_int n) = false.
Proof.
  unfold str_of_int, NilZero.string_of_int, NilZero.string_of_uint.
  destruct (Z.to_int n) as [d|d].
  - destruct d; try done; by apply has_nul_cons; [|apply has_nul_digits].
  - apply has_nul_cons; [done|].
    destruct d; try done; by apply has_nul_cons; [|apply has_nul_digits].
Qed.

Lemma draw_title_bar_ok (w : world) (e : editor) :
  has_nul (or_else (filename e) []) = false ->
  exists ds, draw_title_bar w e = Ok ds.
Proof.
  intros Hname. unfold draw_title_bar. cbv zeta.
  destruct (draw_row_ok w 0 (lit "  GNU nano clone - Atomo") eq_refl) as [a ->].
  cbn [mbind result_bind].
  destruct (_ <? _); [|by eexists].
  destruct (safe_addstr_ok w 0
              ((max_x w - len (lit " File: " ++ or_else (filename e) (lit "[New Buffer]")
                                 ++ (if modified e then lit " *" else []) ++ lit " "))
                 `div` 2)
              (lit " File: " ++ or_else (filename e) (lit "[New Buffer]")
                 ++ (if modified e then lit " *" else []) ++ lit " ")) as [b ->];
    [|by eexists].
  apply has_nul_app; [done|]. apply has_nul_app.
  - destruct (filename e) as [[|c fn]|]; done.
  - apply has_nul_app; [by destruct (modified e) | done].
Qed.

Lemma draw_buffer_ok (w : world) (e : editor) :
  0 <= offset_y e ->
  Forall (fun l => has_nul l = false) (lines e) ->
  exists ds, draw_buffer w e = Ok ds.
Proof.
  intros Hy Hlines. unfold draw_buffer, get_dimensions, range.
  apply for_each_ok, Forall_forall. intros y [Hy0 _]%elem_of_seqZ.
  unfold draw_buffer_row, get_dimensions. cbv zeta.
  destruct (safe_addstr_ok w (y + 1) 0 (spaces (max_x w)) (has_nul_spaces _)) as [a ->].
  cbn [mbind result_bind].
  destruct (Z.ltb_spec (y + offset_y e) (len (lines e))); [|by eexists].
  destruct (getitem_in_range (lines e) (y + offset_y e)) as [line Hline]; [lia|].
  rewrite Hline. cbn [mbind result_bind].
  destruct (safe_addstr_ok w (y + 1) 0
              (slice line (offset_x e) (offset_x e + max_x w))) as [b ->];
    [|by eexists].
  apply has_nul_slice.
  by apply (getitem_Forall (fun l => has_nul l = false) _ _ _ Hlines Hline).
Qed.

Lemma draw_message_ok (w : world) (e : editor) :
  has_nul (message e) = false -> exists ds, draw_message w e = Ok ds.
Proof.
  intros Hm. unfold draw_message. destruct (truthy (message e)); [|by eexists].
  apply draw_row_ok. by apply has_nul_app.
Qed.

Lemma draw_status_bar_ok (w : world) (e : editor) :
  exists ds, draw_status_bar w e = Ok ds.
Proof.
  unfold draw_status_bar. apply draw_row_ok.
  repeat (apply has_nul_app; [first [done | apply has_nul_str_of_int]|]). done.
Qed.

Lemma draw_help_bar_ok (w : world) : exists ds, draw_help_bar w = Ok ds.
Proof. unfold draw_help_bar. apply draw_row_ok. by vm_compute. Qed.

(** X8: [draw] moves the terminal cursor only to the place of the editor's
    cursor in the viewport, on the title row or a text row and on a column
    of the screen.  On a terminal with at least one text row and one
    column, whenever [draw] after [adjust_scroll] returns it has placed the
    cursor, on one of the text rows 1 .. height.  [draw] returns when the
    offset of the viewport is not negative and neither the file name, the
    message nor a line holds U+0000; with a text that does it raises
    [ValueError], and nothing else. *)
Theorem draw_cursor_in_text_area (w : world) (e : editor) :
  (0 <= offset_y e -> presentable e -> succeeds (draw w e) = true) /\
  (0 <= offset_y e -> shows (draw w e)) /\
  (forall fr y x,
     draw w e = Ok fr -> cursor_at fr = Some (y, x) ->
     0 <= y <= max_y w - 4 /\ 0 <= x < max_x w /\
     y = cursor_y e - offset_y e + 1 /\ x = cursor_x e - offset_x e) /\
  (1 <= max_y w - 4 -> 1 <= max_x w ->
   forall fr,
     draw w (adjust_scroll w e) = Ok fr ->
     exists y x,
       cursor_at fr = Some (y, x) /\
       1 <= y <= max_y w - 4 /\ 0 <= x < max_x w /\
       y = cursor_y e - offset_y (adjust_scroll w e) + 1 /\
       x = cursor_x e - offset_x (adjust_scroll w e)).
Proof.
  assert (Hcursor : forall e0 fr,
             draw w e0 = Ok fr -> draw_cursor w e0 = Ok (cursor_at fr)).
  { intros e0 fr. unfold draw.
    destruct (draw_title_bar w e0); try done. cbn [mbind result_bind].
    destruct (draw_buffer w e0); try done. cbn [mbind result_bind].
    destruct (draw_message w e0); try done. cbn [mbind result_bind].
    destruct (draw_status_bar w e0); try done. cbn [mbind result_bind].
    destruct (draw_help_bar w); try done. cbn [mbind result_bind].
    destruct (draw_cursor w e0); try done. by intros [= <-]. }
  split; [|split; [|split]].
  - intros Hy (Hname & Hmsg & Hlines). unfold draw.
    destruct (draw_title_bar_ok w e Hname) as [a ->].
    destruct (draw_buffer_ok w e Hy Hlines) as [b ->].
    destruct (draw_message_ok w e Hmsg) as [c ->].
    destruct (draw_status_bar_ok w e) as [d ->].
    destruct (draw_help_bar_ok w) as [f ->].
    by destruct (draw_cursor_placed w e) as [(_ & _ & ->)|(_ & ->)].
  - apply draw_shows.
  - intros fr y x Hdraw Hat. apply Hcursor in Hdraw. rewrite Hat in Hdraw.
    destruct (draw_cursor_placed w e) as [(Hy & Hx & Heq)|(_ & Heq)];
      rewrite Heq in Hdraw; [|done].
    injection Hdraw as <- <-. lia.
  - intros Hh Hw fr Hdraw. apply Hcursor in Hdraw.
    destruct (adjust_scroll_in_view w e Hh Hw) as [Hy Hx].
    destruct (draw_cursor_placed w (adjust_scroll w e)) as [(Hy' & Hx' & Heq)|(Hout & _)].
    + rewrite Heq in Hdraw. injection Hdraw as <-.
      rewrite adjust_scroll_cursor_y, adjust_scroll_cursor_x in *.
      eexists _, _. split; [reflexivity|]. lia.
    + rewrite adjust_scroll_cursor_y, adjust_scroll_cursor_x in Hout. lia.
Qed.

Lemma draw_cursor_in_text_area_witness :
  succeeds (draw quiet_world hello_world) = true /\
  exists fr,
    draw quiet_world (adjust_scroll quiet_world hello_world) = Ok fr /\
    exists y x,
      cursor_at fr = Some (y, x) /\
      1 <= y <= max_y quiet_world - 4 /\ 0 <= x < max_x quiet_world /\
      y = cursor_y hello_world - offset_y (adjust_scroll quiet_world hello_world) + 1 /\
      x = cursor_x hello_world - offset_x (adjust_scroll quiet_world hello_world).
Proof.
  destruct (draw_cursor_in_text_area quiet_world hello_world) as (Hok & _ & _ & Hview).
  split.
  - apply Hok; [by vm_compute|]. split; [reflexivity|]. split; [reflexivity|].
    by repeat constructor.
  - destruct (draw quiet_world (adjust_scroll quiet_world hello_world))
      as [fr| | | |] eqn:Hdraw; try (by vm_compute in Hdraw).
    exists fr. split; [reflexivity|].
    apply Hview; [by vm_compute | by vm_compute | reflexivity].
Defined.




(** ** Editing round trips *)

(** Reads the fields of an editor through [adjust_scroll] and the setters. *)
Ltac scroll_simpl :=
  repeat progress
    (rewrite ?adjust_scroll_cursor_y, ?adjust_scroll_cursor_x,
       ?adjust_scroll_lines, ?adjust_scroll_modified, ?adjust_scroll_message;
     simpl).

Lemma slice_to_app_len {A} (a b : list A) : slice_to (a ++ b) (len a) = a.
Proof.
  unfold slice_to. rewrite clip_in.
  - unfold len. by rewrite Nat2Z.id, take_app_length.
  - rewrite len_app. pose proof (len_nonneg a). pose proof (len_nonneg b). lia.
Qed.

Lemma slice_from_app_len {A} (a b : list A) : slice_from (a ++ b) (len a) = b.
Proof.
  unfold slice_from. rewrite clip_in.
  - unfold len. by rewrite Nat2Z.id, drop_app_length.
  - rewrite len_app. pose proof (len_nonneg a). pose proof (len_nonneg b). lia.
Qed.

(** X10: with the cursor at a valid position, typing one character and
    pressing Backspace gives back the lines and the cursor position. *)
Theorem insert_then_backspace (c : N) (w : world) (e : editor) (line : str) :
  0 <= cursor_y e ->
  getitem (lines e) (cursor_y e) = Ok line ->
  0 <= cursor_x e <= len line ->
  exists e1 e2,
    insert_char [c] w e = Ok e1 /\
    backspace w e1 = Ok e2 /\
    lines e2 = lines e /\
    cursor_y e2 = cursor_y e /\ cursor_x e2 = cursor_x e.
Proof.
  intros Hy Hline Hx.
  destruct (getitem_split _ _ _ Hy Hline) as (l1 & l2 & Hl & Hlen).
  destruct e as [fn ls cy cx oy ox md msg mt]; simpl in *. subst ls cy.
  set (a := slice_to line cx). set (b := slice_from line cx).
  assert (Hab : a ++ b = line) by apply slice_to_from.
  assert (Ha : len a = cx) by (by apply len_slice_to).
  eexists _, _. split.
  { unfold insert_char; simpl. rewrite Hline; simpl.
    rewrite setitem_middle; simpl. fold a b. reflexivity. }
  split.
  { unfold backspace.
    rewrite adjust_scroll_cursor_y, adjust_scroll_cursor_x, adjust_scroll_lines; simpl.
    destruct (Z.ltb_spec 0 (cx + 1)); [|lia].
    rewrite getitem_middle; simpl. rewrite setitem_middle; simpl.
    replace (cx + 1 - 1) with (len a) by lia.
    rewrite slice_to_app_len.
    replace (a ++ c :: b) with ((a ++ [c]) ++ b) by (by rewrite <- app_assoc).
    replace (cx + 1) with (len (a ++ [c])) by (rewrite len_snoc; lia).
    rewrite slice_from_app_len, Hab. reflexivity. }
  scroll_simpl. done.
Qed.

Lemma insert_then_backspace_witness :
  exists e1 e2,
    insert_char [120%N] quiet_world hello_world = Ok e1 /\
    backspace quiet_world e1 = Ok e2 /\
    lines e2 = lines hello_world /\
    cursor_y e2 = cursor_y hello_world /\ cursor_x e2 = cursor_x hello_world.
Proof.
  apply (insert_then_backspace 120%N quiet_world hello_world (lit "hello")).
  - by vm_compute.
  - reflexivity.
  - split; by vm_compute.
Defined.

(** ** Cut and paste *)

(** The Ctrl+K branch on lines split at the cursor row. *)
Lemma cut_line_split (e : editor) (cut : str) (w : world)
    (l1 : list str) (line : str) (l2 : list str) :
  lines e = l1 ++ line :: l2 -> cursor_y e = len l1 ->
  cut_line (Session e cut w) =
  Ok (Session
        (set_message_type info
           (set_message (lit "Cut line")
              (set_modified true
                 (set_cursor_x 0
                    (let e1 := set_lines (if negb (truthy (l1 ++ l2)) then [[]]
                                          else l1 ++ l2) e in
                     if len (lines e1) <=? cursor_y e1
                     then set_cursor_y (len (lines e1) - 1) e1 else e1)))))
        line w).
Proof.
  intros Hl Hy. unfold cut_line. simpl. rewrite Hl, Hy.
  assert (Htruthy : truthy (l1 ++ line :: l2) = true) by (by destruct l1).
  rewrite Htruthy, getitem_middle. simpl. rewrite pop_middle. simpl.
  destruct e; simpl in *. by subst.
Qed.

(** X13: on a row that is not the last, cutting a non-empty line and
    pasting at once gives back the lines; the cut line is in the clipboard,
    the cursor is at the start of the row and the buffer counts as
    modified. *)
Theorem cut_then_paste (s : session) (line : str) :
  0 <= cursor_y (ed s) < len (lines (ed s)) - 1 ->
  getitem (lines (ed s)) (cursor_y (ed s)) = Ok line ->
  truthy line = true ->
  exists s1 s2,
    dispatch 11 s = Ok (false, s1) /\
    cut_buffer s1 = line /\
    len (lines (ed s1)) = len (lines (ed s)) - 1 /\
    dispatch 21 s1 = Ok (false, s2) /\
    lines (ed s2) = lines (ed s) /\
    cursor_y (ed s2) = cursor_y (ed s) /\ cursor_x (ed s2) = 0 /\
    modified (ed s2) = true.
Proof.
  destruct s as [e cut w]. simpl. intros [Hy Hlast] Hline Hne.
  destruct (getitem_split _ _ _ Hy Hline) as (l1 & l2 & Hl & Hlen).
  symmetry in Hlen.
  assert (truthy (l1 ++ l2) = true /\ len l1 < len (l1 ++ l2)) as [Ht Hlt].
  { rewrite Hl, len_app, len_cons in Hlast. rewrite len_app.
    destruct l2 as [|next l3]; [unfold len in *; simpl in *; lia|].
    split; [by destruct l1|]. rewrite len_cons. pose proof (len_nonneg l3). lia. }
  eexists _, _. split.
  { unfold dispatch. simpl. rewrite (cut_line_split e cut w l1 line l2 Hl Hlen).
    reflexivity. }
  simpl. rewrite Ht. simpl. rewrite Hlen.
  destruct (Z.leb_spec (len (l1 ++ l2)) (len l1)); [lia|]. simpl.
  split; [done|]. split; [rewrite Hl, !len_app, len_cons; lia|].
  destruct line as [|c0 line']; [done|]. split; [reflexivity|].
  simpl. rewrite Hlen, list_insert_middle. by rewrite Hl.
Qed.

Lemma cut_then_paste_witness :
  exists s1 s2,
    dispatch 11 (Session hello_world [] quiet_world) = Ok (false, s1) /\
    cut_buffer s1 = lit "hello" /\
    len (lines (ed s1)) = len (lines hello_world) - 1 /\
    dispatch 21 s1 = Ok (false, s2) /\
    lines (ed s2) = lines hello_world /\
    cursor_y (ed s2) = cursor_y hello_world /\ cursor_x (ed s2) = 0 /\
    modified (ed s2) = true.
Proof.
  apply (cut_then_paste (Session hello_world [] quiet_world) (lit "hello")).
  - split; by vm_compute.
  - reflexivity.
  - reflexivity.
Defined.

(** X14: cutting the last row of a buffer with two or more rows moves the
    cursor up one row.  When the cut line is not empty, a paste at once puts
    it back above the row that was before it: the last two rows come back
    swapped.  When the cut line is empty, the clipboard is empty, the paste
    does nothing and the row is gone. *)
Theorem cut_last_then_paste_swaps (s : session) (above : list str) (prev line : str) :
  lines (ed s) = above ++ [prev; line] ->
  cursor_y (ed s) = len above + 1 ->
  exists s1 s2,
    dispatch 11 s = Ok (false, s1) /\
    lines (ed s1) = above ++ [prev] /\
    cursor_y (ed s1) = len above /\
    cut_buffer s1 = line /\
    dispatch 21 s1 = Ok (false, s2) /\
    cursor_y (ed s2) = len above /\
    (truthy line = true -> lines (ed s2) = above ++ [line; prev]) /\
    (truthy line = false -> s2 = s1).
Proof.
  destruct s as [e cut w]. simpl. intros Hl Hy.
  assert (Hl' : lines e = (above ++ [prev]) ++ line :: []) by (by rewrite <- app_assoc).
  assert (Hy' : cursor_y e = len (above ++ [prev])) by (by rewrite len_snoc).
  assert (Ht : truthy ((above ++ [prev]) ++ []) = true) by (by destruct above).
  eexists _, _. split.
  { unfold dispatch. simpl.
    rewrite (cut_line_split e cut w (above ++ [prev]) line [] Hl' Hy'). reflexivity. }
  simpl. rewrite Ht. simpl. rewrite Hy', app_nil_r.
  destruct (Z.leb_spec (len (above ++ [prev])) (len (above ++ [prev]))); [|lia].
  simpl. split; [done|]. split; [rewrite len_snoc; lia|]. split; [done|].
  destruct line as [|c0 line'].
  - split; [reflexivity|]. simpl. split; [rewrite len_snoc; lia|]. done.
  - split; [reflexivity|]. simpl. rewrite len_snoc.
    replace (len above + 1 - 1) with (len above) by lia.
    rewrite list_insert_middle. done.
Qed.

Lemma cut_last_then_paste_swaps_witness :
  exists s1 s2,
    dispatch 11 (Session (set_cursor_y 1 hello_world) [] quiet_world) = Ok (false, s1) /\
    lines (ed s1) = [] ++ [lit "hello"] /\
    cursor_y (ed s1) = len (@nil str) /\
    cut_buffer s1 = lit "world" /\
    dispatch 21 s1 = Ok (false, s2) /\
    cursor_y (ed s2) = len (@nil str) /\
    (truthy (lit "world") = true -> lines (ed s2) = [] ++ [lit "world"; lit "hello"]) /\
    (truthy (lit "world") = false -> s2 = s1).
Proof.
  apply (cut_last_then_paste_swaps (Session (set_cursor_y 1 hello_world) [] quiet_world)
           [] (lit "hello") (lit "world")); reflexivity.
Defined.

(** X15: cutting an empty line empties the clipboard, whatever it held:
    the paste that follows inserts nothing and changes nothing. *)
Theorem cut_empty_line_clears_clipboard (s : session) :
  0 <= cursor_y (ed s) ->
  getitem (lines (ed s)) (cursor_y (ed s)) = Ok [] ->
  exists s1,
    dispatch 11 s = Ok (false, s1) /\
    cut_buffer s1 = [] /\
    dispatch 21 s1 = Ok (false, s1).
Proof.
  destruct s as [e cut w]. simpl. intros Hy Hline.
  destruct (getitem_split _ _ _ Hy Hline) as (l1 & l2 & Hl & Hlen).
  symmetry in Hlen.
  eexists. split.
  { unfold dispatch. simpl. rewrite (cut_line_split e cut w l1 [] l2 Hl Hlen).
    reflexivity. }
  simpl. split; [done|]. reflexivity.
Qed.

Lemma cut_empty_line_clears_clipboard_witness :
  exists s1,
    dispatch 11 (Session (init None quiet_world) (lit "kept") quiet_world)
    = Ok (false, s1) /\
    cut_buffer s1 = [] /\
    dispatch 21 s1 = Ok (false, s1).
Proof.
  apply (cut_empty_line_clears_clipboard
           (Session (init None quiet_world) (lit "kept") quiet_world)).
  - by vm_compute.
  - reflexivity.
Defined.

(** ** Search *)

(** X16: when a search for a non-empty query, started from a cursor on a
    row of the buffer, ends with a message of kind success, the cursor is on
    a row of the buffer at a column where the query occurs, so the cursor
    invariant holds there. *)
Theorem search_lands_on_match (q : str) (w : world) (e e' : editor) (line : str) :
  truthy q = true ->
  0 <= cursor_y e ->
  getitem (lines e) (cursor_y e) = Ok line ->
  0 <= cursor_x e ->
  search q w e = Ok e' ->
  message_type e' = success ->
  exists l,
    getitem (lines e') (cursor_y e') = Ok l /\
    occurs_at q l (cursor_x e') /\
    0 <= cursor_x e' <= len l.
Proof.
  intros Hq Hy Hline Hx Hsearch Hkind.
  destruct (search_cases w e q line Hq Hy Hline Hx) as (e1 & He1 & Hlines & Hcase).
  rewrite Hsearch in He1. injection He1 as <-.
  destruct Hcase as [(c & (Hc & Hocc & _) & Hy' & Hx' & _)
                    |[(_ & r & l & c & Hr & _ & Hl & (_ & Hocc & _) & Hy' & Hx' & _)
                    |[(_ & _ & r & l & c & Hr & _ & Hl & (_ & Hocc & _) & Hy' & Hx' & _)
                    |(_ & _ & ->)]]].
  - exists line. rewrite Hlines, Hy', Hx'. split; [done|]. split; [done|].
    by apply occurs_at_le in Hocc.
  - exists l. rewrite Hlines, Hy', Hx'. split; [done|]. split; [done|].
    by apply occurs_at_le in Hocc.
  - exists l. rewrite Hlines, Hy', Hx'. split; [done|]. split; [done|].
    by apply occurs_at_le in Hocc.
  - done.
Qed.

Lemma search_lands_on_match_witness :
  exists l,
    getitem (lines (set_message_type success
                      (set_message (msg_found (lit "l"))
                         (set_cursor_x 3 hello_world))))
            (cursor_y hello_world) = Ok l /\
    occurs_at (lit "l") l 3 /\ 0 <= 3 <= len l.
Proof.
  apply (search_lands_on_match (lit "l") quiet_world hello_world
           (set_message_type success
              (set_message (msg_found (lit "l")) (set_cursor_x 3 hello_world)))
           (lit "hello")).
  - reflexivity.
  - by vm_compute.
  - reflexivity.
  - by vm_compute.
  - reflexivity.
  - reflexivity.
Defined.

Lemma adjust_scroll_message_type w e :
  message_type (adjust_scroll w e) = message_type e.
Proof. apply adjust_scroll_frame. Qed.

(** A search that returns either reports a find, of kind success, or ends
    in the not-found state. *)
Lemma search_kind (q : str) (w : world) (e e' : editor) :
  truthy q = true ->
  search q w e = Ok e' ->
  (message_type e' = success /\
   (message e' = msg_found q \/ message e' = msg_wrapped q)) \/
  e' = not_found_state q e.
Proof.
  intros Hq. unfold search. rewrite Hq. cbn [negb].
  destruct (getitem (lines e) (cursor_y e)) as [line| | | |];
    cbn [mbind result_bind]; [|done..].
  destruct (negb (find (slice_from line (cursor_x e + 1)) q =? -1)).
  { intros [= <-]. left.
    rewrite adjust_scroll_message_type, adjust_scroll_message.
    split; [reflexivity | left; reflexivity]. }
  destruct (search_rows (lines e) q (range (cursor_y e + 1) (len (lines e))))
    as [[[y pos]|]| | | |]; cbn [mbind result_bind]; [| |done..].
  { intros [= <-]. left.
    rewrite adjust_scroll_message_type, adjust_scroll_message.
    split; [reflexivity | left; reflexivity]. }
  destruct (search_rows (lines e) q (range 0 (cursor_y e)))
    as [[[y pos]|]| | | |]; cbn [mbind result_bind]; [| |done..].
  { intros [= <-]. left.
    rewrite adjust_scroll_message_type, adjust_scroll_message.
    split; [reflexivity | right; reflexivity]. }
  intros [= <-]. by right.
Qed.

(** X17: if a non-empty query occurs after the cursor on its row, or
    anywhere on another row of the buffer, the search succeeds: it ends with
    a message of kind success and never with the not-found message. *)
Theorem search_finds_occurrence (q : str) (w : world) (e : editor) (line : str) :
  truthy q = true ->
  0 <= cursor_y e ->
  getitem (lines e) (cursor_y e) = Ok line ->
  0 <= cursor_x e ->
  ((exists c, cursor_x e + 1 <= c /\ occurs_at q line c) \/
   (exists r l c, 0 <= r < len (lines e) /\ r <> cursor_y e /\
                  getitem (lines e) r = Ok l /\ occurs_at q l c)) ->
  exists e',
    search q w e = Ok e' /\
    message_type e' = success /\
    (message e' = msg_found q \/ message e' = msg_wrapped q).
Proof.
  intros Hq Hy Hline Hx Hocc.
  destruct (search_cases w e q line Hq Hy Hline Hx) as (e' & Hsearch & _ & Hcase).
  exists e'. split; [done|].
  destruct (search_kind q w e e' Hq Hsearch) as [Hfound|Heq]; [done|].
  exfalso.
  destruct Hcase as [(c & _ & _ & _ & Hmsg)
                    |[(_ & r & l & c & _ & _ & _ & _ & _ & _ & Hmsg)
                    |[(_ & _ & r & l & c & _ & _ & _ & _ & _ & _ & Hmsg)
                    |(Habs & Hrows & _)]]].
  - rewrite Heq in Hmsg. by vm_compute in Hmsg.
  - rewrite Heq in Hmsg. by vm_compute in Hmsg.
  - rewrite Heq in Hmsg. by vm_compute in Hmsg.
  - destruct Hocc as [(c & Hc & Hocc)|(r & l & c & Hr & Hne & Hl & Hocc)].
    + by apply (Habs c).
    + apply (Hrows r Hr Hne l Hl c); [by eapply occurs_at_nonneg | done].
Qed.

Lemma search_finds_occurrence_witness :
  exists e',
    search (lit "foo") quiet_world foo_bar_foo = Ok e' /\
    message_type e' = success /\
    (message e' = msg_found (lit "foo") \/ message e' = msg_wrapped (lit "foo")).
Proof.
  apply (search_finds_occurrence (lit "foo") quiet_world foo_bar_foo (lit "foo")).
  - reflexivity.
  - by vm_compute.
  - reflexivity.
  - by vm_compute.
  - right. exists 2, (lit "foo"), 0. split; [split; by vm_compute|].
    split; [by vm_compute|]. split; [reflexivity|]. by exists [], [].
Defined.

(** ** The modified flag *)

(** Splits a goal about the outcome of a command into the outcomes of the
    steps of the command. *)
Ltac outcome_cases :=
  unfold mbind, result_bind, mret, result_ret; cbv zeta;
  repeat case_match; simplify_eq; try done;
  repeat match goal with
         | |- Ok _ = Ok _ -> _ => intros [= <-]
         end;
  scroll_simpl.

Lemma insert_char_marks (text : str) (w : world) (e e' : editor) :
  insert_char text w e = Ok e' -> modified e' = true.
Proof. unfold insert_char. outcome_cases. done. Qed.

Lemma insert_newline_marks (w : world) (e e' : editor) :
  insert_newline w e = Ok e' -> modified e' = true.
Proof. unfold insert_newline. outcome_cases. done. Qed.

Lemma backspace_marks (w : world) (e e' : editor) :
  backspace w e = Ok e' -> lines e' = lines e \/ modified e' = true.
Proof. unfold backspace. outcome_cases; auto. Qed.

Lemma delete_char_marks (e e' : editor) :
  delete_char e = Ok e' -> lines e' = lines e \/ modified e' = true.
Proof. unfold delete_char. outcome_cases; auto. Qed.

Lemma move_cursor_lines (dy dx : Z) (w : world) (e e' : editor) :
  move_cursor dy dx w e = Ok e' -> lines e' = lines e.
Proof. unfold move_cursor. outcome_cases. done. Qed.

Lemma search_lines (q : str) (w : world) (e e' : editor) :
  search q w e = Ok e' -> lines e' = lines e.
Proof. unfold search. outcome_cases; done. Qed.

Lemma cut_line_marks (s s' : session) :
  cut_line s = Ok s' -> lines (ed s') = lines (ed s) \/ modified (ed s') = true.
Proof. unfold cut_line. outcome_cases; auto. Qed.

Lemma paste_line_marks (s : session) :
  lines (ed (paste_line s)) = lines (ed s) \/ modified (ed (paste_line s)) = true.
Proof. unfold paste_line. destruct (truthy (cut_buffer s)); simpl; auto. Qed.

Lemma save_file_world (fname : option str) (e : editor) (w : world) :
  keys (save_file fname e w).2 = keys w /\
  typed (save_file fname e w).2 = typed w.
Proof.
  unfold save_file, write_file.
  destruct (truthy_opt fname); simpl;
    repeat match goal with
           | |- context [match ?x with _ => _ end] => destruct x; simpl
           end; done.
Qed.

Lemma confirm_exit_loop_effects (ks : list Z) (e : editor) (w : world)
    (leave : bool) (e' : editor) (w' : world) :
  confirm_exit_loop ks e w = Ok (leave, e', w') ->
  lines e' = lines e /\ suffix (keys w') ks.
Proof.
  revert w. induction ks as [|key ks IH]; intros w; simpl; [done|].
  assert (Hstep : forall l : list Z, suffix l ks -> suffix l (key :: ks))
    by (intros l Hl; by apply suffix_cons_r).
  repeat case_bool_decide.
  - destruct (prompt_save_filename e (set_keys ks w)) as [[fname w1]| | | |] eqn:Hprompt;
      simpl; try done.
    assert (Hkeys : keys w1 = ks).
    { by destruct (prompt_save_filename_world _ _ _ _ Hprompt)
        as [->|(t & ts & _ & ->)]. }
    destruct (truthy_opt fname); simpl.
    + intros [= Heq].
      pose proof (save_file_frame fname e w1) as (Hl & _).
      pose proof (save_file_world fname e w1) as (Hk & _).
      rewrite Heq in Hl, Hk. simpl in Hl, Hk. rewrite Hk, Hkeys. by split; [|apply Hstep].
    + intros [= <- <- <-]. rewrite Hkeys. by split; [|apply Hstep].
  - intros [= <- <- <-]. by split; [|apply Hstep].
  - intros [= <- <- <-]. by split; [|apply Hstep].
  - intros Hrec. destruct (IH _ Hrec) as [Hl Hk]. by split; [|apply Hstep].
Qed.

(** The effects of one turn of the loop, for every key. *)
Lemma dispatch_has_effects (key : Z) (s : session) (leave : bool) (s' : session) :
  dispatch key s = Ok (leave, s') -> dispatch_effects key s leave s'.
Proof.
  destruct s as [e cut w]. unfold dispatch, dispatch_effects. simpl.
  assert (Hcont : forall r : result editor,
             (forall e1, r = Ok e1 -> lines e1 = lines e \/ modified e1 = true) ->
             (e1 ← r; mret (false, Session e1 cut w)) = Ok (leave, s') ->
             (leave = true -> key = 24) /\
             (lines (ed s') = lines e \/ modified (ed s') = true) /\
             suffix (keys (env s')) (keys w) /\
             (key <> 24 -> key <> 15 -> files (env s') = files w)).
  { intros r Hr. destruct r as [e1| | | |]; simpl; [|done..].
    intros [= <- <-]. simpl. split; [done|]. split; [by apply Hr|]. done. }
  assert (Hsame : forall r : result editor,
             (forall e1, r = Ok e1 -> lines e1 = lines e) ->
             forall e1, r = Ok e1 -> lines e1 = lines e \/ modified e1 = true).
  { intros r Hr e1 He1. left. by apply Hr. }
  destruct (Z.eqb_spec key 24) as [->|_].
  { unfold confirm_exit. destruct (modified e); simpl.
    - destruct (draw_row w _ _); simpl; try done.
      destruct (confirm_exit_loop (keys w) e w) as [[[b e1] w1]| | | |] eqn:Hloop;
        simpl; [|done..].
      intros [= <- <-]. simpl.
      destruct (confirm_exit_loop_effects _ _ _ _ _ _ Hloop) as [Hl Hk].
      split; [done|]. split; [by left|]. done.
    - intros [= <- <-]. simpl. split; [done|]. split; [by left|]. done. }
  destruct (Z.eqb_spec key 15) as [->|_].
  { destruct (prompt_save_filename e w) as [[fname w1]| | | |] eqn:Hprompt;
      simpl; try done.
    assert (Hkeys : keys w1 = keys w).
    { by destruct (prompt_save_filename_world _ _ _ _ Hprompt)
        as [->|(t & ts & _ & ->)]. }
    destruct (truthy_opt fname); simpl.
    - pose proof (save_file_frame fname e w1) as (Hl & _).
      pose proof (save_file_world fname e w1) as (Hk & _).
      destruct (save_file fname e w1) as [[ok e1] w2].
      intros [= <- <-]. simpl in *. rewrite Hk, Hkeys.
      split; [done|]. split; [by left|]. done.
    - intros [= <- <-]. simpl. rewrite Hkeys.
      split; [done|]. split; [by left|]. done. }
  destruct (Z.eqb_spec key 23) as [->|_].
  { destruct (prompt_search w) as [[q w1]| | | |] eqn:Hprompt; simpl; try done.
    assert (Hworld : keys w1 = keys w /\ files w1 = files w).
    { by destruct (proj1 (prompt_search_world _ _ _ Hprompt))
        as [->|(t & ts & _ & ->)]. }
    destruct Hworld as [Hkeys Hfiles].
    destruct q as [q|]; [destruct (truthy q)|].
    - destruct (search q w1 e) as [e1| | | |] eqn:Hs; simpl; [|done..].
      intros [= <- <-]. simpl. rewrite Hkeys, Hfiles. split; [done|].
      split; [left; by eapply search_lines|]. done.
    - intros [= <- <-]. simpl. rewrite Hkeys, Hfiles.
      split; [done|]. split; [by left|]. done.
    - intros [= <- <-]. simpl. rewrite Hkeys, Hfiles.
      split; [done|]. split; [by left|]. done. }
  destruct (Z.eqb_spec key 11) as [->|_].
  { destruct (cut_line (Session e cut w)) as [s1| | | |] eqn:Hcut; simpl; [|done..].
    intros [= <- <-]. split; [done|].
    split; [by apply (cut_line_marks (Session e cut w))|].
    assert (Henv : env s1 = w).
    { revert Hcut. unfold cut_line. outcome_cases; done. }
    rewrite Henv. done. }
  destruct (Z.eqb_spec key 21) as [->|_].
  { simpl. intros [= <- <-]. split; [done|].
    split; [apply (paste_line_marks (Session e cut w))|].
    unfold paste_line. simpl. by destruct (truthy cut). }
  destruct (Z.eqb_spec key 7) as [->|_].
  { rewrite show_help_reads. unfold getch.
    destruct (keys w) as [|k ks]; simpl; [done|].
    intros [= <- <-]. simpl. split; [done|]. split; [by left|].
    split; [by apply suffix_cons_r|done]. }
  destruct (Z.eqb_spec key 1) as [->|_].
  { simpl. intros [= <- <-]. simpl. rewrite adjust_scroll_lines.
    split; [done|]. split; [by left|]. done. }
  destruct (Z.eqb_spec key 5) as [->|_].
  { apply Hcont, Hsame. intros e1. outcome_cases. done. }
  destruct (Z.eqb_spec key KEY_UP) as [->|_].
  { apply Hcont, Hsame. intros e1. apply move_cursor_lines. }
  destruct (Z.eqb_spec key KEY_DOWN) as [->|_].
  { apply Hcont, Hsame. intros e1. apply move_cursor_lines. }
  destruct (Z.eqb_spec key KEY_LEFT) as [->|_].
  { destruct (0 <? cursor_x e).
    - apply Hcont, Hsame. intros e1. apply move_cursor_lines.
    - destruct (0 <? cursor_y e).
      + apply Hcont, Hsame. intros e1. outcome_cases. done.
      + intros [= <- <-]. simpl. split; [done|]. split; [by left|]. done. }
  destruct (Z.eqb_spec key KEY_RIGHT) as [->|_].
  { apply Hcont, Hsame. intros e1.
    destruct (getitem (lines e) (cursor_y e)) as [line| | | |]; simpl; [|done..].
    destruct (cursor_x e <? len line); [apply move_cursor_lines|].
    destruct (cursor_y e <? len (lines e) - 1).
    - intros [= <-]. by rewrite adjust_scroll_lines.
    - by intros [= <-]. }
  destruct (Z.eqb_spec key KEY_HOME) as [->|_].
  { simpl. intros [= <- <-]. simpl. rewrite adjust_scroll_lines.
    split; [done|]. split; [by left|]. done. }
  destruct (Z.eqb_spec key KEY_END) as [->|_].
  { apply Hcont, Hsame. intros e1. outcome_cases. done. }
  destruct (Z.eqb_spec key KEY_PPAGE) as [->|_].
  { apply Hcont, Hsame. intros e1. apply move_cursor_lines. }
  destruct (Z.eqb_spec key KEY_NPAGE) as [->|_].
  { apply Hcont, Hsame. intros e1. apply move_cursor_lines. }
  case_bool_decide.
  { apply Hcont. intros e1 He1. right. by eapply insert_newline_marks. }
  case_bool_decide.
  { apply Hcont. intros e1. apply backspace_marks. }
  destruct (Z.eqb_spec key KEY_DC) as [->|_].
  { apply Hcont. intros e1. apply delete_char_marks. }
  destruct (Z.eqb_spec key 9) as [->|_].
  { apply Hcont. intros e1 He1. right. by eapply insert_char_marks. }
  destruct ((32 <=? key) && (key <=? 126)).
  { apply Hcont. intros e1 He1. right. by eapply insert_char_marks. }
  intros [= <- <-]. simpl. split; [done|]. split; [by left|]. done.
Qed.

(** X18: whenever a command changes the lines of the buffer, the modified
    flag is set afterwards, so no change escapes the question asked at
    exit. *)
Theorem changed_lines_are_marked (key : Z) (s : session) (leave : bool) (s' : session) :
  dispatch key s = Ok (leave, s') ->
  lines (ed s') <> lines (ed s) ->
  modified (ed s') = true.
Proof.
  intros Hd Hchanged.
  destruct (dispatch_has_effects key s leave s' Hd) as (_ & [Hsame|Hmod] & _); done.
Qed.

Lemma changed_lines_are_marked_witness :
  exists s',
    dispatch 97 (Session hello_world [] quiet_world) = Ok (false, s') /\
    modified (ed s') = true.
Proof.
  eexists. split; [reflexivity|].
  apply (changed_lines_are_marked 97 (Session hello_world [] quiet_world) false _).
  - reflexivity.
  - by vm_compute.
Defined.

(** ** Leaving the loop and writing files *)

Lemma run_loop_needs_exit_key (fuel : nat) (s s' : session) :
  run_loop fuel s = Ok s' -> 24 ∈ keys (env s).
Proof.
  revert s. induction fuel as [|fuel IH]; intros s; simpl; [done|].
  destruct (draw (env s) (ed s)); simpl; try done.
  unfold getch. destruct (keys (env s)) as [|key ks]; simpl; [done|].
  destruct (dispatch key _) as [[leave s1]| | | |] eqn:Hd; simpl; [|done..].
  destruct (dispatch_has_effects _ _ _ _ Hd) as (Hleave & _ & Hkeys & _).
  simpl in Hkeys. destruct leave.
  - intros _. rewrite (Hleave eq_refl). by left.
  - intros Hrun. right. apply IH in Hrun.
    destruct Hkeys as [k ->]. apply elem_of_app. by right.
Qed.

(** X19: Ctrl+X (24) is the only key whose command leaves the loop, and
    [run] returns only if Ctrl+X is among the keys pressed. *)
Theorem only_exit_key_leaves :
  (forall (key : Z) (s s' : session),
      dispatch key s = Ok (true, s') -> key = 24) /\
  (forall (e : editor) (w : world) (s' : session),
      run e w = Ok s' -> 24 ∈ keys w).
Proof.
  split.
  - intros key s s' Hd.
    destruct (dispatch_has_effects key s true s' Hd) as (Hleave & _). by apply Hleave.
  - intros e w s' Hrun. by apply run_loop_needs_exit_key in Hrun.
Qed.

Lemma only_exit_key_leaves_witness :
  24 = 24 /\ 24 ∈ keys (set_keys [24] quiet_world).
Proof.
  destruct only_exit_key_leaves as [Hkey Hrun]. split.
  - apply (Hkey 24 (Session hello_world [] quiet_world)
             (Session hello_world [] quiet_world)). reflexivity.
  - apply (Hrun hello_world (set_keys [24] quiet_world)
             (Session hello_world [] (set_keys [] quiet_world))).
    reflexivity.
Defined.

(** X20: no command other than Ctrl+O (15) and Ctrl+X (24) writes a file:
    after any other key the files are what they were. *)
Theorem only_save_and_exit_write (key : Z) (s : session) (leave : bool) (s' : session) :
  key <> 15 -> key <> 24 ->
  dispatch key s = Ok (leave, s') ->
  files (env s') = files (env s).
Proof.
  intros H15 H24 Hd.
  destruct (dispatch_has_effects key s leave s' Hd) as (_ & _ & _ & Hfiles).
  by apply Hfiles.
Qed.

Lemma only_save_and_exit_write_witness :
  exists s',
    dispatch 11 (Session hello_world [] quiet_world) = Ok (false, s') /\
    files (env s') = files quiet_world.
Proof.
  eexists. split; [reflexivity|].
  apply (only_save_and_exit_write 11 (Session hello_world [] quiet_world) false _).
  - by vm_compute.
  - by vm_compute.
  - reflexivity.
Defined.

(** X21: a save under a proper name succeeds exactly when the path is
    accepted, the operating system lets it be written and every line can be
    encoded.  After a save that succeeds the buffer is not modified, carries
    that name and has the same lines, and Ctrl+X then ends the loop at once,
    reading no further key.  After a save that fails the buffer carries the
    name as well, but is modified if it was before. *)
Theorem save_then_exit (fn : str) (e : editor) (w : world) :
  truthy fn = true ->
  exists ok e' w',
    save_file (Some fn) e w = (ok, e', w') /\
    (ok = true <->
       path_error fn = None /\ write_error w !! fn = None /\
       Forall encodable (lines e)) /\
    filename e' = Some fn /\ lines e' = lines e /\
    (ok = true ->
       modified e' = false /\ message_type e' = success /\
       forall (cut : str) (w2 : world) (rest : list Z) (n : nat),
         succeeds (draw w2 e') = true -> keys w2 = 24 :: rest ->
         run_loop (S n) (Session e' cut w2) = Ok (Session e' cut (set_keys rest w2))) /\
    (ok = false -> modified e' = modified e /\ message_type e' = error).
Proof.
  intros Hfn. rewrite (save_file_named fn e w Hfn).
  destruct (write_file_spec fn (set_filename (Some fn) e) w)
    as (ok & e' & w' & tail & Hsave & _ & Hok & Hyes & Hno).
  exists ok, e', w'. split; [done|]. split; [done|].
  destruct ok.
  - destruct (Hyes eq_refl) as [He _].
    assert (Hmod : modified e' = false) by (by rewrite He).
    split; [by rewrite He|]. split; [by rewrite He|]. split; [|done]. intros _.
    split; [done|]. split; [by rewrite He|]. intros cut w2 rest n Hdraw Hkeys.
    rewrite (run_loop_turn n (Session e' cut w2) 24 rest Hdraw Hkeys).
    cbn [ed cut_buffer env]. by rewrite dispatch_exit_unmodified.
  - destruct (Hno eq_refl) as [[err He] _].
    split; [by rewrite He|]. split; [by rewrite He|]. split; [done|].
    intros _. by rewrite He.
Qed.

Lemma save_then_exit_witness :
  exists ok e' w',
    save_file (Some (lit "out.txt")) unsaved quiet_world = (ok, e', w') /\
    (ok = true <->
       path_error (lit "out.txt") = None /\
       write_error quiet_world !! lit "out.txt" = None /\
       Forall encodable (lines unsaved)) /\
    filename e' = Some (lit "out.txt") /\ lines e' = lines unsaved /\
    (ok = true ->
       modified e' = false /\ message_type e' = success /\
       forall (cut : str) (w2 : world) (rest : list Z) (n : nat),
         succeeds (draw w2 e') = true -> keys w2 = 24 :: rest ->
         run_loop (S n) (Session e' cut w2) = Ok (Session e' cut (set_keys rest w2))) /\
    (ok = false -> modified e' = modified unsaved /\ message_type e' = error).
Proof.
  apply (save_then_exit (lit "out.txt") unsaved quiet_world); reflexivity.
Defined.

Lemma lstrip_spaces (t : str) :
  Forall (fun c => is_space c = true) t -> lstrip t = [].
Proof. induction 1 as [|c t Hc _ IH]; simpl; [done|]. by rewrite Hc. Qed.

Lemma strip_spaces (t : str) :
  Forall (fun c => is_space c = true) t -> strip t = [].
Proof. intros Ht. unfold strip. rewrite (lstrip_spaces t Ht). reflexivity. Qed.

(** On a terminal without room for the prompt nothing is read, and the
    current file name is returned. *)
Lemma prompt_save_filename_no_room (e : editor) (w : world) :
  max_y w < 3 \/ max_x w < 2 ->
  has_nul (or_else (filename e) []) = false ->
  prompt_save_filename e w = Ok (filename e, w).
Proof.
  intros Hroom Hname. unfold prompt_save_filename.
  destruct (draw_row_ok w (max_y w - 3)
              (lit "File Name to Write: " ++ or_else (filename e) []))
    as [ds ->]; [by apply has_nul_app|].
  cbn [mbind result_bind]. unfold read_line, move.
  destruct (in_window w _ _) eqn:Hin; [|done].
  apply in_window_spec in Hin. lia.
Qed.

(** X22: on a terminal with room for the prompt (3 rows, 2 columns), an
    answer to the Ctrl+O prompt that is empty or consists of white space
    stands for the current file name: the buffer is saved under it if there
    is one, and if there is none nothing is written and nothing changes.  On
    a terminal without that room no answer is read, and the command does the
    same.  The file name must hold no U+0000: the prompt shows it. *)
Theorem save_prompt_blank_answer (e : editor) (cut : str) (w : world) :
  has_nul (or_else (filename e) []) = false ->
  (forall (t : str) (ts : list str),
     3 <= max_y w -> 2 <= max_x w ->
     typed w = t :: ts ->
     Forall (fun c => is_space c = true) t ->
     (truthy_opt (filename e) = false ->
      dispatch 15 (Session e cut w) = Ok (false, Session e cut (set_typed ts w))) /\
     (truthy_opt (filename e) = true ->
      dispatch 15 (Session e cut w) =
      Ok (false, Session (save_file (filename e) e (set_typed ts w)).1.2 cut
                         (save_file (filename e) e (set_typed ts w)).2))) /\
  (max_y w < 3 \/ max_x w < 2 ->
   (truthy_opt (filename e) = false ->
    dispatch 15 (Session e cut w) = Ok (false, Session e cut w)) /\
   (truthy_opt (filename e) = true ->
    dispatch 15 (Session e cut w) =
    Ok (false, Session (save_file (filename e) e w).1.2 cut
                       (save_file (filename e) e w).2))).
Proof.
  intros Hname. split.
  - intros t ts Hy Hx Htyped Hblank. unfold dispatch. cbn [Z.eqb Pos.eqb ed env cut_buffer].
    rewrite (prompt_save_filename_typed e w t ts Hy Hx Hname Htyped).
    unfold prompted_name. rewrite (strip_spaces t Hblank).
    cbn [truthy mbind result_bind]. split.
    + intros Hnone. by rewrite Hnone.
    + intros Hsome. rewrite Hsome.
      by destruct (save_file (filename e) e (set_typed ts w)) as [[ok e'] w'].
  - intros Hroom. unfold dispatch. cbn [Z.eqb Pos.eqb ed env cut_buffer].
    rewrite (prompt_save_filename_no_room e w Hroom Hname).
    cbn [mbind result_bind]. split.
    + intros Hnone. by rewrite Hnone.
    + intros Hsome. rewrite Hsome.
      by destruct (save_file (filename e) e w) as [[ok e'] w'].
Qed.

Lemma save_prompt_blank_answer_witness :
  dispatch 15 (Session unsaved [] (set_typed [lit "  "] quiet_world))
  = Ok (false, Session unsaved [] (set_typed [] (set_typed [lit "  "] quiet_world))).
Proof.
  destruct (save_prompt_blank_answer unsaved [] (set_typed [lit "  "] quiet_world)
              eq_refl) as [Hroom _].
  destruct (Hroom (lit "  ") []) as [Hnone _].
  - by vm_compute.
  - by vm_compute.
  - reflexivity.
  - by repeat constructor.
  - apply Hnone. reflexivity.
Defined.

(** ** Loading *)

Lemma splitlines_go_no_linebreak (cur : str) (after_cr : bool) (s : str) :
  no_linebreak cur -> Forall no_linebreak (splitlines_go cur after_cr s).
Proof.
  revert cur after_cr. induction s as [|c s IH]; intros cur after_cr Hcur; simpl.
  - destruct (truthy cur); by repeat constructor.
  - destruct (after_cr && (c =? LF)%N); [by apply IH|].
    destruct (is_linebreak c) eqn:Hc.
    + constructor; [done|]. apply IH. constructor.
    + apply IH. apply Forall_app. split; [done|]. by repeat constructor.
Qed.

(** X23: whatever the path holds, [load_file] leaves a buffer of at least
    one line none of which contains a line-break character; when it
    returns [True] the buffer carries the file name and is not modified. *)
Theorem load_file_lines (fn : str) (e : editor) (w : world) :
  lines (load_file fn e w).2 <> [] /\
  Forall no_linebreak (lines (load_file fn e w).2) /\
  ((load_file fn e w).1 = true ->
   filename (load_file fn e w).2 = Some fn /\
   modified (load_file fn e w).2 = false).
Proof.
  unfold load_file.
  destruct (files w !! fn) as [content|]; simpl.
  - destruct (read_error w !! fn); simpl.
    + split; [done|]. split; [by repeat constructor | done].
    + destruct (truthy (splitlines (universal_newlines false content))) eqn:Hls.
      * split; [by destruct (splitlines _)|]. split; [|done].
        apply splitlines_go_no_linebreak. constructor.
      * split; [done|]. split; [by repeat constructor | done].
  - split; [done|]. split; [by repeat constructor | done].
Qed.

Lemma load_file_lines_witness :
  filename (load_file (lit "new.txt") hello_world quiet_world).2
  = Some (lit "new.txt") /\
  modified (load_file (lit "new.txt") hello_world quiet_world).2 = false.
Proof.
  apply (proj2 (proj2 (load_file_lines (lit "new.txt") hello_world quiet_world))).
  reflexivity.
Defined.

(** ** Editing as editing of one text *)

Lemma rows_text_snoc (rows : list str) (l : str) :
  rows_text (rows ++ [l]) = rows_text rows ++ l ++ [LF].
Proof.
  unfold rows_text. rewrite fmap_app, concat_app. simpl. by rewrite app_nil_r.
Qed.

Lemma join_cons_rows (x : str) (rest : list str) :
  x ++ concat ((fun y => [LF] ++ y) <$> rest) ++ [LF] = rows_text (x :: rest).
Proof.
  revert x. induction rest as [|y rest IH]; intros x; simpl.
  - unfold rows_text. simpl. by rewrite app_nil_r.
  - specialize (IH y). unfold rows_text in *. simpl in *.
    rewrite <- !app_assoc in *. simpl in *. do 2 f_equal. exact IH.
Qed.

(** The text of a buffer split at a row: the rows above, the row, and the
    rows below, each of these with a line feed before it. *)
Lemma join_split (l1 : list str) (line : str) (l2 : list str) :
  join [LF] (l1 ++ line :: l2)
  = rows_text l1 ++ line ++ concat ((fun y => [LF] ++ y) <$> l2).
Proof.
  destruct l1 as [|x l1]; [done|].
  simpl. rewrite fmap_app, concat_app. simpl.
  rewrite <- (join_cons_rows x l1). by rewrite <- !app_assoc.
Qed.

Lemma slice_to_inside {A} (a b c : list A) (k : Z) :
  0 <= k <= len b ->
  slice_to (a ++ b ++ c) (len a + k) = a ++ slice_to b k.
Proof.
  intros Hk.
  replace (a ++ b ++ c) with ((a ++ slice_to b k) ++ (slice_from b k ++ c)).
  - replace (len a + k) with (len (a ++ slice_to b k)).
    + apply slice_to_app_len.
    + rewrite len_app, len_slice_to; done.
  - rewrite <- app_assoc. f_equal. by rewrite app_assoc, slice_to_from.
Qed.

Lemma slice_from_inside {A} (a b c : list A) (k : Z) :
  0 <= k <= len b ->
  slice_from (a ++ b ++ c) (len a + k) = slice_from b k ++ c.
Proof.
  intros Hk.
  replace (a ++ b ++ c) with ((a ++ slice_to b k) ++ (slice_from b k ++ c)).
  - replace (len a + k) with (len (a ++ slice_to b k)).
    + apply slice_from_app_len.
    + rewrite len_app, len_slice_to; done.
  - rewrite <- app_assoc. f_equal. by rewrite app_assoc, slice_to_from.
Qed.

(** The text and the offset of the cursor when the lines are split at the
    cursor row. *)
Lemma text_at_cursor (e : editor) (l1 : list str) (line : str) (l2 : list str) :
  lines e = l1 ++ line :: l2 ->
  cursor_y e = len l1 ->
  buffer_text e = rows_text l1 ++ line ++ concat ((fun y => [LF] ++ y) <$> l2) /\
  cursor_offset e = len (rows_text l1) + cursor_x e.
Proof.
  intros Hl Hy. unfold buffer_text, cursor_offset. rewrite Hl, Hy.
  split; [apply join_split|]. by rewrite slice_to_app_len.
Qed.

Lemma split_at_cursor (e : editor) (line : str) :
  0 <= cursor_y e ->
  getitem (lines e) (cursor_y e) = Ok line ->
  exists l1 l2, lines e = l1 ++ line :: l2 /\ cursor_y e = len l1.
Proof.
  intros Hy Hline.
  destruct (getitem_split _ _ _ Hy Hline) as (l1 & l2 & Hl & Hlen).
  by exists l1, l2.
Qed.

(** X24: with the cursor at a valid position, [insert_char] inserts the
    text into the text of the buffer at the offset of the cursor, and the
    offset of the cursor grows by one. *)
Theorem insert_char_edits_text (text : str) (w : world) (e : editor) (line : str) :
  0 <= cursor_y e ->
  getitem (lines e) (cursor_y e) = Ok line ->
  0 <= cursor_x e <= len line ->
  exists e',
    insert_char text w e = Ok e' /\
    buffer_text e' =
      slice_to (buffer_text e) (cursor_offset e) ++ text
      ++ slice_from (buffer_text e) (cursor_offset e) /\
    cursor_offset e' = cursor_offset e + 1.
Proof.
  intros Hy Hline Hx.
  destruct (split_at_cursor e line Hy Hline) as (l1 & l2 & Hl & Hcy).
  destruct (text_at_cursor e l1 line l2 Hl Hcy) as [HT Hp].
  destruct (insert_char_spec text w e line Hy Hline)
    as (e' & He' & Hset & _ & _ & Hy' & Hx').
  rewrite Hl, Hcy, setitem_middle in Hset. injection Hset as Hl'. symmetry in Hl'.
  rewrite Hcy in Hy'.
  destruct (text_at_cursor e' l1 _ l2 Hl' Hy') as [HT' Hp'].
  exists e'. split; [done|]. rewrite HT', Hp', HT, Hp, Hx'.
  rewrite slice_to_inside, slice_from_inside by done.
  split; [by rewrite <- !app_assoc | lia].
Qed.

Lemma insert_char_edits_text_witness :
  exists e',
    insert_char (lit "x") quiet_world hello_world = Ok e' /\
    buffer_text e' =
      slice_to (buffer_text hello_world) (cursor_offset hello_world) ++ lit "x"
      ++ slice_from (buffer_text hello_world) (cursor_offset hello_world) /\
    cursor_offset e' = cursor_offset hello_world + 1.
Proof.
  apply (insert_char_edits_text (lit "x") quiet_world hello_world (lit "hello")).
  - by vm_compute.
  - reflexivity.
  - split; by vm_compute.
Defined.

Lemma insert_newline_split (w : world) (e : editor)
    (l1 : list str) (line : str) (l2 : list str) :
  lines e = l1 ++ line :: l2 ->
  cursor_y e = len l1 ->
  exists e',
    insert_newline w e = Ok e' /\
    lines e' = (l1 ++ [slice_to line (cursor_x e)])
               ++ slice_from line (cursor_x e) :: l2 /\
    cursor_y e' = len (l1 ++ [slice_to line (cursor_x e)]) /\
    cursor_x e' = 0.
Proof.
  intros Hl Hy. unfold insert_newline. rewrite Hl, Hy, getitem_middle. simpl.
  rewrite setitem_middle. simpl.
  eexists. split; [reflexivity|]. scroll_simpl.
  split; [|by rewrite Hy, len_snoc].
  rewrite <- (len_snoc l1 (slice_to line (cursor_x e))).
  replace (l1 ++ slice_to line (cursor_x e) :: l2)
    with ((l1 ++ [slice_to line (cursor_x e)]) ++ l2) by (by rewrite <- app_assoc).
  by rewrite list_insert_middle.
Qed.

(** X25: with the cursor at a valid position, [insert_newline] inserts one
    line feed into the text of the buffer at the offset of the cursor, and
    the offset of the cursor grows by one. *)
Theorem insert_newline_edits_text (w : world) (e : editor) (line : str) :
  0 <= cursor_y e ->
  getitem (lines e) (cursor_y e) = Ok line ->
  0 <= cursor_x e <= len line ->
  exists e',
    insert_newline w e = Ok e' /\
    buffer_text e' =
      slice_to (buffer_text e) (cursor_offset e) ++ [LF]
      ++ slice_from (buffer_text e) (cursor_offset e) /\
    cursor_offset e' = cursor_offset e + 1.
Proof.
  intros Hy Hline Hx.
  destruct (split_at_cursor e line Hy Hline) as (l1 & l2 & Hl & Hcy).
  destruct (text_at_cursor e l1 line l2 Hl Hcy) as [HT Hp].
  destruct (insert_newline_split w e l1 line l2 Hl Hcy) as (e' & He' & Hl' & Hy' & Hx').
  destruct (text_at_cursor e' _ _ l2 Hl' Hy') as [HT' Hp'].
  exists e'. split; [done|]. rewrite HT', Hp', HT, Hp, Hx'.
  rewrite slice_to_inside, slice_from_inside by done.
  rewrite rows_text_snoc, !len_app, len_slice_to by done.
  split; [by rewrite <- !app_assoc|].
  change (len [LF]) with 1. lia.
Qed.

Lemma insert_newline_edits_text_witness :
  exists e',
    insert_newline quiet_world hello_world = Ok e' /\
    buffer_text e' =
      slice_to (buffer_text hello_world) (cursor_offset hello_world) ++ [LF]
      ++ slice_from (buffer_text hello_world) (cursor_offset hello_world) /\
    cursor_offset e' = cursor_offset hello_world + 1.
Proof.
  apply (insert_newline_edits_text quiet_world hello_world (lit "hello")).
  - by vm_compute.
  - reflexivity.
  - split; by vm_compute.
Defined.

Lemma backspace_in_line (w : world) (e : editor)
    (l1 : list str) (line : str) (l2 : list str) :
  lines e = l1 ++ line :: l2 ->
  cursor_y e = len l1 ->
  0 < cursor_x e ->
  exists e',
    backspace w e = Ok e' /\
    lines e' = l1 ++ (slice_to line (cursor_x e - 1)
                      ++ slice_from line (cursor_x e)) :: l2 /\
    cursor_y e' = len l1 /\ cursor_x e' = cursor_x e - 1.
Proof.
  intros Hl Hy Hx. unfold backspace.
  destruct (Z.ltb_spec 0 (cursor_x e)); [|lia].
  rewrite Hl, Hy, getitem_middle. simpl. rewrite setitem_middle. simpl.
  eexists. split; [reflexivity|]. scroll_simpl. by rewrite ?Hy.
Qed.

Lemma backspace_joins_rows (w : world) (e : editor)
    (l0 : list str) (prev line : str) (l2 : list str) :
  lines e = (l0 ++ [prev]) ++ line :: l2 ->
  cursor_y e = len (l0 ++ [prev]) ->
  cursor_x e = 0 ->
  exists e',
    backspace w e = Ok e' /\
    lines e' = l0 ++ (prev ++ line) :: l2 /\
    cursor_y e' = len l0 /\ cursor_x e' = len prev.
Proof.
  intros Hl Hy Hx. unfold backspace. rewrite Hx, Hy, Hl.
  destruct (Z.ltb_spec 0 0); [lia|].
  destruct (Z.ltb_spec 0 (len (l0 ++ [prev]))); [|rewrite len_snoc in *;
    pose proof (len_nonneg l0); lia].
  rewrite getitem_middle.
  rewrite len_snoc. replace (len l0 + 1 - 1) with (len l0) by lia.
  rewrite <- (app_assoc l0 [prev]). simpl.
  rewrite getitem_middle. simpl. rewrite setitem_middle. simpl.
  rewrite (app_middle_cons l0 (prev ++ line) line l2).
  rewrite <- (len_snoc l0 (prev ++ line)), pop_middle. simpl.
  eexists. split; [reflexivity|]. scroll_simpl.
  rewrite <- app_assoc. simpl. split; [done|]. rewrite ?Hy, ?len_snoc.
  split; [lia|done].
Qed.

Lemma rows_text_nonneg (rows : list str) : 0 <= len (rows_text rows).
Proof. apply len_nonneg. Qed.

(** X26: with the cursor at a valid position, [backspace] removes from the
    text of the buffer the one character before the offset of the cursor,
    be it a character of a line or the line feed between two rows, and moves
    the cursor offset back by one; at offset 0 it changes neither the lines
    nor the cursor nor the modified flag. *)
Theorem backspace_edits_text (w : world) (e : editor) (line : str) :
  0 <= cursor_y e ->
  getitem (lines e) (cursor_y e) = Ok line ->
  0 <= cursor_x e <= len line ->
  exists e',
    backspace w e = Ok e' /\
    (0 < cursor_offset e ->
     buffer_text e' =
       slice_to (buffer_text e) (cursor_offset e - 1)
       ++ slice_from (buffer_text e) (cursor_offset e) /\
     cursor_offset e' = cursor_offset e - 1 /\
     modified e' = true) /\
    (cursor_offset e = 0 ->
     lines e' = lines e /\
     cursor_y e' = cursor_y e /\ cursor_x e' = cursor_x e /\
     modified e' = modified e).
Proof.
  intros Hy Hline Hx.
  destruct (split_at_cursor e line Hy Hline) as (l1 & l2 & Hl & Hcy).
  destruct (text_at_cursor e l1 line l2 Hl Hcy) as [HT Hp].
  pose proof (rows_text_nonneg l1) as Hrows.
  destruct (decide (0 < cursor_x e)) as [Hpos|Hzero].
  - destruct (backspace_in_line w e l1 line l2 Hl Hcy Hpos) as (e' & He' & Hl' & Hy' & Hx').
    destruct (text_at_cursor e' l1 _ l2 Hl' Hy') as [HT' Hp'].
    exists e'. split; [done|]. split; [|lia].
    intros _. rewrite HT', Hp', HT, Hp, Hx'.
    replace (len (rows_text l1) + cursor_x e - 1)
      with (len (rows_text l1) + (cursor_x e - 1)) by lia.
    rewrite slice_to_inside, slice_from_inside by lia.
    split; [by rewrite <- !app_assoc|]. split; [lia|].
    revert He'. unfold backspace. outcome_cases; try done; lia.
  - assert (Hx0 : cursor_x e = 0) by lia.
    destruct l1 as [|prev l0 _] using rev_ind.
    + exists (adjust_scroll w (set_message [] e)). split.
      { unfold backspace. rewrite Hx0, Hcy. reflexivity. }
      split; [rewrite Hp, Hx0; unfold rows_text, len; simpl; lia|].
      intros _. by scroll_simpl.
    + destruct (backspace_joins_rows w e l0 prev line l2 Hl Hcy Hx0)
        as (e' & He' & Hl' & Hy' & Hx').
      destruct (text_at_cursor e' l0 _ l2 Hl' Hy') as [HT' Hp'].
      exists e'. split; [done|]. split.
      * intros _. rewrite HT', Hp', HT, Hp, Hx', Hx0, rows_text_snoc.
        split; [|split].
        -- rewrite Z.add_0_r.
           replace (len (rows_text l0 ++ prev ++ [LF]) - 1)
             with (len (rows_text l0 ++ prev))
             by (rewrite !len_app; change (len [LF]) with 1; lia).
           rewrite <- !app_assoc.
           set (rest := line ++ concat ((fun y => [LF] ++ y) <$> l2)).
           replace (rows_text l0 ++ prev ++ [LF] ++ rest)
             with ((rows_text l0 ++ prev) ++ ([LF] ++ rest)) at 1
             by (by rewrite <- !app_assoc).
           rewrite slice_to_app_len.
           replace (rows_text l0 ++ prev ++ [LF] ++ rest)
             with ((rows_text l0 ++ prev ++ [LF]) ++ rest)
             by (by rewrite <- !app_assoc).
           rewrite slice_from_app_len. by rewrite <- !app_assoc.
        -- rewrite !len_app. change (len [LF]) with 1. lia.
        -- revert He'. unfold backspace. rewrite Hx0, Hcy, len_snoc.
           pose proof (len_nonneg l0).
           destruct (Z.ltb_spec 0 (len l0 + 1)); [|lia].
           outcome_cases; done.
      * rewrite Hp, rows_text_snoc, !len_app. change (len [LF]) with 1.
        pose proof (rows_text_nonneg l0). pose proof (len_nonneg prev). lia.
Qed.

Lemma backspace_edits_text_witness :
  exists e',
    backspace quiet_world hello_world = Ok e' /\
    (0 < cursor_offset hello_world ->
     buffer_text e' =
       slice_to (buffer_text hello_world) (cursor_offset hello_world - 1)
       ++ slice_from (buffer_text hello_world) (cursor_offset hello_world) /\
     cursor_offset e' = cursor_offset hello_world - 1 /\
     modified e' = true) /\
    (cursor_offset hello_world = 0 ->
     lines e' = lines hello_world /\
     cursor_y e' = cursor_y hello_world /\ cursor_x e' = cursor_x hello_world /\
     modified e' = modified hello_world).
Proof.
  apply (backspace_edits_text quiet_world hello_world (lit "hello")).
  - by vm_compute.
  - reflexivity.
  - split; by vm_compute.
Defined.

Lemma below_cons (next : str) (l3 : list str) :
  concat ((fun y => [LF] ++ y) <$> next :: l3)
  = [LF] ++ next ++ concat ((fun y => [LF] ++ y) <$> l3).
Proof. reflexivity. Qed.

Lemma delete_char_in_line (e : editor)
    (l1 : list str) (line : str) (l2 : list str) :
  lines e = l1 ++ line :: l2 ->
  cursor_y e = len l1 ->
  cursor_x e < len line ->
  exists e',
    delete_char e = Ok e' /\
    lines e' = l1 ++ (slice_to line (cursor_x e)
                      ++ slice_from line (cursor_x e + 1)) :: l2 /\
    cursor_y e' = len l1 /\ cursor_x e' = cursor_x e /\ modified e' = true.
Proof.
  intros Hl Hy Hx. unfold delete_char.
  rewrite Hl, Hy, getitem_middle. simpl.
  destruct (Z.ltb_spec (cursor_x e) (len line)); [|lia].
  rewrite setitem_middle. simpl.
  eexists. split; [reflexivity|]. simpl. by rewrite ?Hy.
Qed.

Lemma delete_char_joins_rows (e : editor)
    (l1 : list str) (line next : str) (l3 : list str) :
  lines e = l1 ++ line :: next :: l3 ->
  cursor_y e = len l1 ->
  len line <= cursor_x e ->
  exists e',
    delete_char e = Ok e' /\
    lines e' = l1 ++ (line ++ next) :: l3 /\
    cursor_y e' = len l1 /\ cursor_x e' = cursor_x e /\ modified e' = true.
Proof.
  intros Hl Hy Hx. unfold delete_char.
  rewrite Hl, Hy, getitem_middle. simpl.
  destruct (Z.ltb_spec (cursor_x e) (len line)); [lia|].
  rewrite len_app, !len_cons.
  pose proof (len_nonneg l3).
  destruct (Z.ltb_spec (len l1) (len l1 + (len l3 + 1 + 1) - 1)); [|lia].
  rewrite (app_middle_cons l1 line next l3), <- (len_snoc l1 line), getitem_middle.
  simpl. rewrite <- app_assoc. simpl. rewrite setitem_middle. simpl.
  rewrite (app_middle_cons l1 (line ++ next) next l3).
  rewrite (len_snoc l1 line), <- (len_snoc l1 (line ++ next)), pop_middle. simpl.
  eexists. split; [reflexivity|]. simpl. rewrite <- app_assoc. simpl.
  by rewrite ?Hy.
Qed.

Lemma delete_char_at_end (e : editor) (l1 : list str) (line : str) :
  lines e = l1 ++ [line] ->
  cursor_y e = len l1 ->
  len line <= cursor_x e ->
  delete_char e = Ok (set_message [] e).
Proof.
  intros Hl Hy Hx. unfold delete_char.
  rewrite Hl, Hy, getitem_middle. simpl.
  destruct (Z.ltb_spec (cursor_x e) (len line)); [lia|].
  rewrite len_snoc.
  destruct (Z.ltb_spec (len l1) (len l1 + 1 - 1)); [lia|]. reflexivity.
Qed.

(** X27: with the cursor at a valid position, [delete_char] removes from
    the text of the buffer the one character at the offset of the cursor, be
    it a character of a line or the line feed between two rows, and leaves
    the cursor offset where it is; at the end of the text it changes
    neither the lines nor the cursor nor the modified flag. *)
Theorem delete_char_edits_text (e : editor) (line : str) :
  0 <= cursor_y e ->
  getitem (lines e) (cursor_y e) = Ok line ->
  0 <= cursor_x e <= len line ->
  exists e',
    delete_char e = Ok e' /\
    cursor_offset e' = cursor_offset e /\
    (cursor_offset e < len (buffer_text e) ->
     buffer_text e' =
       slice_to (buffer_text e) (cursor_offset e)
       ++ slice_from (buffer_text e) (cursor_offset e + 1) /\
     modified e' = true) /\
    (cursor_offset e = len (buffer_text e) ->
     lines e' = lines e /\
     cursor_y e' = cursor_y e /\ cursor_x e' = cursor_x e /\
     modified e' = modified e).
Proof.
  intros Hy Hline Hx.
  destruct (split_at_cursor e line Hy Hline) as (l1 & l2 & Hl & Hcy).
  destruct (text_at_cursor e l1 line l2 Hl Hcy) as [HT Hp].
  destruct (decide (cursor_x e < len line)) as [Hin|Hend].
  - destruct (delete_char_in_line e l1 line l2 Hl Hcy Hin)
      as (e' & He' & Hl' & Hy' & Hx' & Hmod).
    destruct (text_at_cursor e' l1 _ l2 Hl' Hy') as [HT' Hp'].
    exists e'. split; [done|]. split; [by rewrite Hp', Hp, Hx'|]. split.
    + intros _. split; [|done]. rewrite HT', HT, Hp.
      replace (len (rows_text l1) + cursor_x e + 1)
        with (len (rows_text l1) + (cursor_x e + 1)) by lia.
      rewrite slice_to_inside, slice_from_inside by lia.
      by rewrite <- !app_assoc.
    + rewrite HT, Hp, !len_app.
      pose proof (len_nonneg (concat ((fun y => [LF] ++ y) <$> l2))). lia.
  - assert (Hxe : cursor_x e = len line) by lia.
    destruct l2 as [|next l3].
    + exists (set_message [] e). split; [by apply (delete_char_at_end e l1 line); [| |lia]|].
      split; [done|]. split; [|done].
      intros Hlt. exfalso. revert Hlt.
      rewrite HT, Hp, Hxe, !len_app. simpl.
      change (len (@nil N)) with 0. lia.
    + assert (Hge : len line <= cursor_x e) by lia.
      destruct (delete_char_joins_rows e l1 line next l3 Hl Hcy Hge)
        as (e' & He' & Hl' & Hy' & Hx' & Hmod).
      destruct (text_at_cursor e' l1 _ l3 Hl' Hy') as [HT' Hp'].
      exists e'. split; [done|]. split; [by rewrite Hp', Hp, Hx'|]. split.
      * intros _. split; [|done]. rewrite HT', HT, Hp, Hxe, below_cons.
        set (rest := next ++ concat ((fun y => [LF] ++ y) <$> l3)).
        replace (rows_text l1 ++ line ++ [LF] ++ rest)
          with ((rows_text l1 ++ line) ++ ([LF] ++ rest)) at 1
          by (by rewrite <- !app_assoc).
        rewrite <- len_app, slice_to_app_len.
        replace (rows_text l1 ++ line ++ [LF] ++ rest)
          with ((rows_text l1 ++ line ++ [LF]) ++ rest)
          by (by rewrite <- !app_assoc).
        replace (len (rows_text l1 ++ line) + 1)
          with (len (rows_text l1 ++ line ++ [LF]))
          by (rewrite !len_app; change (len [LF]) with 1; lia).
        rewrite slice_from_app_len. unfold rest. by rewrite <- !app_assoc.
      * rewrite HT, Hp, Hxe, below_cons, !len_app. change (len [LF]) with 1.
        pose proof (len_nonneg next).
        pose proof (len_nonneg (concat ((fun y => [LF] ++ y) <$> l3))). lia.
Qed.

Lemma delete_char_edits_text_witness :
  exists e',
    delete_char hello_world = Ok e' /\
    cursor_offset e' = cursor_offset hello_world /\
    (cursor_offset hello_world < len (buffer_text hello_world) ->
     buffer_text e' =
       slice_to (buffer_text hello_world) (cursor_offset hello_world)
       ++ slice_from (buffer_text hello_world) (cursor_offset hello_world + 1) /\
     modified e' = true) /\
    (cursor_offset hello_world = len (buffer_text hello_world) ->
     lines e' = lines hello_world /\
     cursor_y e' = cursor_y hello_world /\ cursor_x e' = cursor_x hello_world /\
     modified e' = modified hello_world).
Proof.
  apply (delete_char_edits_text hello_world (lit "hello")).
  - by vm_compute.
  - reflexivity.
  - split; by vm_compute.
Defined.

(** ** The annotated copy *)

Lemma prompt_input_loop_world (prompt : str) (ks : list Z) (acc : str)
    (x : list Z) (w : world) :
  Commentato.prompt_input_loop prompt ks acc (set_keys x w)
  = Commentato.prompt_input_loop prompt ks acc w.
Proof. by destruct ks. Qed.

Lemma printable_key (key : Z) :
  printable key ->
  bool_decide (key ∈ [KEY_ENTER; 10; 13]) = false /\
  (key =? 27) = false /\
  bool_decide (key ∈ [KEY_BACKSPACE; 127; 8]) = false /\
  ((32 <=? key) && (key <=? 126)) = true.
Proof.
  intros [Hlo Hhi]. unfold KEY_ENTER, KEY_BACKSPACE.
  split; [|split; [|split]].
  - apply bool_decide_eq_false. rewrite !elem_of_cons, elem_of_nil. lia.
  - apply Z.eqb_neq. lia.
  - apply bool_decide_eq_false. rewrite !elem_of_cons, elem_of_nil. lia.
  - apply andb_true_iff. split; apply Z.leb_le; lia.
Qed.

Lemma has_nul_chars_of (text : list Z) :
  Forall printable text -> has_nul (chars_of text) = false.
Proof.
  induction 1 as [|key text [Hlo Hhi] _ IH]; [done|].
  apply has_nul_cons; [lia | done].
Qed.

(** Printable keys are appended to the text entered so far, which is shown
    after the prompt before every key. *)
Lemma prompt_input_loop_typing (prompt : str) (text ks : list Z) (acc : str) (w : world) :
  Forall printable text ->
  has_nul prompt = false -> has_nul acc = false ->
  Commentato.prompt_input_loop prompt (text ++ ks) acc w
  = Commentato.prompt_input_loop prompt ks (acc ++ chars_of text) w.
Proof.
  intros Htext Hprompt. revert acc w.
  induction Htext as [|key text Hkey _ IH]; intros acc w Hacc.
  - by rewrite app_nil_r.
  - destruct (printable_key key Hkey) as (He & Hesc & Hb & Hp).
    cbn [app Commentato.prompt_input_loop].
    destruct (draw_row_ok w (max_y w - 3) (prompt ++ acc)) as [ds ->];
      [by apply has_nul_app|].
    cbn [mbind result_bind]. rewrite He, Hesc, Hb, Hp.
    rewrite IH, prompt_input_loop_world.
    + unfold chr. by rewrite <- app_assoc.
    + apply has_nul_app; [done|]. apply (has_nul_chars_of [key]). by constructor.
Qed.

(** The keys that close the prompt, and the key that corrects. *)
Lemma prompt_input_loop_enter (prompt : str) (enter : Z) (rest : list Z)
    (acc : str) (w : world) :
  has_nul prompt = false -> has_nul acc = false ->
  enter ∈ [KEY_ENTER; 10; 13] ->
  Commentato.prompt_input_loop prompt (enter :: rest) acc w
  = Ok (Some acc, set_keys rest w).
Proof.
  intros Hprompt Hacc Henter. cbn [Commentato.prompt_input_loop].
  destruct (draw_row_ok w (max_y w - 3) (prompt ++ acc)) as [ds ->];
    [by apply has_nul_app|].
  cbn [mbind result_bind]. by rewrite (bool_decide_eq_true_2 _ Henter).
Qed.

Lemma prompt_input_loop_esc (prompt : str) (rest : list Z) (acc : str) (w : world) :
  has_nul prompt = false -> has_nul acc = false ->
  Commentato.prompt_input_loop prompt (27 :: rest) acc w = Ok (None, set_keys rest w).
Proof.
  intros Hprompt Hacc. cbn [Commentato.prompt_input_loop].
  destruct (draw_row_ok w (max_y w - 3) (prompt ++ acc)) as [ds ->];
    [by apply has_nul_app|].
  reflexivity.
Qed.

Lemma prompt_input_loop_back (prompt : str) (back : Z) (ks : list Z)
    (acc : str) (w : world) :
  has_nul prompt = false -> has_nul acc = false ->
  back ∈ [KEY_BACKSPACE; 127; 8] ->
  Commentato.prompt_input_loop prompt (back :: ks) acc w
  = Commentato.prompt_input_loop prompt ks (slice_to acc (-1)) w.
Proof.
  intros Hprompt Hacc Hback. cbn [Commentato.prompt_input_loop].
  destruct (draw_row_ok w (max_y w - 3) (prompt ++ acc)) as [ds ->];
    [by apply has_nul_app|].
  cbn [mbind result_bind]. rewrite prompt_input_loop_world.
  rewrite !elem_of_cons, elem_of_nil in Hback.
  by destruct Hback as [->|[->|[->|[]]]].
Qed.

(** X28: in the annotated copy, [prompt_input] with a prompt without
    U+0000 returns the printable characters typed before Enter (any of its
    three key codes); ESC instead of Enter cancels the prompt; and a
    Backspace (any of its three key codes) before Enter removes the last
    character typed.  The keys after the closing key are left unread. *)
Theorem prompt_input_returns_typed (prompt : str) (text rest : list Z) (w : world)
    (enter back : Z) :
  has_nul prompt = false ->
  Forall printable text ->
  enter ∈ [KEY_ENTER; 10; 13] ->
  back ∈ [KEY_BACKSPACE; 127; 8] ->
  Commentato.prompt_input prompt (set_keys (text ++ enter :: rest) w)
  = Ok (Some (chars_of text), set_keys rest w) /\
  Commentato.prompt_input prompt (set_keys (text ++ 27 :: rest) w)
  = Ok (None, set_keys rest w) /\
  Commentato.prompt_input prompt (set_keys (text ++ back :: enter :: rest) w)
  = Ok (Some (slice_to (chars_of text) (-1)), set_keys rest w).
Proof.
  intros Hprompt Htext Henter Hback. unfold Commentato.prompt_input. cbn [keys set_keys].
  rewrite !prompt_input_loop_typing by done. cbn [app].
  pose proof (has_nul_chars_of text Htext) as Hchars.
  split; [|split].
  - by rewrite prompt_input_loop_enter.
  - by rewrite prompt_input_loop_esc.
  - rewrite prompt_input_loop_back by done.
    rewrite prompt_input_loop_enter; [done..|by apply has_nul_slice_to|done].
Qed.

Lemma prompt_input_returns_typed_witness :
  Commentato.prompt_input (lit "Search: ")
    (set_keys (typing "a.txt" ++ 13 :: [24]) quiet_world)
  = Ok (Some (chars_of (typing "a.txt")), set_keys [24] quiet_world) /\
  Commentato.prompt_input (lit "Search: ")
    (set_keys (typing "a.txt" ++ 27 :: [24]) quiet_world)
  = Ok (None, set_keys [24] quiet_world) /\
  Commentato.prompt_input (lit "Search: ")
    (set_keys (typing "a.txt" ++ 8 :: 13 :: [24]) quiet_world)
  = Ok (Some (slice_to (chars_of (typing "a.txt")) (-1)), set_keys [24] quiet_world).
Proof.
  apply (prompt_input_returns_typed (lit "Search: ") (typing "a.txt") [24] quiet_world
           13 8).
  - reflexivity.
  - repeat constructor; by vm_compute.
  - rewrite !elem_of_cons. right. by right; left.
  - rewrite !elem_of_cons. right. by right; left.
Defined.

(** X29: in the annotated copy, with the cursor at a valid position,
    [insert_char] inserts the text into the text of the buffer at the offset
    of the cursor and moves the cursor offset past the inserted text, by its
    length; the message is left as it was. *)
Theorem commentato_insert_edits_text (text : str) (w : world) (e : editor) (line : str) :
  0 <= cursor_y e ->
  getitem (lines e) (cursor_y e) = Ok line ->
  0 <= cursor_x e <= len line ->
  exists e',
    Commentato.insert_char text w e = Ok e' /\
    buffer_text e' =
      slice_to (buffer_text e) (cursor_offset e) ++ text
      ++ slice_from (buffer_text e) (cursor_offset e) /\
    cursor_offset e' = cursor_offset e + len text /\
    message e' = message e.
Proof.
  intros Hy Hline Hx.
  destruct (split_at_cursor e line Hy Hline) as (l1 & l2 & Hl & Hcy).
  destruct (text_at_cursor e l1 line l2 Hl Hcy) as [HT Hp].
  destruct (commentato_insert_char_spec text w e line Hy Hline)
    as (e' & He' & Hset & _ & Hy' & Hx').
  rewrite Hl, Hcy, setitem_middle in Hset. injection Hset as Hl'. symmetry in Hl'.
  rewrite Hcy in Hy'.
  destruct (text_at_cursor e' l1 _ l2 Hl' Hy') as [HT' Hp'].
  exists e'. split; [done|]. rewrite HT', Hp', HT, Hp, Hx'.
  rewrite slice_to_inside, slice_from_inside by done.
  split; [by rewrite <- !app_assoc|]. split; [lia|].
  revert He'. unfold Commentato.insert_char. outcome_cases. done.
Qed.

Lemma commentato_insert_edits_text_witness :
  exists e',
    Commentato.insert_char (lit "    ") quiet_world hello_world = Ok e' /\
    buffer_text e' =
      slice_to (buffer_text hello_world) (cursor_offset hello_world) ++ lit "    "
      ++ slice_from (buffer_text hello_world) (cursor_offset hello_world) /\
    cursor_offset e' = cursor_offset hello_world + len (lit "    ") /\
    message e' = message hello_world.
Proof.
  apply (commentato_insert_edits_text (lit "    ") quiet_world hello_world (lit "hello")).
  - by vm_compute.
  - reflexivity.
  - split; by vm_compute.
Defined.

Lemma commentato_backspace_in_line (w : world) (e : editor)
    (l1 : list str) (line : str) (l2 : list str) :
  lines e = l1 ++ line :: l2 ->
  cursor_y e = len l1 ->
  0 < cursor_x e ->
  exists e',
    Commentato.backspace w e = Ok e' /\
    lines e' = l1 ++ (slice_to line (cursor_x e - 1)
                      ++ slice_from line (cursor_x e)) :: l2 /\
    cursor_y e' = len l1 /\ cursor_x e' = cursor_x e - 1 /\
    modified e' = true /\ message e' = message e.
Proof.
  intros Hl Hy Hx. unfold Commentato.backspace.
  destruct (Z.ltb_spec 0 (cursor_x e)); [|lia].
  rewrite Hl, Hy, getitem_middle. simpl. rewrite setitem_middle. simpl.
  eexists. split; [reflexivity|]. scroll_simpl. by rewrite ?Hy.
Qed.

Lemma commentato_backspace_joins_rows (w : world) (e : editor)
    (l0 : list str) (prev line : str) (l2 : list str) :
  lines e = (l0 ++ [prev]) ++ line :: l2 ->
  cursor_y e = len (l0 ++ [prev]) ->
  cursor_x e = 0 ->
  exists e',
    Commentato.backspace w e = Ok e' /\
    lines e' = l0 ++ (prev ++ line) :: l2 /\
    cursor_y e' = len l0 /\ cursor_x e' = len prev /\
    modified e' = true /\ message e' = message e.
Proof.
  intros Hl Hy Hx. unfold Commentato.backspace. rewrite Hx, Hy, Hl.
  destruct (Z.ltb_spec 0 0); [lia|].
  destruct (Z.ltb_spec 0 (len (l0 ++ [prev]))); [|rewrite len_snoc in *;
    pose proof (len_nonneg l0); lia].
  rewrite getitem_middle. cbn [mbind result_bind].
  rewrite pop_middle. cbn [mbind result_bind]. simpl.
  rewrite Hy, len_snoc. replace (len l0 + 1 - 1) with (len l0) by lia.
  rewrite <- (app_assoc l0 [prev]). simpl.
  rewrite getitem_middle. simpl. rewrite setitem_middle. simpl.
  eexists. split; [reflexivity|]. scroll_simpl. done.
Qed.

(** X30: with the cursor at a valid position, [backspace] of the annotated
    copy and [backspace] of [atomo.py] both succeed and agree on the lines,
    the cursor and the modified flag; they differ in the message, which
    [atomo.py] clears and the annotated copy leaves as it was. *)
Theorem backspace_copies_agree (w : world) (e : editor) (line : str) :
  0 <= cursor_y e ->
  getitem (lines e) (cursor_y e) = Ok line ->
  0 <= cursor_x e ->
  exists e1 e2,
    backspace w e = Ok e1 /\
    Commentato.backspace w e = Ok e2 /\
    lines e1 = lines e2 /\
    cursor_y e1 = cursor_y e2 /\ cursor_x e1 = cursor_x e2 /\
    modified e1 = modified e2 /\
    message e1 = [] /\ message e2 = message e.
Proof.
  intros Hy Hline Hx.
  destruct (split_at_cursor e line Hy Hline) as (l1 & l2 & Hl & Hcy).
  assert (Hmsg : forall e1, backspace w e = Ok e1 -> message e1 = []).
  { intros e1. unfold backspace. outcome_cases; done. }
  assert (Hmod : forall e1, backspace w e = Ok e1 ->
                            lines e1 <> lines e \/ cursor_x e1 <> cursor_x e ->
                            0 < cursor_x e \/ 0 < cursor_y e ->
                            modified e1 = true).
  { intros e1. unfold backspace. outcome_cases; try done; lia. }
  destruct (decide (0 < cursor_x e)) as [Hpos|Hzero].
  - destruct (backspace_in_line w e l1 line l2 Hl Hcy Hpos)
      as (e1 & He1 & Hl1 & Hy1 & Hx1).
    destruct (commentato_backspace_in_line w e l1 line l2 Hl Hcy Hpos)
      as (e2 & He2 & Hl2 & Hy2 & Hx2 & Hm2 & Hmsg2).
    exists e1, e2. rewrite Hl1, Hl2, Hy1, Hy2, Hx1, Hx2, Hm2.
    repeat split; try done; [|by apply Hmsg].
    apply Hmod; [done | right; lia | by left].
  - assert (Hx0 : cursor_x e = 0) by lia.
    destruct l1 as [|prev l0 _] using rev_ind.
    + exists (adjust_scroll w (set_message [] e)), e. split.
      { unfold backspace. rewrite Hx0, Hcy. reflexivity. }
      split.
      { unfold Commentato.backspace. rewrite Hx0, Hcy. reflexivity. }
      by scroll_simpl.
    + destruct (backspace_joins_rows w e l0 prev line l2 Hl Hcy Hx0)
        as (e1 & He1 & Hl1 & Hy1 & Hx1).
      destruct (commentato_backspace_joins_rows w e l0 prev line l2 Hl Hcy Hx0)
        as (e2 & He2 & Hl2 & Hy2 & Hx2 & Hm2 & Hmsg2).
      exists e1, e2. rewrite Hl1, Hl2, Hy1, Hy2, Hx1, Hx2, Hm2.
      repeat split; try done; [|by apply Hmsg].
      revert He1. unfold backspace. rewrite Hx0, Hcy, len_snoc.
      pose proof (len_nonneg l0).
      destruct (Z.ltb_spec 0 (len l0 + 1)); [|lia].
      outcome_cases; done.
Qed.

Lemma backspace_copies_agree_witness :
  exists e1 e2,
    backspace quiet_world hello_world = Ok e1 /\
    Commentato.backspace quiet_world hello_world = Ok e2 /\
    lines e1 = lines e2 /\
    cursor_y e1 = cursor_y e2 /\ cursor_x e1 = cursor_x e2 /\
    modified e1 = modified e2 /\
    message e1 = [] /\ message e2 = message hello_world.
Proof.
  apply (backspace_copies_agree quiet_world hello_world (lit "hello")).
  - by vm_compute.
  - reflexivity.
  - by vm_compute.
Defined.

(** ** The lines never contain a line break *)


Lemma no_linebreak_app (a b : str) :
  no_linebreak a -> no_linebreak b -> no_linebreak (a ++ b).
Proof. intros Ha Hb. apply Forall_app. by split. Qed.

Lemma no_linebreak_slice_to (l : str) (c : Z) :
  no_linebreak l -> no_linebreak (slice_to l c).
Proof. apply Forall_take. Qed.

Lemma no_linebreak_slice_from (l : str) (c : Z) :
  no_linebreak l -> no_linebreak (slice_from l c).
Proof. apply Forall_drop. Qed.

Lemma no_linebreak_chr (key : Z) : printable key -> no_linebreak (chr key).
Proof.
  intros [Hlo Hhi]. unfold chr. constructor; [|constructor].
  unfold is_linebreak. apply bool_decide_eq_false.
  rewrite !elem_of_cons, elem_of_nil. lia.
Qed.

Create HintDb clean.
#[local] Hint Resolve no_linebreak_app no_linebreak_slice_to no_linebreak_slice_from
  : clean.
#[local] Hint Extern 1 (no_linebreak _) =>
  match goal with
  | H : getitem _ _ = Ok ?x |- no_linebreak ?x =>
      eapply (getitem_Forall no_linebreak); [|exact H]
  end : clean.
#[local] Hint Extern 2 (Forall no_linebreak _) =>
  match goal with
  | H : setitem _ _ _ = Ok ?l |- Forall no_linebreak ?l =>
      eapply (setitem_Forall no_linebreak); [| |exact H]
  | H : pop _ _ = Ok (_, ?l) |- Forall no_linebreak ?l =>
      eapply (pop_Forall no_linebreak); [|exact H]
  end : clean.
#[local] Hint Extern 2 (Forall no_linebreak (list_insert _ _ _)) =>
  apply (list_insert_Forall no_linebreak) : clean.

Lemma insert_char_clean (text : str) (w : world) (e e' : editor) :
  no_linebreak text ->
  Forall no_linebreak (lines e) ->
  insert_char text w e = Ok e' ->
  Forall no_linebreak (lines e').
Proof. intros Ht He. unfold insert_char. outcome_cases. eauto 8 with clean. Qed.

Lemma insert_newline_clean (w : world) (e e' : editor) :
  Forall no_linebreak (lines e) ->
  insert_newline w e = Ok e' ->
  Forall no_linebreak (lines e').
Proof. intros He. unfold insert_newline. outcome_cases. eauto 8 with clean. Qed.

Lemma backspace_clean (w : world) (e e' : editor) :
  Forall no_linebreak (lines e) ->
  backspace w e = Ok e' ->
  Forall no_linebreak (lines e').
Proof. intros He. unfold backspace. outcome_cases; eauto 10 with clean. Qed.

Lemma delete_char_clean (e e' : editor) :
  Forall no_linebreak (lines e) ->
  delete_char e = Ok e' ->
  Forall no_linebreak (lines e').
Proof. intros He. unfold delete_char. outcome_cases; eauto 10 with clean. Qed.

Lemma cut_line_clean (s s' : session) :
  clean s -> cut_line s = Ok s' -> clean s'.
Proof.
  intros [He Hc]. unfold cut_line, clean. outcome_cases; try done.
  all: match goal with
       | H : pop _ _ = Ok _ |- _ =>
           destruct (pop_Forall no_linebreak _ _ _ _ He H) as [? ?]
       end.
  all: split; eauto 6 with clean; by repeat constructor.
Qed.

Lemma paste_line_clean (s : session) : clean s -> clean (paste_line s).
Proof.
  intros [He Hc]. unfold paste_line, clean.
  destruct (truthy (cut_buffer s)); simpl; [|done].
  split; [|done]. by apply list_insert_Forall.
Qed.

Lemma confirm_exit_lines (e : editor) (w : world)
    (leave : bool) (e' : editor) (w' : world) :
  confirm_exit e w = Ok (leave, e', w') -> lines e' = lines e.
Proof.
  unfold confirm_exit. destruct (modified e); simpl.
  - destruct (draw_row w _ _); simpl; try done.
    intros Hloop. by destruct (confirm_exit_loop_effects _ _ _ _ _ _ Hloop).
  - by intros [= <- <- <-].
Qed.

(** Every command keeps the lines and the clipboard free of line breaks. *)
Lemma dispatch_clean (key : Z) (s : session) (leave : bool) (s' : session) :
  clean s -> dispatch key s = Ok (leave, s') -> clean s'.
Proof.
  destruct s as [e cut w]. intros [He Hc]. simpl in He, Hc.
  unfold dispatch, clean. simpl.
  assert (Hcont : forall r : result editor,
             (forall e1, r = Ok e1 -> Forall no_linebreak (lines e1)) ->
             (e1 ← r; mret (false, Session e1 cut w)) = Ok (leave, s') ->
             Forall no_linebreak (lines (ed s')) /\ no_linebreak (cut_buffer s')).
  { intros r Hr. destruct r as [e1| | | |]; simpl; [|done..].
    intros [= <- <-]. simpl. split; [by apply Hr | done]. }
  assert (Hsame : forall r : result editor,
             (forall e1, r = Ok e1 -> lines e1 = lines e) ->
             forall e1, r = Ok e1 -> Forall no_linebreak (lines e1)).
  { intros r Hr e1 He1. by rewrite (Hr e1 He1). }
  destruct (Z.eqb_spec key 24) as [->|_].
  { destruct (confirm_exit e w) as [[[b e1] w1]| | | |] eqn:Hexit; simpl; [|done..].
    intros [= <- <-]. simpl. by rewrite (confirm_exit_lines _ _ _ _ _ Hexit). }
  destruct (Z.eqb_spec key 15) as [->|_].
  { destruct (prompt_save_filename e w) as [[fname w1]| | | |]; simpl; try done.
    destruct (truthy_opt fname); simpl; [|by intros [= <- <-]].
    pose proof (save_file_frame fname e w1) as (Hl & _).
    destruct (save_file fname e w1) as [[ok e1] w2].
    intros [= <- <-]. simpl in *. by rewrite Hl. }
  destruct (Z.eqb_spec key 23) as [->|_].
  { destruct (prompt_search w) as [[[q|] w1]| | | |]; simpl; try done;
      [|by intros [= <- <-]].
    destruct (truthy q); [|by intros [= <- <-]].
    destruct (search q w1 e) as [e1| | | |] eqn:Hs; simpl; [|done..].
    intros [= <- <-]. simpl. by rewrite (search_lines _ _ _ _ Hs). }
  destruct (Z.eqb_spec key 11) as [->|_].
  { destruct (cut_line (Session e cut w)) as [s1| | | |] eqn:Hcut; simpl; [|done..].
    intros [= <- <-]. by apply (cut_line_clean (Session e cut w)). }
  destruct (Z.eqb_spec key 21) as [->|_].
  { simpl. intros [= <- <-]. by apply (paste_line_clean (Session e cut w)). }
  destruct (Z.eqb_spec key 7) as [->|_].
  { rewrite show_help_reads. unfold getch.
    destruct (keys w) as [|k ks]; simpl; [done|]. by intros [= <- <-]. }
  destruct (Z.eqb_spec key 1) as [->|_].
  { simpl. intros [= <- <-]. simpl. by rewrite adjust_scroll_lines. }
  destruct (Z.eqb_spec key 5) as [->|_].
  { apply Hcont, Hsame. intros e1. outcome_cases. done. }
  destruct (Z.eqb_spec key KEY_UP) as [->|_].
  { apply Hcont, Hsame. intros e1. apply move_cursor_lines. }
  destruct (Z.eqb_spec key KEY_DOWN) as [->|_].
  { apply Hcont, Hsame. intros e1. apply move_cursor_lines. }
  destruct (Z.eqb_spec key KEY_LEFT) as [->|_].
  { destruct (0 <? cursor_x e).
    - apply Hcont, Hsame. intros e1. apply move_cursor_lines.
    - destruct (0 <? cursor_y e).
      + apply Hcont, Hsame. intros e1. outcome_cases. done.
      + by intros [= <- <-]. }
  destruct (Z.eqb_spec key KEY_RIGHT) as [->|_].
  { apply Hcont, Hsame. intros e1.
    destruct (getitem (lines e) (cursor_y e)) as [line| | | |]; simpl; [|done..].
    destruct (cursor_x e <? len line); [apply move_cursor_lines|].
    destruct (cursor_y e <? len (lines e) - 1).
    - intros [= <-]. by rewrite adjust_scroll_lines.
    - by intros [= <-]. }
  destruct (Z.eqb_spec key KEY_HOME) as [->|_].
  { simpl. intros [= <- <-]. simpl. by rewrite adjust_scroll_lines. }
  destruct (Z.eqb_spec key KEY_END) as [->|_].
  { apply Hcont, Hsame. intros e1. outcome_cases. done. }
  destruct (Z.eqb_spec key KEY_PPAGE) as [->|_].
  { apply Hcont, Hsame. intros e1. apply move_cursor_lines. }
  destruct (Z.eqb_spec key KEY_NPAGE) as [->|_].
  { apply Hcont, Hsame. intros e1. apply move_cursor_lines. }
  case_bool_decide.
  { apply Hcont. intros e1. by apply insert_newline_clean. }
  case_bool_decide.
  { apply Hcont. intros e1. by apply backspace_clean. }
  destruct (Z.eqb_spec key KEY_DC) as [->|_].
  { apply Hcont. intros e1. by apply delete_char_clean. }
  destruct (Z.eqb_spec key 9) as [->|_].
  { apply Hcont. intros e1. apply insert_char_clean; [|done].
    by repeat constructor. }
  destruct ((32 <=? key) && (key <=? 126)) eqn:Hkey.
  { apply Hcont. intros e1. apply insert_char_clean; [|done].
    apply no_linebreak_chr. apply andb_true_iff in Hkey as [Hlo Hhi].
    split; [by apply Z.leb_le | by apply Z.leb_le]. }
  by intros [= <- <-].
Qed.

Lemma init_clean (fname : option str) (w : world) :
  Forall no_linebreak (lines (init fname w)).
Proof.
  unfold init. destruct fname as [fn|]; [|by repeat constructor].
  destruct (truthy fn); [|by repeat constructor].
  unfold load_file.
  destruct (files w !! fn) as [content|]; simpl; [|by repeat constructor].
  destruct (read_error w !! fn); simpl; [by repeat constructor|].
  destruct (truthy _); [|by repeat constructor].
  apply splitlines_go_no_linebreak. constructor.
Qed.

(** X11: in every state the loop of [run] reaches, no line of the buffer
    and no line held in the clipboard contains a line-break character, so
    each line of the buffer is one line of the file that is written. *)
Theorem reachable_lines_have_no_linebreak (s : session) :
  reachable s ->
  Forall no_linebreak (lines (ed s)) /\ no_linebreak (cut_buffer s).
Proof.
  induction 1 as [fname w|s s' key w Hs IH Hkey Hd].
  - split; [apply init_clean | constructor].
  - by apply (dispatch_clean key (Session (ed s) (cut_buffer s) w) false s').
Qed.

Lemma reachable_lines_have_no_linebreak_witness :
  Forall no_linebreak (lines (ed pasted)) /\ no_linebreak (cut_buffer pasted).
Proof. apply (reachable_lines_have_no_linebreak pasted). exact pasted_reachable. Defined.

(** ** The arrow keys *)

Lemma dispatch_left (e : editor) (cut : str) (w : world) :
  dispatch KEY_LEFT (Session e cut w) =
  if 0 <? cursor_x e then
    e' ← move_cursor 0 (-1) w e; mret (false, Session e' cut w)
  else if 0 <? cursor_y e then
    e' ← (line ← getitem (lines e) (cursor_y e - 1);
          mret (adjust_scroll w
                  (set_cursor_x (len line) (set_cursor_y (cursor_y e - 1) e))));
    mret (false, Session e' cut w)
  else mret (false, Session e cut w).
Proof. reflexivity. Qed.

Lemma dispatch_right (e : editor) (cut : str) (w : world) :
  dispatch KEY_RIGHT (Session e cut w) =
  e' ← (line ← getitem (lines e) (cursor_y e);
        if cursor_x e <? len line then move_cursor 0 1 w e
        else if cursor_y e <? len (lines e) - 1 then
          mret (adjust_scroll w (set_cursor_x 0 (set_cursor_y (cursor_y e + 1) e)))
        else mret e);
  mret (false, Session e' cut w).
Proof. reflexivity. Qed.

(** [move_cursor] along the row of a valid cursor. *)
Lemma move_cursor_in_row (dx : Z) (w : world) (e : editor)
    (l1 : list str) (line : str) (l2 : list str) :
  lines e = l1 ++ line :: l2 ->
  cursor_y e = len l1 ->
  0 <= cursor_x e + dx <= len line ->
  exists e',
    move_cursor 0 dx w e = Ok e' /\
    lines e' = lines e /\ cursor_y e' = len l1 /\ cursor_x e' = cursor_x e + dx.
Proof.
  intros Hl Hy Hx. unfold move_cursor. simpl. rewrite Hl, Hy.
  rewrite len_app, len_cons.
  pose proof (len_nonneg l1). pose proof (len_nonneg l2).
  replace (Z.max 0 (Z.min (len l1 + (len l2 + 1) - 1) (len l1 + 0))) with (len l1) by lia.
  rewrite getitem_middle. simpl.
  eexists. split; [reflexivity|]. scroll_simpl. rewrite Hl. repeat split; lia.
Qed.

(** X12: with the cursor at a valid position, the Left and Right keys
    leave the lines alone, keep the cursor valid and move it by exactly one
    position in the text of the buffer, passing from the start of a row to
    the end of the row above and back; at the start and at the end of the
    text they do nothing. *)
Theorem arrows_move_offset (w : world) (e : editor) (cut line : str) :
  0 <= cursor_y e ->
  getitem (lines e) (cursor_y e) = Ok line ->
  0 <= cursor_x e <= len line ->
  (exists e1,
      dispatch KEY_LEFT (Session e cut w) = Ok (false, Session e1 cut w) /\
      lines e1 = lines e /\ cursor_ok e1 /\
      cursor_offset e1 = Z.max 0 (cursor_offset e - 1)) /\
  (exists e2,
      dispatch KEY_RIGHT (Session e cut w) = Ok (false, Session e2 cut w) /\
      lines e2 = lines e /\ cursor_ok e2 /\
      cursor_offset e2 = Z.min (len (buffer_text e)) (cursor_offset e + 1)).
Proof.
  intros Hy Hline Hx.
  destruct (split_at_cursor e line Hy Hline) as (l1 & l2 & Hl & Hcy).
  destruct (text_at_cursor e l1 line l2 Hl Hcy) as [HT Hp].
  pose proof (rows_text_nonneg l1) as Hrows.
  pose proof (len_nonneg (concat ((fun y => [LF] ++ y) <$> l2))) as Hbelow.
  assert (Hok : forall e' l1' line' l2',
             lines e' = l1' ++ line' :: l2' -> cursor_y e' = len l1' ->
             0 <= cursor_x e' <= len line' -> cursor_ok e').
  { intros e' l1' line' l2' Hl' Hy' Hx'. apply cursor_ok_positioned.
    apply (positioned_at _ _ l1' line' l2'); try done; lia. }
  split.
  - rewrite dispatch_left. destruct (Z.ltb_spec 0 (cursor_x e)) as [Hpos|Hzero].
    + destruct (move_cursor_in_row (-1) w e l1 line l2 Hl Hcy)
        as (e1 & -> & Hl1 & Hy1 & Hx1); [lia|].
      exists e1. split; [reflexivity|]. split; [done|]. rewrite Hl in Hl1.
      split; [apply (Hok e1 l1 line l2); try done; lia|].
      destruct (text_at_cursor e1 l1 line l2 Hl1 Hy1) as [_ Hp1]. lia.
    + assert (Hx0 : cursor_x e = 0) by lia.
      destruct l1 as [|prev l0 _] using rev_ind.
      * destruct (Z.ltb_spec 0 (cursor_y e)) as [Hrow|_];
          [by rewrite Hcy in Hrow|].
        exists e. split; [reflexivity|]. split; [done|].
        split; [by apply (Hok e [] line l2)|].
        rewrite Hp, Hx0. change (len (rows_text [])) with 0. lia.
      * rewrite len_snoc in Hcy. pose proof (len_nonneg l0).
        destruct (Z.ltb_spec 0 (cursor_y e)) as [_|Hbad]; [|lia].
        assert (Hl0 : lines e = l0 ++ prev :: line :: l2)
          by (by rewrite Hl, <- app_assoc).
        rewrite Hcy. replace (len l0 + 1 - 1) with (len l0) by lia.
        assert (Hprev : getitem (lines e) (len l0) = Ok prev)
          by (rewrite Hl0; apply getitem_middle).
        rewrite Hprev. simpl.
        set (e1 := adjust_scroll w
                     (set_cursor_x (len prev) (set_cursor_y (len l0) e))).
        assert (Hl1 : lines e1 = l0 ++ prev :: line :: l2)
          by (unfold e1; by scroll_simpl).
        assert (Hy1 : cursor_y e1 = len l0) by (unfold e1; by scroll_simpl).
        assert (Hx1 : cursor_x e1 = len prev) by (unfold e1; by scroll_simpl).
        destruct (text_at_cursor e1 l0 prev (line :: l2) Hl1 Hy1) as [_ Hp1].
        exists e1. split; [reflexivity|]. split; [by rewrite Hl1|].
        split.
        { apply (Hok e1 l0 prev (line :: l2)); try done.
          rewrite Hx1. pose proof (len_nonneg prev). lia. }
        rewrite Hp1, Hx1, Hp, Hx0, rows_text_snoc, !len_app.
        change (len [LF]) with 1.
        pose proof (rows_text_nonneg l0). pose proof (len_nonneg prev). lia.
  - rewrite dispatch_right, Hline. simpl.
    destruct (Z.ltb_spec (cursor_x e) (len line)) as [Hin|Hend].
    + destruct (move_cursor_in_row 1 w e l1 line l2 Hl Hcy)
        as (e2 & -> & Hl2 & Hy2 & Hx2); [lia|].
      exists e2. split; [reflexivity|]. split; [done|]. rewrite Hl in Hl2.
      split; [apply (Hok e2 l1 line l2); try done; lia|].
      destruct (text_at_cursor e2 l1 line l2 Hl2 Hy2) as [_ Hp2].
      rewrite HT, !len_app. lia.
    + assert (Hxe : cursor_x e = len line) by lia.
      rewrite Hl, len_app, len_cons. destruct l2 as [|next l3].
      * change (len (@nil str)) with 0.
        destruct (Z.ltb_spec (cursor_y e) (len l1 + (0 + 1) - 1)); [lia|].
        exists e. split; [reflexivity|]. split; [done|].
        split; [by apply (Hok e l1 line [])|].
        rewrite HT, !len_app, Hp, Hxe. simpl. change (len (@nil N)) with 0. lia.
      * rewrite len_cons. pose proof (len_nonneg l3).
        destruct (Z.ltb_spec (cursor_y e) (len l1 + (len l3 + 1 + 1) - 1)); [|lia].
        set (e2 := adjust_scroll w
                     (set_cursor_x 0 (set_cursor_y (cursor_y e + 1) e))).
        assert (Hl2 : lines e2 = (l1 ++ [line]) ++ next :: l3)
          by (unfold e2; scroll_simpl; by rewrite Hl, <- app_assoc).
        assert (Hy2 : cursor_y e2 = len (l1 ++ [line]))
          by (unfold e2; scroll_simpl; rewrite len_snoc; lia).
        assert (Hx2 : cursor_x e2 = 0) by (unfold e2; by scroll_simpl).
        destruct (text_at_cursor e2 (l1 ++ [line]) next l3 Hl2 Hy2) as [_ Hp2].
        exists e2. split; [reflexivity|].
        split; [by rewrite Hl2, ?Hl, <- app_assoc|].
        split.
        { apply (Hok e2 (l1 ++ [line]) next l3); try done.
          rewrite Hx2. pose proof (len_nonneg next). lia. }
        rewrite Hp2, Hx2, HT, Hp, Hxe, rows_text_snoc, below_cons, !len_app.
        change (len [LF]) with 1.
        pose proof (len_nonneg next).
        pose proof (len_nonneg (concat ((fun y => [LF] ++ y) <$> l3))). lia.
Qed.

Lemma arrows_move_offset_witness :
  (exists e1,
      dispatch KEY_LEFT (Session hello_world [] quiet_world)
      = Ok (false, Session e1 [] quiet_world) /\
      lines e1 = lines hello_world /\ cursor_ok e1 /\
      cursor_offset e1 = Z.max 0 (cursor_offset hello_world - 1)) /\
  (exists e2,
      dispatch KEY_RIGHT (Session hello_world [] quiet_world)
      = Ok (false, Session e2 [] quiet_world) /\
      lines e2 = lines hello_world /\ cursor_ok e2 /\
      cursor_offset e2
      = Z.min (len (buffer_text hello_world)) (cursor_offset hello_world + 1)).
Proof.
  apply (arrows_move_offset quiet_world hello_world [] (lit "hello")).
  - by vm_compute.
  - reflexivity.
  - split; by vm_compute.
Defined.
